(** * ZOOM L-8 USB audio driver: the PCM streaming engine of [pcm.c]

    A shallow embedding of the driver's PCM engine: the packet transcoder
    ([memcpy_pcm_playback], [memcpy_pcm_capture]), the position advance
    ([zoom_pcm_capture], [zoom_pcm_playback]), the stream state machine
    ([zoom_pcm_stream_start], [zoom_pcm_stream_stop]), the URB completion
    handlers and the ALSA callbacks (open, close, prepare, trigger,
    pointer), the creation and destruction of the runtime
    ([zoom_pcm_init], [zoom_pcm_destroy]) and the probe of [driver.c],
    followed by the properties of the design document that the code
    satisfies, the places where it departs from them, and further
    properties of the code. *)

From Stdlib Require Import ZArith Lia Bool.
From Stdlib.Strings Require Import Byte.
From stdpp Require Import base list vector.

Local Open Scope Z_scope.

(** ** Constants of [pcm.c] and of the kernel headers it uses *)

Definition IN_EP : Z := 0x82.
Definition OUT_EP : Z := 0x01.
Definition PCM_N_URBS : nat := 4.
Definition PCM_URB_SIZE : Z := 512.
Definition PCM_PACKET_SIZE : Z := 4 * 4.

(** [errno] values of [include/uapi/asm-generic/errno*.h]. *)
Definition EPERM : Z := 1.
Definition ENOENT : Z := 2.
Definition EIO : Z := 5.
Definition ENOMEM : Z := 12.
Definition ENODEV : Z := 19.
Definition EINVAL : Z := 22.
Definition EPIPE : Z := 32.
Definition ECONNRESET : Z := 104.
Definition ESHUTDOWN : Z := 108.

(** ** Machine integers

    [unsigned int] is 32 bits wide, [u8] is 8 bits wide and
    [snd_pcm_uframes_t] is [unsigned long], 64 bits wide on the LP64
    kernels the model follows.  Every arithmetic result is reduced
    explicitly. *)

Definition uint (x : Z) : Z := x mod 4294967296.
Definition ulong (x : Z) : Z := x mod 18446744073709551616.
Definition u8 (x : Z) : Z := x mod 256.

(** ** Byte buffers and 32-bit accesses

    A [u8 *] is a block of bytes together with a byte offset into it.
    [((u32 * )p)[i]] designates the four bytes at offset [4 * i] from [p].
    The model only represents the block itself: a load outside of it yields
    zero bytes and a store outside of it is dropped. *)

Definition buf := list byte.

Record u8ptr := U8Ptr { blk : buf; ofs : Z }.

Inductive u32 := W32 (b0 b1 b2 b3 : byte).

Definition u32_zero : u32 := W32 x00 x00 x00 x00.

Definition rd8 (b : buf) (k : Z) : byte :=
  if k <? 0 then x00 else default x00 (b !! Z.to_nat k).

Definition wr8 (b : buf) (k : Z) (v : byte) : buf :=
  if k <? 0 then b else <[Z.to_nat k := v]> b.

Definition load_u32 (p : u8ptr) (i : Z) : u32 :=
  let a := ofs p + 4 * i in
  W32 (rd8 (blk p) a) (rd8 (blk p) (a + 1))
      (rd8 (blk p) (a + 2)) (rd8 (blk p) (a + 3)).

Definition store_u32 (p : u8ptr) (i : Z) (w : u32) : u8ptr :=
  let a := ofs p + 4 * i in
  let 'W32 b0 b1 b2 b3 := w in
  U8Ptr (wr8 (wr8 (wr8 (wr8 (blk p) a b0) (a + 1) b1) (a + 2) b2) (a + 3) b3)
        (ofs p).

(** [memset(p, 0, n)] on a block, from its start. *)
Definition memset_zero (b : buf) (n : Z) : buf :=
  replicate (Z.to_nat n `min` length b) x00 ++ drop (Z.to_nat n) b.

(** ** The transcoder *)

(** The inner loop of [memcpy_pcm_playback]:
    [for (c = 0; c < ch; c++) ((u32 * )dest)[i++] = ((u32 * )src)[o++];]
    run for the [n] iterations that are left. *)
Fixpoint playback_frame (n : nat) (dest src : u8ptr) (i o : Z)
  : u8ptr * Z * Z :=
  match n with
  | O => (dest, i, o)
  | S n' =>
      playback_frame n' (store_u32 dest i (load_u32 src o)) src
                     (uint (i + 1)) (uint (o + 1))
  end.

(** The outer loop [for (i = 0; i < (PCM_URB_SIZE/4); i++)].  The body
    changes [i], so the loop is driven by fuel; [i] grows on every turn and
    [PCM_URB_SIZE/4] turns are enough (see [playback_loop_fuel]). *)
Fixpoint playback_loop (fuel : nat) (dest src : u8ptr) (ch i o : Z) : u8ptr :=
  match fuel with
  | O => dest
  | S fuel' =>
      if i <? PCM_URB_SIZE / 4 then
        if negb (i mod 32 =? 0) then
          (* padding, then [continue] *)
          playback_loop fuel' (store_u32 dest i u32_zero) src ch
                        (uint (i + 1)) o
        else
          let '(dest', i', o') := playback_frame (Z.to_nat ch) dest src i o in
          playback_loop fuel' dest' src ch (uint (i' + 1)) o'
      else dest
  end.

(** [memcpy_pcm_playback(dest, src, ch)]; the result is the block of
    [dest] after the call. *)
Definition memcpy_pcm_playback (dest src : u8ptr) (ch : Z) : buf :=
  blk (playback_loop (Z.to_nat (PCM_URB_SIZE / 4)) dest src ch 0 0).

(** The inner loop of [memcpy_pcm_capture].  The last component tells
    whether the function executed its [return]. *)
Fixpoint capture_frame (n : nat) (dest src : u8ptr) (skip l i o : Z)
  : u8ptr * Z * Z * bool :=
  match n with
  | O => (dest, i, o, false)
  | S n' =>
      if negb (skip =? 0) && (i <? skip / 4) then
        capture_frame n' dest src skip l (uint (i + 1)) o
      else if negb (l =? 0) && (l / 4 <=? o) then
        (dest, i, o, true)
      else
        capture_frame n' (store_u32 dest o (load_u32 src i)) src skip l
                      (uint (i + 1)) (uint (o + 1))
  end.

Fixpoint capture_loop (fuel : nat) (dest src : u8ptr) (ch skip l i o : Z)
  : u8ptr :=
  match fuel with
  | O => dest
  | S fuel' =>
      if i <? PCM_URB_SIZE / 4 then
        if negb (i mod 32 =? 0) then
          capture_loop fuel' dest src ch skip l (uint (i + 1)) o
        else
          let '(dest', i', o', returned) :=
            capture_frame (Z.to_nat ch) dest src skip l i o in
          if returned then dest'
          else capture_loop fuel' dest' src ch skip l (uint (i' + 1)) o'
      else dest
  end.

(** [memcpy_pcm_capture(dest, src, ch, skip, l)]; the result is the block
    of [dest] after the call. *)
Definition memcpy_pcm_capture (dest src : u8ptr) (ch skip l : Z) : buf :=
  blk (capture_loop (Z.to_nat (PCM_URB_SIZE / 4)) dest src ch skip l 0 0).

(** ** ALSA objects the driver reads and writes

    The fields of [struct snd_pcm_hardware], [struct snd_pcm_runtime] and
    [struct snd_pcm_substream] that [pcm.c] uses. *)

Record snd_pcm_hardware := {
  channels_min : Z;
  channels_max : Z;
  buffer_bytes_max : Z;
  period_bytes_min : Z;
  period_bytes_max : Z;
  periods_min : Z;
  periods_max : Z
}.

Definition pcm_hw : snd_pcm_hardware := {|
  channels_min := 2;
  channels_max := 4;
  buffer_bytes_max := 1024 * 1024;
  period_bytes_min := PCM_PACKET_SIZE * 2;
  period_bytes_max := 512 * 1024;
  periods_min := 2;
  periods_max := 1024
|}.

Definition pcm_hw_rec : snd_pcm_hardware := {|
  channels_min := 1;
  channels_max := 12;
  buffer_bytes_max := 1024 * 1024;
  period_bytes_min := PCM_PACKET_SIZE * 12;
  period_bytes_max := 512 * 1024;
  periods_min := 2;
  periods_max := 1024
|}.

Record snd_pcm_runtime := {
  hw : snd_pcm_hardware;
  channels : Z;      (* unsigned int *)
  frame_bits : Z;    (* unsigned int *)
  buffer_size : Z;   (* snd_pcm_uframes_t *)
  period_size : Z;   (* snd_pcm_uframes_t *)
  dma_area : buf
}.

Record snd_pcm_substream := {
  stream : Z;
  runtime : snd_pcm_runtime
}.

Definition SNDRV_PCM_STREAM_PLAYBACK : Z := 0.
Definition SNDRV_PCM_STREAM_CAPTURE : Z := 1.

Definition SNDRV_PCM_TRIGGER_STOP : Z := 0.
Definition SNDRV_PCM_TRIGGER_START : Z := 1.
Definition SNDRV_PCM_TRIGGER_PAUSE_PUSH : Z := 3.
Definition SNDRV_PCM_TRIGGER_PAUSE_RELEASE : Z := 4.

(** [((snd_pcm_uframes_t)-1)] *)
Definition SNDRV_PCM_POS_XRUN : Z := ulong (-1).

Definition set_hw (h : snd_pcm_hardware) (r : snd_pcm_runtime)
  : snd_pcm_runtime :=
  {| hw := h; channels := channels r; frame_bits := frame_bits r;
     buffer_size := buffer_size r; period_size := period_size r;
     dma_area := dma_area r |}.

Definition set_dma_area (d : buf) (r : snd_pcm_runtime) : snd_pcm_runtime :=
  {| hw := hw r; channels := channels r; frame_bits := frame_bits r;
     buffer_size := buffer_size r; period_size := period_size r;
     dma_area := d |}.

Definition set_runtime (r : snd_pcm_runtime) (s : snd_pcm_substream)
  : snd_pcm_substream :=
  {| stream := stream s; runtime := r |}.

(** [snd_pcm_lib_buffer_bytes] of [include/sound/pcm.h]:
    [frames_to_bytes(runtime, runtime->buffer_size)], that is
    [buffer_size * frame_bits / 8]. *)
Definition snd_pcm_lib_buffer_bytes (s : snd_pcm_substream) : Z :=
  buffer_size (runtime s) * frame_bits (runtime s) / 8.

(** ** The driver's own records *)

Record pcm_urb := {
  buffer : buf;
  (* [instance]: the URB is owned by the USB core, submitted and not yet
     given back *)
  in_flight : bool
}.

Record pcm_substream := {
  instance : option snd_pcm_substream;
  active : bool;
  dma_off : Z;
  period_off : Z
}.

Inductive stream_state_t :=
| STREAM_DISABLED
| STREAM_STARTING
| STREAM_RUNNING
| STREAM_STOPPING.

Definition state_eqb (a b : stream_state_t) : bool :=
  match a, b with
  | STREAM_DISABLED, STREAM_DISABLED
  | STREAM_STARTING, STREAM_STARTING
  | STREAM_RUNNING, STREAM_RUNNING
  | STREAM_STOPPING, STREAM_STOPPING => true
  | _, _ => false
  end.

Record pcm_runtime := {
  playback : pcm_substream;
  capture : pcm_substream;
  panic : bool;
  out_urbs : vec pcm_urb PCM_N_URBS;
  in_urbs : vec pcm_urb PCM_N_URBS;
  stream_state : stream_state_t;
  stream_wait_cond : bool
}.

Inductive direction := DirOut | DirIn.
Inductive which_sub := Playback | Capture.

Definition set_buffer (b : buf) (u : pcm_urb) : pcm_urb :=
  {| buffer := b; in_flight := in_flight u |}.
Definition set_in_flight (f : bool) (u : pcm_urb) : pcm_urb :=
  {| buffer := buffer u; in_flight := f |}.

Definition set_instance (a : option snd_pcm_substream) (s : pcm_substream)
  : pcm_substream :=
  {| instance := a; active := active s; dma_off := dma_off s;
     period_off := period_off s |}.
Definition set_active (b : bool) (s : pcm_substream) : pcm_substream :=
  {| instance := instance s; active := b; dma_off := dma_off s;
     period_off := period_off s |}.
Definition set_dma_off (d : Z) (s : pcm_substream) : pcm_substream :=
  {| instance := instance s; active := active s; dma_off := d;
     period_off := period_off s |}.
Definition set_period_off (p : Z) (s : pcm_substream) : pcm_substream :=
  {| instance := instance s; active := active s; dma_off := dma_off s;
     period_off := p |}.

Definition set_playback (s : pcm_substream) (rt : pcm_runtime) : pcm_runtime :=
  {| playback := s; capture := capture rt; panic := panic rt;
     out_urbs := out_urbs rt; in_urbs := in_urbs rt;
     stream_state := stream_state rt;
     stream_wait_cond := stream_wait_cond rt |}.
Definition set_capture (s : pcm_substream) (rt : pcm_runtime) : pcm_runtime :=
  {| playback := playback rt; capture := s; panic := panic rt;
     out_urbs := out_urbs rt; in_urbs := in_urbs rt;
     stream_state := stream_state rt;
     stream_wait_cond := stream_wait_cond rt |}.
Definition set_panic (b : bool) (rt : pcm_runtime) : pcm_runtime :=
  {| playback := playback rt; capture := capture rt; panic := b;
     out_urbs := out_urbs rt; in_urbs := in_urbs rt;
     stream_state := stream_state rt;
     stream_wait_cond := stream_wait_cond rt |}.
Definition set_out_urbs (v : vec pcm_urb PCM_N_URBS) (rt : pcm_runtime)
  : pcm_runtime :=
  {| playback := playback rt; capture := capture rt; panic := panic rt;
     out_urbs := v; in_urbs := in_urbs rt;
     stream_state := stream_state rt;
     stream_wait_cond := stream_wait_cond rt |}.
Definition set_in_urbs (v : vec pcm_urb PCM_N_URBS) (rt : pcm_runtime)
  : pcm_runtime :=
  {| playback := playback rt; capture := capture rt; panic := panic rt;
     out_urbs := out_urbs rt; in_urbs := v;
     stream_state := stream_state rt;
     stream_wait_cond := stream_wait_cond rt |}.
Definition set_stream_state (s : stream_state_t) (rt : pcm_runtime)
  : pcm_runtime :=
  {| playback := playback rt; capture := capture rt; panic := panic rt;
     out_urbs := out_urbs rt; in_urbs := in_urbs rt;
     stream_state := s;
     stream_wait_cond := stream_wait_cond rt |}.
Definition set_stream_wait_cond (b : bool) (rt : pcm_runtime) : pcm_runtime :=
  {| playback := playback rt; capture := capture rt; panic := panic rt;
     out_urbs := out_urbs rt; in_urbs := in_urbs rt;
     stream_state := stream_state rt;
     stream_wait_cond := b |}.

Definition urbs (d : direction) (rt : pcm_runtime) : vec pcm_urb PCM_N_URBS :=
  match d with DirOut => out_urbs rt | DirIn => in_urbs rt end.
Definition set_urbs (d : direction) (v : vec pcm_urb PCM_N_URBS)
  (rt : pcm_runtime) : pcm_runtime :=
  match d with DirOut => set_out_urbs v rt | DirIn => set_in_urbs v rt end.
Definition urb (d : direction) (i : fin PCM_N_URBS) (rt : pcm_runtime)
  : pcm_urb := urbs d rt !!! i.
Definition set_urb (d : direction) (i : fin PCM_N_URBS) (u : pcm_urb)
  (rt : pcm_runtime) : pcm_runtime :=
  set_urbs d (vinsert i u (urbs d rt)) rt.

Definition substream (w : which_sub) (rt : pcm_runtime) : pcm_substream :=
  match w with Playback => playback rt | Capture => capture rt end.
Definition set_substream (w : which_sub) (s : pcm_substream)
  (rt : pcm_runtime) : pcm_runtime :=
  match w with Playback => set_playback s rt | Capture => set_capture s rt end.

(** The indices of [for (i = 0; i < PCM_N_URBS; i++)]. *)
Definition urb_indices : list (fin PCM_N_URBS) :=
  [0%fin; 1%fin; 2%fin; 3%fin].

(** The runtime as [zoom_pcm_init] leaves it: [kzalloc]'ed, hence DISABLED,
    not panicked, the start condition clear and both substreams idle, with a
    zeroed buffer of [PCM_URB_SIZE] bytes in every URB. *)
Definition idle_substream : pcm_substream :=
  {| instance := None; active := false; dma_off := 0; period_off := 0 |}.
Definition fresh_urb : pcm_urb :=
  {| buffer := replicate (Z.to_nat PCM_URB_SIZE) x00; in_flight := false |}.
Definition fresh_runtime : pcm_runtime :=
  {| playback := idle_substream; capture := idle_substream; panic := false;
     out_urbs := vreplicate PCM_N_URBS fresh_urb;
     in_urbs := vreplicate PCM_N_URBS fresh_urb;
     stream_state := STREAM_DISABLED; stream_wait_cond := false |}.

(** ** Position advance *)

(** The tail shared by [zoom_pcm_capture] and [zoom_pcm_playback]:
    [sub->dma_off += pcm_len; if (sub->dma_off >= pcm_buffer_size)
     sub->dma_off -= pcm_buffer_size;
     sub->period_off += pcm_len;
     if (sub->period_off >= alsa_rt->period_size) {
       sub->period_off %= alsa_rt->period_size; return true; }
     return false;]
    The remainder by a zero period size is a fault ([None]). *)
Definition advance (sub : pcm_substream) (pcm_buffer_size pcm_len psize : Z)
  : option (pcm_substream * bool) :=
  let d := ulong (dma_off sub + pcm_len) in
  let d := if pcm_buffer_size <=? d then ulong (d - pcm_buffer_size) else d in
  let sub := set_dma_off d sub in
  let p := ulong (period_off sub + pcm_len) in
  if psize <=? p then
    if psize =? 0 then None
    else Some (set_period_off (p mod psize) sub, true)
  else Some (set_period_off p sub, false).

(** [zoom_pcm_capture(sub, urb)]: the substream after the call and whether a
    period elapsed.  [sub->instance] is dereferenced at once: a NULL
    instance is a fault. *)
Definition zoom_pcm_capture (sub : pcm_substream) (urb : pcm_urb)
  : option (pcm_substream * bool) :=
  match instance sub with
  | None => None
  | Some alsa_sub =>
      let alsa_rt := runtime alsa_sub in
      let pcm_buffer_size := uint (snd_pcm_lib_buffer_bytes alsa_sub) in
      let pcm_len := uint (uint (4 * channels alsa_rt) * 4) in
      let src := U8Ptr (buffer urb) 0 in
      let ch := u8 (channels alsa_rt) in
      let area :=
        if ulong (dma_off sub + pcm_len) <=? pcm_buffer_size then
          memcpy_pcm_capture (U8Ptr (dma_area alsa_rt) (dma_off sub)) src
                             ch 0 0
        else
          (* wrap around at end of ring buffer *)
          let len := uint (ulong (pcm_buffer_size - dma_off sub)) in
          let area1 :=
            memcpy_pcm_capture (U8Ptr (dma_area alsa_rt) (dma_off sub)) src
                               ch 0 len in
          memcpy_pcm_capture (U8Ptr area1 0) src ch len 0 in
      let sub :=
        set_instance (Some (set_runtime (set_dma_area area alsa_rt) alsa_sub))
                     sub in
      advance sub pcm_buffer_size pcm_len (period_size alsa_rt)
  end.

(** [zoom_pcm_playback(sub, urb)]: the substream and the URB after the call
    and whether a period elapsed. *)
Definition zoom_pcm_playback (sub : pcm_substream) (urb : pcm_urb)
  : option (pcm_substream * pcm_urb * bool) :=
  match instance sub with
  | None => None
  | Some alsa_sub =>
      let alsa_rt := runtime alsa_sub in
      let pcm_buffer_size := uint (snd_pcm_lib_buffer_bytes alsa_sub) in
      let pcm_len := uint (uint (4 * channels alsa_rt) * 4) in
      let urb :=
        if ulong (dma_off sub + pcm_len) <=? pcm_buffer_size then
          set_buffer
            (memcpy_pcm_playback (U8Ptr (buffer urb) 0)
                                 (U8Ptr (dma_area alsa_rt) (dma_off sub))
                                 (u8 (channels alsa_rt)))
            urb
        else
          (* wrap around at end of ring buffer: only a log line *)
          urb in
      match advance sub pcm_buffer_size pcm_len (period_size alsa_rt) with
      | None => None
      | Some (sub, elapsed) => Some (sub, urb, elapsed)
      end
  end.

(** ** Calls into the kernel and the monad of the control and completion
    paths

    An operation of the driver transforms the [pcm_runtime], may fault, and
    leaves a trace of the kernel services it called.  What those services
    answer is an input of the operation. *)

Inductive call :=
| usb_set_interface_call (intf alt : Z)
| usb_anchor_urb_call (d : direction) (i : fin PCM_N_URBS)
| usb_submit_urb_call (d : direction) (i : fin PCM_N_URBS)
| usb_wait_anchor_empty_timeout_call (d : direction) (i : fin PCM_N_URBS)
                                     (msecs : Z)
| usb_kill_anchored_urbs_call (d : direction) (i : fin PCM_N_URBS)
| usb_kill_urb_call (d : direction) (i : fin PCM_N_URBS)
| wait_event_timeout_call (seconds : Z)
| wake_up_call
| spin_lock_call (w : which_sub)
| spin_unlock_call (w : which_sub)
| mutex_lock_call
| mutex_unlock_call
| snd_pcm_period_elapsed_call (w : which_sub).

Definition is_wake_up (c : call) : bool :=
  match c with wake_up_call => true | _ => false end.

Inductive outcome (A : Type) :=
| Fault
| Done (a : A) (rt : pcm_runtime) (calls : list call).
Arguments Fault {A}.
Arguments Done {A} a rt calls.

Definition M (A : Type) : Type := pcm_runtime -> outcome A.

#[export] Instance M_ret : MRet M := fun A a rt => Done a rt [].
#[export] Instance M_bind : MBind M := fun A B k m rt =>
  match m rt with
  | Fault => Fault
  | Done a rt1 c1 =>
      match k a rt1 with
      | Fault => Fault
      | Done b rt2 c2 => Done b rt2 (c1 ++ c2)
      end
  end.

Definition get : M pcm_runtime := fun rt => Done rt rt [].
Definition modify (f : pcm_runtime -> pcm_runtime) : M unit :=
  fun rt => Done tt (f rt) [].
Definition emit (c : call) : M unit := fun rt => Done tt rt [c].
Definition fault {A} : M A := fun _ => Fault.
Definition lift_option {A} (o : option A) : M A :=
  match o with Some a => mret a | None => fault end.

Fixpoint for_each {A} (l : list A) (body : A -> M unit) : M unit :=
  match l with
  | [] => mret tt
  | x :: l' => body x;; for_each l' body
  end.

(** ** The USB core, as far as the driver sees it *)

(** One transfer completion: which URB, the [status] the core reports, the
    packet the device delivered (in-direction only) and what
    [usb_submit_urb] answers should the handler resubmit. *)
Record completion := {
  c_dir : direction;
  c_idx : fin PCM_N_URBS;
  c_status : Z;
  c_data : option buf;
  c_resubmit : Z
}.

(** What [usb_wait_anchor_empty_timeout] answers for each URB during a
    stop. *)
Record stop_env := {
  wait_out : fin PCM_N_URBS -> Z;
  wait_in : fin PCM_N_URBS -> Z
}.

(** What the kernel answers during a start: the two [usb_set_interface]
    calls, the submissions, the completions delivered while the starter
    waits (in order), and the answers for a stop forced by the start. *)
Record start_env := {
  set_interface_1 : Z;
  set_interface_2 : Z;
  submit_out : fin PCM_N_URBS -> Z;
  submit_in : fin PCM_N_URBS -> Z;
  completions : list completion;
  forced_stop : stop_env
}.

(** [usb_submit_urb]: on success (answer 0) the URB is in flight. *)
Definition usb_submit_urb (d : direction) (i : fin PCM_N_URBS) (answer : Z)
  : M Z :=
  emit (usb_submit_urb_call d i);;
  rt ← get;
  (if answer =? 0 then modify (set_urb d i (set_in_flight true (urb d i rt)))
   else mret tt);;
  mret answer.

Definition fatal_status (status : Z) : bool :=
  (status =? - ENOENT) || (status =? - ENODEV) ||
  (status =? - ECONNRESET) || (status =? - ESHUTDOWN).

(** ** Completion handlers *)

Definition zoom_pcm_in_urb_handler (i : fin PCM_N_URBS) (status resubmit : Z)
  : M unit :=
  rt ← get;
  if panic rt || state_eqb (stream_state rt) STREAM_STOPPING then mret tt
  else if fatal_status status then modify (set_panic true)
  else
    emit (spin_lock_call Capture);;
    do_period_elapsed ←
      (if active (capture rt) then
         r ← lift_option (zoom_pcm_capture (capture rt) (urb DirIn i rt));
         modify (set_capture r.1);;
         mret r.2
       else mret false);
    emit (spin_unlock_call Capture);;
    (if do_period_elapsed : bool
     then emit (snd_pcm_period_elapsed_call Capture) else mret tt);;
    ret ← usb_submit_urb DirIn i resubmit;
    if ret <? 0 then modify (set_panic true) else mret tt.

Definition zoom_pcm_out_urb_handler (i : fin PCM_N_URBS) (status resubmit : Z)
  : M unit :=
  rt ← get;
  if panic rt || state_eqb (stream_state rt) STREAM_STOPPING then mret tt
  else if fatal_status status then modify (set_panic true)
  else
    (if state_eqb (stream_state rt) STREAM_STARTING then
       modify (set_stream_wait_cond true);;
       emit wake_up_call
     else mret tt);;
    (* now send our playback data *)
    emit (spin_lock_call Playback);;
    do_period_elapsed ←
      (if active (playback rt) then
         r ← lift_option (zoom_pcm_playback (playback rt) (urb DirOut i rt));
         modify (set_playback r.1.1);;
         modify (set_urb DirOut i r.1.2);;
         mret r.2
       else
         modify (set_urb DirOut i
                   (set_buffer (memset_zero (buffer (urb DirOut i rt))
                                            PCM_URB_SIZE)
                               (urb DirOut i rt)));;
         mret false);
    emit (spin_unlock_call Playback);;
    (if do_period_elapsed : bool
     then emit (snd_pcm_period_elapsed_call Playback) else mret tt);;
    ret ← usb_submit_urb DirOut i resubmit;
    if ret <? 0 then modify (set_panic true) else mret tt.

(** The USB core gives a URB back: a URB that is in flight leaves the core
    (an in-URB with the packet received) and its completion handler runs.
    The core holds no other URB, so nothing happens otherwise. *)
Definition giveback (c : completion) : M unit :=
  rt ← get;
  let u := urb (c_dir c) (c_idx c) rt in
  if in_flight u then
    let u :=
      match c_dir c, c_data c with
      | DirIn, Some packet => set_buffer packet u
      | _, _ => u
      end in
    modify (set_urb (c_dir c) (c_idx c) (set_in_flight false u));;
    match c_dir c with
    | DirOut => zoom_pcm_out_urb_handler (c_idx c) (c_status c) (c_resubmit c)
    | DirIn => zoom_pcm_in_urb_handler (c_idx c) (c_status c) (c_resubmit c)
    end
  else mret tt.

(** A cancelled URB completes with [-ENOENT]; a submission from its handler
    is refused with [-EPERM]. *)
Definition cancelled (d : direction) (i : fin PCM_N_URBS) : completion :=
  {| c_dir := d; c_idx := i; c_status := - ENOENT; c_data := None;
     c_resubmit := - EPERM |}.

(** [usb_kill_urb]: when it returns the URB is idle and its handler has
    run. *)
Definition usb_kill_urb (d : direction) (i : fin PCM_N_URBS) : M unit :=
  emit (usb_kill_urb_call d i);;
  giveback (cancelled d i).

(** [usb_kill_anchored_urbs] on the anchor of slot [i], which holds no URB
    but the slot's own. *)
Definition usb_kill_anchored_urbs (d : direction) (i : fin PCM_N_URBS)
  : M unit :=
  emit (usb_kill_anchored_urbs_call d i);;
  giveback (cancelled d i).

(** [usb_wait_anchor_empty_timeout(anchor, msecs)]; its answer is an input.
    A URB that completes by itself during the grace period is handled like
    one that is cancelled right after it. *)
Definition usb_wait_anchor_empty_timeout (d : direction) (i : fin PCM_N_URBS)
  (msecs answer : Z) : M Z :=
  emit (usb_wait_anchor_empty_timeout_call d i msecs);;
  mret answer.

(** ** Stream state machine *)

(** One turn of either loop of [zoom_pcm_stream_stop]. *)
Definition stop_urb (d : direction) (answer : fin PCM_N_URBS -> Z)
  (i : fin PCM_N_URBS) : M unit :=
  time ← usb_wait_anchor_empty_timeout d i 100 (answer i);
  (if time =? 0 then usb_kill_anchored_urbs d i else mret tt);;
  usb_kill_urb d i.

(** call with stream_mutex locked *)
Definition zoom_pcm_stream_stop (e : stop_env) : M unit :=
  rt ← get;
  if negb (state_eqb (stream_state rt) STREAM_DISABLED) then
    modify (set_stream_state STREAM_STOPPING);;
    for_each urb_indices (stop_urb DirOut (wait_out e));;
    for_each urb_indices (stop_urb DirIn (wait_in e));;
    modify (set_stream_state STREAM_DISABLED)
  else mret tt.

Definition zoom_interface_init (answer1 answer2 : Z) (e : stop_env) : M Z :=
  emit (usb_set_interface_call 1 3);;
  if negb (answer1 =? 0) then
    zoom_pcm_stream_stop e;;
    mret (- EIO)
  else
    emit (usb_set_interface_call 2 3);;
    if negb (answer2 =? 0) then
      zoom_pcm_stream_stop e;;
      mret (- EIO)
    else mret 0.

(** The submission loop of [zoom_pcm_stream_start]; [Some ret] when the
    function returned [ret] from inside the loop. *)
Fixpoint start_submit (e : start_env) (l : list (fin PCM_N_URBS))
  : M (option Z) :=
  match l with
  | [] => mret None
  | i :: l' =>
      rt ← get;
      modify (set_urb DirOut i
                (set_buffer (memset_zero (buffer (urb DirOut i rt)) PCM_URB_SIZE)
                            (urb DirOut i rt)));;
      emit (usb_anchor_urb_call DirOut i);;
      ret ← usb_submit_urb DirOut i (submit_out e i);
      if negb (ret =? 0) then
        zoom_pcm_stream_stop (forced_stop e);;
        mret (Some ret)
      else
        emit (usb_anchor_urb_call DirIn i);;
        ret ← usb_submit_urb DirIn i (submit_in e i);
        if negb (ret =? 0) then
          zoom_pcm_stream_stop (forced_stop e);;
          mret (Some ret)
        else start_submit e l'
  end.

(** The sleep of [wait_event_timeout(queue, cond, timeout)]: the condition
    is read first; while it is false the completions of the time window are
    delivered one after the other; the answer is 0 when the window ends
    with the condition still false. *)
Fixpoint wait_event (window : list completion) : M Z :=
  match window with
  | [] => rt ← get; mret (if stream_wait_cond rt then 1 else 0)
  | c :: window' =>
      rt ← get;
      if stream_wait_cond rt then mret 1
      else giveback c;; wait_event window'
  end.

(** [wait_event_timeout(rt->stream_wait_queue, rt->stream_wait_cond, HZ)]:
    [HZ] jiffies are one second. *)
Definition wait_event_timeout (window : list completion) : M Z :=
  emit (wait_event_timeout_call 1);;
  wait_event window.

(** call with stream_mutex locked *)
Definition zoom_pcm_stream_start (e : start_env) : M Z :=
  rt ← get;
  if state_eqb (stream_state rt) STREAM_DISABLED then
    (* reset panic state when starting a new stream *)
    modify (set_panic false);;
    ret ← zoom_interface_init (set_interface_1 e) (set_interface_2 e)
                              (forced_stop e);
    if negb (ret =? 0) then mret ret
    else
      (* submit our out urbs zero init *)
      modify (set_stream_state STREAM_STARTING);;
      early ← start_submit e urb_indices;
      match early with
      | Some ret => mret ret
      | None =>
          (* wait for first out urb to return *)
          wait_event_timeout (completions e);;
          rt ← get;
          if stream_wait_cond rt then
            modify (set_stream_state STREAM_RUNNING);;
            mret ret
          else
            zoom_pcm_stream_stop (forced_stop e);;
            mret (- EIO)
      end
  else mret 0.

(** ** ALSA callbacks *)

(** [zoom_pcm_get_substream]: which of the two slots; [None] is NULL. *)
Definition zoom_pcm_get_substream (alsa_sub : snd_pcm_substream)
  : option which_sub :=
  if stream alsa_sub =? SNDRV_PCM_STREAM_PLAYBACK then Some Playback
  else if stream alsa_sub =? SNDRV_PCM_STREAM_CAPTURE then Some Capture
  else None.

Definition zoom_pcm_open (alsa_sub : snd_pcm_substream) : M Z :=
  rt ← get;
  if panic rt then mret (- EPIPE)
  else
    emit mutex_lock_call;;
    let sub : option (which_sub * snd_pcm_hardware) := None in
    let sub :=
      if stream alsa_sub =? SNDRV_PCM_STREAM_PLAYBACK
      then Some (Playback, pcm_hw) else sub in
    let sub :=
      if stream alsa_sub =? SNDRV_PCM_STREAM_CAPTURE
      then Some (Capture, pcm_hw_rec) else sub in
    match sub with
    | None =>
        emit mutex_unlock_call;;
        mret (- EINVAL)
    | Some (w, h) =>
        (* alsa_rt->hw = ...; sub->instance = alsa_sub; sub->active = false *)
        modify (fun rt =>
          set_substream w
            (set_active false
               (set_instance
                  (Some (set_runtime (set_hw h (runtime alsa_sub)) alsa_sub))
                  (substream w rt)))
            rt);;
        emit mutex_unlock_call;;
        mret 0
    end.

Definition zoom_pcm_close (alsa_sub : snd_pcm_substream) (e : stop_env)
  : M Z :=
  rt ← get;
  if panic rt then mret 0
  else
    emit mutex_lock_call;;
    match zoom_pcm_get_substream alsa_sub with
    | Some w =>
        zoom_pcm_stream_stop e;;
        (* deactivate substream *)
        emit (spin_lock_call w);;
        modify (fun rt =>
          set_substream w
            (set_active false (set_instance None (substream w rt))) rt);;
        emit (spin_unlock_call w)
    | None => mret tt
    end;;
    emit mutex_unlock_call;;
    mret 0.

Definition zoom_pcm_prepare (alsa_sub : snd_pcm_substream) (e : stop_env)
  (es : start_env) : M Z :=
  rt ← get;
  if panic rt then mret (- EPIPE)
  else
    match zoom_pcm_get_substream alsa_sub with
    | None => mret (- ENODEV)
    | Some w =>
        emit mutex_lock_call;;
        zoom_pcm_stream_stop e;;
        modify (fun rt =>
          set_substream w
            (set_period_off 0 (set_dma_off 0 (substream w rt))) rt);;
        rt ← get;
        if state_eqb (stream_state rt) STREAM_DISABLED then
          ret ← zoom_pcm_stream_start es;
          if negb (ret =? 0) then
            emit mutex_unlock_call;;
            mret ret
          else
            emit mutex_unlock_call;;
            mret 0
        else
          emit mutex_unlock_call;;
          mret 0
    end.

Definition zoom_pcm_trigger (alsa_sub : snd_pcm_substream) (cmd : Z) : M Z :=
  rt ← get;
  if panic rt then mret (- EPIPE)
  else
    match zoom_pcm_get_substream alsa_sub with
    | None => mret (- ENODEV)
    | Some w =>
        if (cmd =? SNDRV_PCM_TRIGGER_START)
           || (cmd =? SNDRV_PCM_TRIGGER_PAUSE_RELEASE) then
          emit (spin_lock_call w);;
          modify (fun rt => set_substream w (set_active true (substream w rt)) rt);;
          emit (spin_unlock_call w);;
          mret 0
        else if (cmd =? SNDRV_PCM_TRIGGER_STOP)
                || (cmd =? SNDRV_PCM_TRIGGER_PAUSE_PUSH) then
          emit (spin_lock_call w);;
          modify (fun rt => set_substream w (set_active false (substream w rt)) rt);;
          emit (spin_unlock_call w);;
          mret 0
        else mret (- EINVAL)
    end.

(** [bytes_to_frames] of [include/sound/pcm.h]: [size * 8 / frame_bits];
    the division by a zero [frame_bits] is a fault. *)
Definition bytes_to_frames (r : snd_pcm_runtime) (size : Z) : M Z :=
  if frame_bits r =? 0 then fault
  else mret (ulong (size * 8 / frame_bits r)).

Definition zoom_pcm_pointer (alsa_sub : snd_pcm_substream) : M Z :=
  rt ← get;
  if panic rt then mret SNDRV_PCM_POS_XRUN
  else
    match zoom_pcm_get_substream alsa_sub with
    | None => mret SNDRV_PCM_POS_XRUN
    | Some w =>
        emit (spin_lock_call w);;
        let dma_offset := dma_off (substream w rt) in
        emit (spin_unlock_call w);;
        bytes_to_frames (runtime alsa_sub) dma_offset
    end.

Definition zoom_pcm_abort (e : stop_env) : M unit :=
  modify (set_panic true);;
  emit mutex_lock_call;;
  zoom_pcm_stream_stop e;;
  emit mutex_unlock_call.

(** ** Operations that reach the runtime

    Everything that can happen to a [pcm_runtime] between two starts: a
    completion handler runs, ALSA calls one of the [pcm_ops], the stream is
    stopped or the device goes away.  [zoom_pcm_stream_start] is reached
    through [zoom_pcm_prepare] only. *)
Inductive op :=
| OpInHandler (i : fin PCM_N_URBS) (status resubmit : Z)
| OpOutHandler (i : fin PCM_N_URBS) (status resubmit : Z)
| OpGiveback (c : completion)
| OpOpen (alsa_sub : snd_pcm_substream)
| OpClose (alsa_sub : snd_pcm_substream) (e : stop_env)
| OpPrepare (alsa_sub : snd_pcm_substream) (e : stop_env) (es : start_env)
| OpTrigger (alsa_sub : snd_pcm_substream) (cmd : Z)
| OpPointer (alsa_sub : snd_pcm_substream)
| OpStop (e : stop_env)
| OpAbort (e : stop_env).

(** What an operation returns. *)
Inductive result :=
| RVoid
| RInt (r : Z)
| RFrames (pos : Z).

Definition run_op (o : op) : M result :=
  match o with
  | OpInHandler i status resubmit =>
      zoom_pcm_in_urb_handler i status resubmit;; mret RVoid
  | OpOutHandler i status resubmit =>
      zoom_pcm_out_urb_handler i status resubmit;; mret RVoid
  | OpGiveback c => giveback c;; mret RVoid
  | OpOpen alsa_sub => r ← zoom_pcm_open alsa_sub; mret (RInt r)
  | OpClose alsa_sub e => r ← zoom_pcm_close alsa_sub e; mret (RInt r)
  | OpPrepare alsa_sub e es => r ← zoom_pcm_prepare alsa_sub e es; mret (RInt r)
  | OpTrigger alsa_sub cmd => r ← zoom_pcm_trigger alsa_sub cmd; mret (RInt r)
  | OpPointer alsa_sub => r ← zoom_pcm_pointer alsa_sub; mret (RFrames r)
  | OpStop e => zoom_pcm_stream_stop e;; mret RVoid
  | OpAbort e => zoom_pcm_abort e;; mret RVoid
  end.

(** A run of operations: for each of them, in order, what it returned and
    which kernel services it called. *)
Fixpoint run_ops (l : list op) : M (list (op * result * list call)) :=
  match l with
  | [] => mret []
  | o :: l' =>
      fun rt =>
        match run_op o rt with
        | Fault => Fault
        | Done r rt1 c1 =>
            match run_ops l' rt1 with
            | Fault => Fault
            | Done rs rt2 c2 => Done ((o, r, c1) :: rs) rt2 (c1 ++ c2)
            end
        end
  end.

(** ** The packet layout in closed form *)

(** Slot [s] of the packet as [memcpy_pcm_playback] leaves it: frame [s]
    of the source, then the word that the packet held at index [ch] of the
    slot, then zeroes. *)
Definition playback_slot (ch : Z) (packet src : buf) (s : Z) : buf :=
  take (Z.to_nat (4 * ch)) (drop (Z.to_nat (4 * ch * s)) src)
  ++ take 4 (drop (Z.to_nat (128 * s + 4 * ch)) packet)
  ++ replicate (Z.to_nat (4 * (31 - ch))) x00.


(** The word that [memcpy_pcm_playback] steps over, at index [ch] of each
    of the four slots, is zero in the packet.  The out-URB buffers come
    zeroed from [kzalloc] in [zoom_pcm_init_urb_out], every start of the
    stream and every completion with the playback substream inactive
    [memset]s them, and the channel count is fixed from one start to the
    next, so this holds of every packet [zoom_pcm_playback] hands over. *)
Definition padding_clear (ch : Z) (packet : buf) : Prop :=
  load_u32 (U8Ptr packet 0) ch = u32_zero /\
  load_u32 (U8Ptr packet 0) (32 + ch) = u32_zero /\
  load_u32 (U8Ptr packet 0) (64 + ch) = u32_zero /\
  load_u32 (U8Ptr packet 0) (96 + ch) = u32_zero.

(** ** Sample data *)

(** Four frames of two-channel audio, all 32 bytes distinct. *)
Definition sample_frames : buf :=
  [x01; x02; x03; x04;  x05; x06; x07; x08;
   x09; x0a; x0b; x0c;  x0d; x0e; x0f; x10;
   x11; x12; x13; x14;  x15; x16; x17; x18;
   x19; x1a; x1b; x1c;  x1d; x1e; x1f; x20].

(** A packet buffer that still holds old data. *)
Definition stale_packet : buf := replicate 512 xff.

(** The packet that carries [sample_frames], fully zero padded. *)
Definition sample_packet : buf :=
  memcpy_pcm_playback (U8Ptr (replicate 512 x00) 0) (U8Ptr sample_frames 0) 2.

(** The copy of the position-advance algorithm in the words of the design
    document: a payload written into the ring at [off] goes there in one
    piece when it fits before the end of the ring; otherwise its first
    [length area - off] bytes go to the tail and the remaining bytes to
    offset 0.  [ring_read] is the same for a payload taken from the ring. *)
Definition ring_write (area payload : buf) (off : nat) : buf :=
  if (off + length payload <=? length area)%nat then
    take off area ++ payload ++ drop (off + length payload) area
  else
    let n := (length area - off)%nat in
    drop n payload
    ++ drop (length payload - n) (take off area)
    ++ take n payload.

Definition ring_read (area : buf) (off len : nat) : buf :=
  if (off + len <=? length area)%nat then take len (drop off area)
  else drop off area ++ take (len - (length area - off)) area.

(** A ring buffer of 1024 bytes (128 frames of two 32-bit channels) with a
    period size of 256. *)
Definition ring_runtime (area : buf) : snd_pcm_runtime :=
  {| hw := pcm_hw; channels := 2; frame_bits := 64; buffer_size := 128;
     period_size := 256; dma_area := area |}.

Definition ring (st : Z) (area : buf) : snd_pcm_substream :=
  {| stream := st; runtime := ring_runtime area |}.

(** An active substream on that ring at the given offsets. *)
Definition sub_at (st : Z) (area : buf) (d p : Z) : pcm_substream :=
  {| instance := Some (ring st area); active := true; dma_off := d;
     period_off := p |}.

(** A ring filled with a marker byte, and the ring in which the
    application has laid [sample_frames] across the wrap at offset 1008. *)
Definition marker_area : buf := replicate 1024 xaa.
Definition wrapped_area : buf := ring_write marker_area sample_frames 1008.

Definition full_urb : pcm_urb :=
  {| buffer := sample_packet; in_flight := false |}.
Definition stale_urb : pcm_urb :=
  {| buffer := stale_packet; in_flight := false |}.

(** The ring buffer a substream is bound to. *)
Definition area_of (sub : pcm_substream) : buf :=
  match instance sub with
  | Some a => dma_area (runtime a)
  | None => []
  end.

(** The offsets and the period flag that one call leaves; [None] is a
    fault. *)
Definition capture_offsets (sub : pcm_substream) (urb : pcm_urb)
  : option (Z * Z * bool) :=
  match zoom_pcm_capture sub urb with
  | Some (sub', elapsed) => Some (dma_off sub', period_off sub', elapsed)
  | None => None
  end.

Definition playback_offsets (sub : pcm_substream) (urb : pcm_urb)
  : option (Z * Z * bool) :=
  match zoom_pcm_playback sub urb with
  | Some (sub', _, elapsed) => Some (dma_off sub', period_off sub', elapsed)
  | None => None
  end.

(** ** The position advance, as the design document words it *)

(** The relation between a substream before and after one advance by [len]
    bytes on a ring of [bs] bytes with period size [ps]. *)
Definition advanced (sub sub' : pcm_substream) (elapsed : bool)
  (bs ps len : Z) : Prop :=
  dma_off sub' = (dma_off sub + len) mod bs /\
  0 <= dma_off sub' < bs /\
  0 <= period_off sub' < ps /\
  (elapsed = true <-> ps <= ulong (period_off sub + len)) /\
  period_off sub' = ulong (period_off sub + len) mod ps.

(** [snd_pcm_lib_period_bytes] of [include/sound/pcm.h]:
    [frames_to_bytes(runtime, runtime->period_size)].  [pcm.c] does not
    call it; the design document counts the period in these bytes. *)
Definition snd_pcm_lib_period_bytes (s : snd_pcm_substream) : Z :=
  period_size (runtime s) * frame_bits (runtime s) / 8.

(** The limits of the descriptor that [zoom_pcm_open] installs, as ALSA
    enforces them on the parameters of a runtime (S32_LE samples). *)
Definition within_limits (r : snd_pcm_runtime) : bool :=
  let h := hw r in
  let period_bytes := period_size r * frame_bits r / 8 in
  let buffer_bytes := buffer_size r * frame_bits r / 8 in
  (frame_bits r =? 32 * channels r)
  && (channels_min h <=? channels r) && (channels r <=? channels_max h)
  && (period_bytes_min h <=? period_bytes)
  && (period_bytes <=? period_bytes_max h)
  && (buffer_bytes <=? buffer_bytes_max h)
  && (periods_min h * period_size r <=? buffer_size r)
  && (buffer_size r <=? periods_max h * period_size r).

(** A ring buffer of 1024 bytes (128 frames of two 32-bit channels) in
    four periods of 32 frames, that is of 256 bytes, under the descriptor
    of its direction. *)
Definition paced_runtime (st : Z) (area : buf) : snd_pcm_runtime :=
  {| hw := if st =? SNDRV_PCM_STREAM_PLAYBACK then pcm_hw else pcm_hw_rec;
     channels := 2; frame_bits := 64; buffer_size := 128;
     period_size := 32; dma_area := area |}.

Definition paced (st : Z) (area : buf) : snd_pcm_substream :=
  {| stream := st; runtime := paced_runtime st area |}.

(** An active substream on that ring at the given offsets; [zoom_pcm_prepare]
    leaves both at 0. *)
Definition paced_at (st : Z) (area : buf) (d p : Z) : pcm_substream :=
  {| instance := Some (paced st area); active := true; dma_off := d;
     period_off := p |}.

(** The advance in the words of the design document, every quantity a
    byte count: the new [dma_off], the new [period_off] and whether a
    period is reported. *)
Definition advance_as_claimed (d p buffer_bytes period_bytes len : Z)
  : Z * Z * bool :=
  let d' := (d + len) mod buffer_bytes in
  let p' := p + len in
  if period_bytes <=? p' then (d', p' mod period_bytes, true)
  else (d', p', false).

(** ** Sample environments *)

(** Every anchor is found empty. *)
Definition quiet_stop_env : stop_env :=
  {| wait_out := fun _ => 1; wait_in := fun _ => 1 |}.

(** Both interface settings and every submission succeed; [window] is
    what completes while the starter waits. *)
Definition ok_start (window : list completion) : start_env :=
  {| set_interface_1 := 0; set_interface_2 := 0;
     submit_out := fun _ => 0; submit_in := fun _ => 0;
     completions := window; forced_stop := quiet_stop_env |}.

(** The first out-URB completes normally and is resubmitted. *)
Definition first_out_completion : completion :=
  {| c_dir := DirOut; c_idx := 0%fin; c_status := 0; c_data := None;
     c_resubmit := 0 |}.

(** The runtime an operation leaves. *)
Definition state_after {A} (m : M A) (rt : pcm_runtime) : pcm_runtime :=
  match m rt with
  | Done _ rt' _ => rt'
  | Fault => rt
  end.

(** What an operation returns; [None] is a fault. *)
Definition returned {A} (m : M A) (rt : pcm_runtime) : option A :=
  match m rt with
  | Done a _ _ => Some a
  | Fault => None
  end.

(** The calls an operation makes. *)
Definition calls_of {A} (m : M A) (rt : pcm_runtime) : list call :=
  match m rt with
  | Done _ _ calls => calls
  | Fault => []
  end.

(** A first session on a fresh runtime: the stream is started and runs
    once the first out-URB has come back; then it is stopped. *)
Definition running_runtime : pcm_runtime :=
  state_after (zoom_pcm_stream_start (ok_start [first_out_completion]))
              fresh_runtime.

Definition session_over : pcm_runtime :=
  state_after (zoom_pcm_stream_stop quiet_stop_env) running_runtime.

(** ** Invalid usage, as the design document words it *)

(** The callbacks the claim is about, with the ALSA substream they are
    called on. *)
Definition callback_substream (o : op) : option snd_pcm_substream :=
  match o with
  | OpOpen a | OpPrepare a _ _ | OpTrigger a _ => Some a
  | _ => None
  end.

(** "An operation requested on an unrecognized stream direction returns an
    invalid-argument error, and any operation attempted while the panic
    flag is set returns a pipe-broken error, in both cases leaving the
    runtime unchanged." *)
Definition invalid_usage_as_claimed : Prop :=
  forall (rt : pcm_runtime) (o : op) (a : snd_pcm_substream),
    callback_substream o = Some a ->
    (panic rt = false -> zoom_pcm_get_substream a = None ->
     exists calls, run_op o rt = Done (RInt (- EINVAL)) rt calls) /\
    (panic rt = true ->
     exists calls, run_op o rt = Done (RInt (- EPIPE)) rt calls).

(** What the callbacks answer on an unrecognized direction. *)
Definition invalid_direction_error (o : op) : Z :=
  match o with
  | OpOpen _ => - EINVAL
  | _ => - ENODEV
  end.

(** ** Reasoning about operations *)

(** [wp m rt Q]: run from [rt], the operation [m] does not fault and its
    result, final runtime and trace of calls satisfy [Q]. *)
Definition wp {A} (m : M A) (rt : pcm_runtime)
  (Q : A -> pcm_runtime -> list call -> Prop) : Prop :=
  match m rt with
  | Done a rt' calls => Q a rt' calls
  | Fault => False
  end.

(** [wlp m rt Q]: if the operation [m], run from [rt], does not fault,
    its result, final runtime and trace of calls satisfy [Q]. *)
Definition wlp {A} (m : M A) (rt : pcm_runtime)
  (Q : A -> pcm_runtime -> list call -> Prop) : Prop :=
  match m rt with
  | Done a rt' calls => Q a rt' calls
  | Fault => True
  end.

(** A trace is quiet when it submits no transfer. *)
Definition is_submit (c : call) : bool :=
  match c with usb_submit_urb_call _ _ => true | _ => false end.
Definition quiet (calls : list call) : Prop := existsb is_submit calls = false.

(** A trace is unsignalled when no completion handler woke the starter. *)
Definition unsignalled (calls : list call) : Prop :=
  existsb is_wake_up calls = false.

(** A trace of teardown only waits for anchors and cancels URBs. *)
Definition is_teardown (c : call) : bool :=
  match c with
  | usb_wait_anchor_empty_timeout_call _ _ _
  | usb_kill_anchored_urbs_call _ _
  | usb_kill_urb_call _ _ => true
  | _ => false
  end.
Definition teardown_only (calls : list call) : Prop :=
  forallb is_teardown calls = true.

(** Across a completion handler the stream state is kept, and the start
    condition is kept unless the handler woke the starter. *)
Definition signal_or_same (rt rt' : pcm_runtime) (calls : list call) : Prop :=
  stream_state rt' = stream_state rt /\
  (existsb is_wake_up calls = true \/
   stream_wait_cond rt' = stream_wait_cond rt /\ unsignalled calls).

(** A trace takes no substream lock. *)
Definition is_spin_lock (c : call) : bool :=
  match c with spin_lock_call _ => true | _ => false end.

(** A URB is idle when the USB core does not hold it. *)
Definition idle (d : direction) (i : fin PCM_N_URBS) (rt : pcm_runtime)
  : Prop := in_flight (urb d i rt) = false.

(** Everything but the URBs is the same in both runtimes. *)
Definition same_control (rt rt' : pcm_runtime) : Prop :=
  panic rt' = panic rt /\
  stream_state rt' = stream_state rt /\
  playback rt' = playback rt /\
  capture rt' = capture rt /\
  stream_wait_cond rt' = stream_wait_cond rt.

(** What cancelling the URB [i] of direction [d] achieves. *)
Definition settled (d : direction) (i : fin PCM_N_URBS)
  (rt rt' : pcm_runtime) (calls : list call) : Prop :=
  same_control rt rt' /\ teardown_only calls /\ idle d i rt' /\
  (forall d' j, idle d' j rt -> idle d' j rt').

(** What [zoom_pcm_stream_stop] achieves. *)
Definition stopped (rt rt' : pcm_runtime) (calls : list call) : Prop :=
  stream_state rt' = STREAM_DISABLED /\
  panic rt' = panic rt /\
  playback rt' = playback rt /\
  capture rt' = capture rt /\
  stream_wait_cond rt' = stream_wait_cond rt /\
  teardown_only calls /\
  (forall d j, idle d j rt -> idle d j rt') /\
  (stream_state rt <> STREAM_DISABLED -> forall d j, idle d j rt').

(** The number of transfers the USB core holds. *)
Definition transfers_in_flight (rt : pcm_runtime) : nat :=
  length (List.filter in_flight
            (vec_to_list (out_urbs rt) ++ vec_to_list (in_urbs rt))).

(** ** The panic latch, as the design document words it *)

(** The completion handler of a direction. *)
Definition completion_handler (d : direction) (i : fin PCM_N_URBS)
  (status resubmit : Z) : M unit :=
  match d with
  | DirOut => zoom_pcm_out_urb_handler i status resubmit
  | DirIn => zoom_pcm_in_urb_handler i status resubmit
  end.

(** What is expected of an operation once the latch is set: a completion
    handler returns without resubmitting, a position query returns the
    overrun sentinel without taking the substream lock. *)
Definition latched (x : op * result * list call) : Prop :=
  match x with
  | (OpInHandler _ _ _, _, calls)
  | (OpOutHandler _ _ _, _, calls)
  | (OpGiveback _, _, calls) => quiet calls
  | (OpPointer _, r, calls) =>
      r = RFrames SNDRV_PCM_POS_XRUN /\ existsb is_spin_lock calls = false
  | _ => True
  end.

(** "Once a completion arrives with a transport-fatal status, every
    subsequent completion-handler invocation returns without resubmitting,
    every subsequent position query returns the overrun sentinel without
    taking the substream lock, and the flag stays set until a fresh
    start." *)
Definition panic_latch_as_claimed : Prop :=
  forall (d : direction) (i : fin PCM_N_URBS) (status resubmit : Z)
         (rt : pcm_runtime) (ops : list op),
    fatal_status status = true ->
    exists rt1 calls1,
      completion_handler d i status resubmit rt = Done tt rt1 calls1 /\
      quiet calls1 /\
      exists rs rt2 calls,
        run_ops ops rt1 = Done rs rt2 calls /\
        panic rt2 = true /\ Forall latched rs.

(** ** The payload of a packet in closed form *)

(** The audio payload of a 512-byte packet for [ch] channels: the first
    [ch] words of each of the four 128-byte slots, in order. *)
Definition packet_payload (ch : Z) (packet : buf) : buf :=
  take (Z.to_nat (4 * ch)) packet
  ++ take (Z.to_nat (4 * ch)) (drop 128 packet)
  ++ take (Z.to_nat (4 * ch)) (drop 256 packet)
  ++ take (Z.to_nat (4 * ch)) (drop 384 packet).

(** The pointer [p] seen from a block that has [pre] in front of it. *)
Definition shift (pre : buf) (p : u8ptr) : u8ptr :=
  U8Ptr (pre ++ blk p) (Z.of_nat (length pre) + ofs p).


(** The hardware description [zoom_pcm_open] installs for a direction. *)
Definition hw_of (w : which_sub) : snd_pcm_hardware :=
  match w with Playback => pcm_hw | Capture => pcm_hw_rec end.

(** The substream of the other direction. *)
Definition other (w : which_sub) : which_sub :=
  match w with Playback => Capture | Capture => Playback end.

(** A runtime that streams: RUNNING, not panicked, the playback substream
    inactive, every URB idle with a packet of 512 bytes. *)
Definition streaming_runtime : pcm_runtime :=
  set_stream_state STREAM_RUNNING fresh_runtime.

(** What a completion handler leaves alone: the stream state, the flag
    [active] of both substreams, every substream that is inactive; and it
    clears neither the panic flag nor the start condition. *)
Definition handler_frame (rt rt' : pcm_runtime) : Prop :=
  stream_state rt' = stream_state rt /\
  (forall w, active (substream w rt') = active (substream w rt)) /\
  (forall w, active (substream w rt) = false ->
             substream w rt' = substream w rt) /\
  (panic rt = true -> panic rt' = true) /\
  (stream_wait_cond rt = true -> stream_wait_cond rt' = true).

(** The starter went to sleep on the wait queue. *)
Definition is_wait_event (c : call) : bool :=
  match c with wait_event_timeout_call _ => true | _ => false end.

(** The kernel refuses the in-URB of the third slot with [-ENOMEM]. *)
Definition refusing_start : start_env :=
  {| set_interface_1 := 0; set_interface_2 := 0;
     submit_out := fun _ => 0;
     submit_in := fun i => if decide (i = 2%fin) then - ENOMEM else 0;
     completions := []; forced_stop := quiet_stop_env |}.

(** A capture substream that has streamed up to offset 992 and was
    paused, on the runtime of a running session. *)
Definition paused_capture : pcm_runtime :=
  set_capture (set_active false (sub_at 1 marker_area 992 96))
              running_runtime.





(** ** Locking rules

    The locks a thread of the driver holds: [rt->stream_mutex] and the
    spinlock of one substream. *)
Record locks := Locks { mutex_held : bool; spin_held : option which_sub }.

Definition which_sub_eqb (a b : which_sub) : bool :=
  match a, b with
  | Playback, Playback | Capture, Capture => true
  | _, _ => false
  end.

(** One call under the locking rules: a lock is not taken twice and only
    a lock that is held is released; the mutex is not touched under a
    spinlock; and under a substream spinlock nothing is called at all
    (there the code only copies): every other service is called with no
    spinlock held.  [None] is a breach. *)
Definition lock_step (s : locks) (c : call) : option locks :=
  match spin_held s with
  | Some w =>
      match c with
      | spin_unlock_call w' =>
          if which_sub_eqb w w' then Some (Locks (mutex_held s) None)
          else None
      | _ => None
      end
  | None =>
      match c with
      | spin_lock_call w => Some (Locks (mutex_held s) (Some w))
      | spin_unlock_call _ => None
      | mutex_lock_call =>
          if mutex_held s then None else Some (Locks true None)
      | mutex_unlock_call =>
          if mutex_held s then Some (Locks false None) else None
      | _ => Some s
      end
  end.

Fixpoint lock_run (s : locks) (calls : list call) : option locks :=
  match calls with
  | [] => Some s
  | c :: calls' =>
      match lock_step s c with
      | Some s' => lock_run s' calls'
      | None => None
      end
  end.

(** A trace that keeps the rules and leaves the locks as it found them,
    whether or not the mutex is held around it. *)
Definition neutral (calls : list call) : Prop :=
  forall m, lock_run (Locks m None) calls = Some (Locks m None).

(** ** Creation and destruction of the runtime

    The memory [zoom_pcm_init] allocates: the [struct pcm_runtime] and one
    packet buffer for each URB.  A heap is the list of the blocks that are
    allocated and not freed. *)
Inductive block :=
| BlockRt
| BlockBuf (d : direction) (i : fin PCM_N_URBS).

Definition direction_eqb (a b : direction) : bool :=
  match a, b with
  | DirOut, DirOut | DirIn, DirIn => true
  | _, _ => false
  end.

Definition block_eqb (a b : block) : bool :=
  match a, b with
  | BlockRt, BlockRt => true
  | BlockBuf d i, BlockBuf d' i' =>
      direction_eqb d d' && bool_decide (i = i')
  | _, _ => false
  end.

(** What the kernel answers during [zoom_pcm_init]: whether [kzalloc]
    finds memory for a block, the two [usb_set_interface] calls, the
    endpoint check of each URB and [snd_pcm_new]. *)
Record init_env := {
  kzalloc_ok : block -> bool;
  init_interface_1 : Z;
  init_interface_2 : Z;
  usb_urb_ep_type_check : direction -> fin PCM_N_URBS -> Z;
  snd_pcm_new : Z
}.

(** [kfree(p)]: nothing happens on the NULL pointer of a block that was
    never allocated. *)
Definition kfree (b : block) (heap : list block) : list block :=
  List.filter (fun b' => negb (block_eqb b b')) heap.

(** The [kzalloc]'ed runtime before its URBs are set up: every field
    zero, the buffer pointers NULL (no bytes behind them). *)
Definition null_urb : pcm_urb := {| buffer := []; in_flight := false |}.
Definition zeroed_runtime : pcm_runtime :=
  {| playback := idle_substream; capture := idle_substream; panic := false;
     out_urbs := vreplicate PCM_N_URBS null_urb;
     in_urbs := vreplicate PCM_N_URBS null_urb;
     stream_state := STREAM_DISABLED; stream_wait_cond := false |}.

(** [zoom_pcm_init_urb_out] and [zoom_pcm_init_urb_in], which differ in
    the pipe only: the runtime, the heap and the code returned. *)
Definition zoom_pcm_init_urb (d : direction) (env : init_env)
  (i : fin PCM_N_URBS) (rt : pcm_runtime) (heap : list block)
  : pcm_runtime * list block * Z :=
  if negb (kzalloc_ok env (BlockBuf d i)) then (rt, heap, - ENOMEM)
  else
    let rt :=
      set_urb d i (set_buffer (replicate (Z.to_nat PCM_URB_SIZE) x00)
                              (urb d i rt)) rt in
    let heap := BlockBuf d i :: heap in
    if negb (usb_urb_ep_type_check env d i =? 0) then (rt, heap, - EINVAL)
    else (rt, heap, 0).

Definition zoom_pcm_init_urb_out := zoom_pcm_init_urb DirOut.
Definition zoom_pcm_init_urb_in := zoom_pcm_init_urb DirIn.

(** One of the two loops of [zoom_pcm_init]; a negative code leaves the
    loop ([goto error]). *)
Fixpoint init_urbs (d : direction) (env : init_env)
  (l : list (fin PCM_N_URBS)) (rt : pcm_runtime) (heap : list block)
  : pcm_runtime * list block * Z :=
  match l with
  | [] => (rt, heap, 0)
  | i :: l' =>
      let '(rt, heap, ret) := zoom_pcm_init_urb d env i rt heap in
      if ret <? 0 then (rt, heap, ret)
      else init_urbs d env l' rt heap
  end.

(** The label [error] of [zoom_pcm_init], and the body of
    [zoom_pcm_destroy]: every buffer and the runtime are freed. *)
Definition free_runtime (heap : list block) : list block :=
  let heap := foldr (fun i => kfree (BlockBuf DirOut i)) heap urb_indices in
  let heap := foldr (fun i => kfree (BlockBuf DirIn i)) heap urb_indices in
  kfree BlockRt heap.

(** The chip as [zoom_pcm_init] leaves it: the code returned, [chip->pcm]
    and the heap. *)
Record chip_state := {
  chip_pcm : option pcm_runtime;
  heap : list block
}.

(** [zoom_pcm_init(chip)] from an empty heap; [None] is a fault. *)
Definition zoom_pcm_init (env : init_env) : option (Z * chip_state) :=
  if negb (kzalloc_ok env BlockRt) then
    Some (- ENOMEM, {| chip_pcm := None; heap := [] |})
  else
    let heap := [BlockRt] in
    (* rt->stream_state = STREAM_DISABLED *)
    let rt := set_stream_state STREAM_DISABLED zeroed_runtime in
    match zoom_interface_init (init_interface_1 env) (init_interface_2 env)
                              quiet_stop_env rt with
    | Fault => None
    | Done ret rt _ =>
        if negb (ret =? 0) then
          Some (ret, {| chip_pcm := None; heap := heap |})
        else
          let '(rt, heap, ret) := init_urbs DirOut env urb_indices rt heap in
          if ret <? 0 then
            Some (ret, {| chip_pcm := None; heap := free_runtime heap |})
          else
            let '(rt, heap, ret) := init_urbs DirIn env urb_indices rt heap in
            if ret <? 0 then
              Some (ret, {| chip_pcm := None; heap := free_runtime heap |})
            else
              let ret := snd_pcm_new env in
              if ret <? 0 then
                Some (ret, {| chip_pcm := None; heap := free_runtime heap |})
              else
                Some (0, {| chip_pcm := Some rt; heap := heap |})
    end.

(** [zoom_pcm_destroy(chip)]; [chip->pcm] is dereferenced at once. *)
Definition zoom_pcm_destroy (c : chip_state) : option chip_state :=
  match chip_pcm c with
  | None => None
  | Some _ => Some {| chip_pcm := None; heap := free_runtime (heap c) |}
  end.

(** Every call of the kernel succeeds. *)
Definition init_succeeds (env : init_env) : Prop :=
  (forall b, kzalloc_ok env b = true) /\
  init_interface_1 env = 0 /\ init_interface_2 env = 0 /\
  (forall d i, usb_urb_ep_type_check env d i = 0) /\
  0 <= snd_pcm_new env.

(** The nine blocks of a runtime. *)
Definition runtime_blocks : list block :=
  [BlockBuf DirIn 3%fin; BlockBuf DirIn 2%fin; BlockBuf DirIn 1%fin;
   BlockBuf DirIn 0%fin;
   BlockBuf DirOut 3%fin; BlockBuf DirOut 2%fin; BlockBuf DirOut 1%fin;
   BlockBuf DirOut 0%fin; BlockRt].

(** A kernel that grants everything. *)
Definition granting_env : init_env :=
  {| kzalloc_ok := fun _ => true; init_interface_1 := 0;
     init_interface_2 := 0; usb_urb_ep_type_check := fun _ _ => 0;
     snd_pcm_new := 0 |}.

(** The block [b'] differs from [b] inside the byte range [[lo, hi)]
    only. *)
Definition outside (lo hi : Z) (b b' : buf) : Prop :=
  length b' = length b /\
  take (Z.to_nat lo) b' = take (Z.to_nat lo) b /\
  drop (Z.to_nat hi) b' = drop (Z.to_nat hi) b.

(** The slots of a packet that start at word [i] or later. *)
Definition slots_left (i : Z) : Z :=
  if i <=? 0 then 4 else if i <=? 32 then 3 else if i <=? 64 then 2
  else if i <=? 96 then 1 else 0.

(** A zeroed packet with 16 marker bytes behind it. *)
Definition guarded_packet : buf := replicate 512 x00 ++ replicate 16 xaa.

(** ** Probe of [driver.c]

    What the kernel and the module parameters answer during a probe: the
    array [enable] (its length is [SNDRV_CARDS]), [snd_card_new], the
    answers for [zoom_pcm_init], and [snd_card_register]. *)
Record probe_env := {
  enable : list bool;
  snd_card_new : Z;
  pcm_env : init_env;
  snd_card_register : Z
}.

(** The services [zoom_chip_probe] calls. *)
Inductive probe_call :=
| register_mutex_lock_call
| register_mutex_unlock_call
| snd_card_new_call (idx : nat)
| snd_card_register_call
| snd_card_free_call
| usb_set_intfdata_call.

(** [for (i = 0; i < SNDRV_CARDS; i++) if (enable[i]) break;]: the value
    of [i] after the loop, counted from [i]. *)
Fixpoint first_enabled (enable : list bool) (i : nat) : nat :=
  match enable with
  | [] => i
  | e :: enable' => if e then i else first_enabled enable' (S i)
  end.

(** [zoom_chip_create]: the code returned and the chip, which lives in the
    private data of the card.  The names written into the card play no
    part in what follows and are left out. *)
Definition zoom_chip_create (env : probe_env) (idx : nat)
  : Z * option chip_state :=
  let ret := snd_card_new env in
  if ret <? 0 then (ret, None)
  else (0, Some {| chip_pcm := None; heap := [] |}).

(** [zoom_pcm_free], the [private_free] of the PCM device: [if (rt)
    zoom_pcm_destroy(rt->chip)].  [pcm->private_data] is set where
    [chip->pcm] is, at the end of a successful [zoom_pcm_init]. *)
Definition zoom_pcm_free (c : chip_state) : option chip_state :=
  match chip_pcm c with
  | Some _ => zoom_pcm_destroy c
  | None => Some c
  end.

(** What a probe leaves: the code returned, the interface data, the blocks
    still allocated and the calls made. *)
Record probe_result := {
  probe_ret : Z;
  intfdata : option chip_state;
  probe_heap : list block;
  probe_calls : list probe_call
}.

(** [zoom_chip_probe]; [snd_card_free] releases the card and with it the
    PCM device, whose [private_free] is [zoom_pcm_free].  [None] is a
    fault. *)
Definition zoom_chip_probe (env : probe_env) : option probe_result :=
  (* check whether the card is already registered *)
  let i := first_enabled (enable env) 0 in
  if (length (enable env) <=? i)%nat then
    Some {| probe_ret := - ENODEV; intfdata := None; probe_heap := [];
            probe_calls := [register_mutex_lock_call;
                            register_mutex_unlock_call] |}
  else
    let '(ret, rchip) := zoom_chip_create env i in
    if ret <? 0 then
      Some {| probe_ret := ret; intfdata := None; probe_heap := [];
              probe_calls := [register_mutex_lock_call; snd_card_new_call i;
                              register_mutex_unlock_call] |}
    else
      match rchip with
      | None => None
      | Some _ =>
          match zoom_pcm_init (pcm_env env) with
          | None => None
          | Some (ret, chip) =>
              if ret <? 0 then
                (* err_chip_destroy *)
                match zoom_pcm_free chip with
                | None => None
                | Some chip =>
                    Some {| probe_ret := ret; intfdata := None;
                            probe_heap := heap chip;
                            probe_calls :=
                              [register_mutex_lock_call; snd_card_new_call i;
                               snd_card_free_call;
                               register_mutex_unlock_call] |}
                end
              else
                let ret := snd_card_register env in
                if ret <? 0 then
                  (* err_chip_destroy *)
                  match zoom_pcm_free chip with
                  | None => None
                  | Some chip =>
                      Some {| probe_ret := ret; intfdata := None;
                              probe_heap := heap chip;
                              probe_calls :=
                                [register_mutex_lock_call;
                                 snd_card_new_call i;
                                 snd_card_register_call; snd_card_free_call;
                                 register_mutex_unlock_call] |}
                  end
                else
                  Some {| probe_ret := 0; intfdata := Some chip;
                          probe_heap := heap chip;
                          probe_calls :=
                            [register_mutex_lock_call; snd_card_new_call i;
                             snd_card_register_call;
                             register_mutex_unlock_call;
                             usb_set_intfdata_call] |}
          end
      end.

(** Everything a probe needs succeeds. *)
Definition probe_succeeds (env : probe_env) : Prop :=
  (exists i, enable env !! i = Some true) /\
  0 <= snd_card_new env /\
  init_succeeds (pcm_env env) /\
  0 <= snd_card_register env.

(** ** The packets of a playback session *)

(** With the playback substream bound to [a], every out-URB holds a whole
    packet, and the packet of every out-URB in [S] has zero in the word
    that [memcpy_pcm_playback] steps over with the channel count of
    [a]. *)
Definition packets_clear (a : snd_pcm_substream)
  (S : fin PCM_N_URBS -> Prop) (rt : pcm_runtime) : Prop :=
  instance (playback rt) = Some a /\
  forall j, length (buffer (urb DirOut j rt)) = 512%nat /\
            (S j -> padding_clear (channels (runtime a))
                                  (buffer (urb DirOut j rt))).

(** A runtime on which playback is opened with two channels while every
    out-URB still holds a packet of old data. *)
Definition stale_session : pcm_runtime :=
  set_playback
    {| instance := Some (paced SNDRV_PCM_STREAM_PLAYBACK marker_area);
       active := false; dma_off := 0; period_off := 0 |}
    (set_urbs DirOut (vreplicate PCM_N_URBS stale_urb) fresh_runtime).

(* ===================================================================== *)
(** * Properties *)
(* ===================================================================== *)

(** ** Adequacy of the loop fuel *)

Lemma uint_small x : 0 <= x < 4294967296 -> uint x = x.
Proof. intros H. unfold uint. apply Z.mod_small. exact H. Qed.

Lemma playback_frame_index n : forall dest src i o,
  0 <= i -> i + Z.of_nat n < 4294967296 ->
  (playback_frame n dest src i o).1.2 = i + Z.of_nat n.
Proof.
  induction n as [|n IH]; intros dest src i o Hi Hn; cbn [playback_frame].
  - cbn. lia.
  - rewrite (uint_small (i + 1)) by lia.
    rewrite IH by lia. lia.
Qed.

Lemma capture_frame_index n : forall dest src skip l i o,
  0 <= i -> i + Z.of_nat n < 4294967296 ->
  i <= (capture_frame n dest src skip l i o).1.1.2 <= i + Z.of_nat n.
Proof.
  induction n as [|n IH]; intros dest src skip l i o Hi Hn;
    cbn [capture_frame].
  - cbn. lia.
  - destruct (negb (skip =? 0) && (i <? skip / 4)).
    + rewrite (uint_small (i + 1)) by lia.
      specialize (IH dest src skip l (i + 1) o). lia.
    + destruct (negb (l =? 0) && (l / 4 <=? o)); [cbn; lia|].
      rewrite (uint_small (i + 1)) by lia.
      specialize (IH (store_u32 dest o (load_u32 src i)) src skip l
                     (i + 1) (uint (o + 1))). lia.
Qed.

(** Once the fuel covers the words that are left in the packet, more fuel
    changes nothing: the loops of the transcoder run to their end. *)
Lemma playback_loop_fuel fuel1 : forall fuel2 dest src ch i o,
  0 <= i -> 0 <= ch < 256 ->
  PCM_URB_SIZE / 4 - i <= Z.of_nat fuel1 ->
  PCM_URB_SIZE / 4 - i <= Z.of_nat fuel2 ->
  playback_loop fuel1 dest src ch i o = playback_loop fuel2 dest src ch i o.
Proof.
  change (PCM_URB_SIZE / 4) with 128.
  induction fuel1 as [|fuel1 IH]; intros [|fuel2] dest src ch i o Hi Hch H1 H2;
    cbn [playback_loop]; change (PCM_URB_SIZE / 4) with 128;
    try reflexivity.
  - destruct (Z.ltb_spec i 128); [lia|reflexivity].
  - destruct (Z.ltb_spec i 128); [lia|reflexivity].
  - destruct (Z.ltb_spec i 128); [|reflexivity].
    destruct (negb (i mod 32 =? 0)).
    + rewrite (uint_small (i + 1)) by lia. apply IH; lia.
    + pose proof (playback_frame_index (Z.to_nat ch) dest src i o) as Hidx.
      destruct (playback_frame (Z.to_nat ch) dest src i o) as [[d' i'] o'].
      cbn in Hidx. rewrite Hidx by lia.
      rewrite (uint_small (i + Z.of_nat (Z.to_nat ch) + 1)) by lia.
      apply IH; lia.
Qed.

Lemma capture_loop_fuel fuel1 : forall fuel2 dest src ch skip l i o,
  0 <= i -> 0 <= ch < 256 ->
  PCM_URB_SIZE / 4 - i <= Z.of_nat fuel1 ->
  PCM_URB_SIZE / 4 - i <= Z.of_nat fuel2 ->
  capture_loop fuel1 dest src ch skip l i o
  = capture_loop fuel2 dest src ch skip l i o.
Proof.
  change (PCM_URB_SIZE / 4) with 128.
  induction fuel1 as [|fuel1 IH];
    intros [|fuel2] dest src ch skip l i o Hi Hch H1 H2;
    cbn [capture_loop]; change (PCM_URB_SIZE / 4) with 128;
    try reflexivity.
  - destruct (Z.ltb_spec i 128); [lia|reflexivity].
  - destruct (Z.ltb_spec i 128); [lia|reflexivity].
  - destruct (Z.ltb_spec i 128); [|reflexivity].
    destruct (negb (i mod 32 =? 0)).
    + rewrite (uint_small (i + 1)) by lia. apply IH; lia.
    + pose proof (capture_frame_index (Z.to_nat ch) dest src skip l i o)
        as Hidx.
      destruct (capture_frame (Z.to_nat ch) dest src skip l i o)
        as [[[d' i'] o'] returned].
      cbn in Hidx. destruct returned; [reflexivity|].
      rewrite (uint_small (i' + 1)) by lia.
      apply IH; lia.
Qed.

(** The transcoder functions are total: the fuel they are given is enough,
    more would change nothing. *)
Lemma memcpy_pcm_playback_fuel (fuel : nat) (dest src : u8ptr) (ch : Z) :
  0 <= ch < 256 ->
  (Z.to_nat (PCM_URB_SIZE / 4) <= fuel)%nat ->
  blk (playback_loop fuel dest src ch 0 0) = memcpy_pcm_playback dest src ch.
Proof.
  intros Hch Hfuel. unfold memcpy_pcm_playback. f_equal.
  apply playback_loop_fuel; cbn in *; lia.
Qed.

Lemma memcpy_pcm_capture_fuel (fuel : nat) (dest src : u8ptr) (ch skip l : Z) :
  0 <= ch < 256 ->
  (Z.to_nat (PCM_URB_SIZE / 4) <= fuel)%nat ->
  blk (capture_loop fuel dest src ch skip l 0 0)
  = memcpy_pcm_capture dest src ch skip l.
Proof.
  intros Hch Hfuel. unfold memcpy_pcm_capture. f_equal.
  apply capture_loop_fuel; cbn in *; lia.
Qed.

(** ** The transcoder *)

(** A list is the table of its elements; with it a buffer of known length
    is evaluated with its bytes left symbolic. *)
Lemma tabulate {A} (d : A) (l : list A) :
  l = map (fun i => nth i l d) (seq 0 (length l)).
Proof.
  induction l as [|a l IH]; [reflexivity|].
  cbn [length seq map nth]. f_equal.
  rewrite <- seq_shift, map_map. exact IH.
Qed.

Ltac tabulate_buf l H :=
  rewrite (tabulate x00 l); rewrite H.

(** Case analysis on an integer that the hypotheses confine to a range
    starting at [lo]. *)
Ltac each_Z k lo :=
  first [ exfalso; lia
        | destruct (Z.eq_dec k lo) as [->|?];
          [ | let lo' := eval compute in (lo + 1) in each_Z k lo' ] ].


(** A zeroed packet has nothing in the words that are stepped over. *)
Lemma memset_zero_clears_padding (ch : Z) (packet : buf) :
  2 <= ch <= 4 ->
  length packet = 512%nat ->
  padding_clear ch (memset_zero packet PCM_URB_SIZE).
Proof.
  intros Hch Hp. unfold memset_zero, PCM_URB_SIZE, buf in *.
  rewrite Hp, drop_ge by (rewrite Hp; vm_compute; lia).
  each_Z ch 2; vm_compute; repeat split; reflexivity.
Qed.






(** The condition on the packet is needed by the function taken alone:
    after the inner copy loop has moved [i] to [ch], the outer loop
    increments [i] once more before the padding test, so the word at
    index [ch] of a slot is never written.  On a packet filled with 0xff,
    which the driver never holds, words 2, 34, 66 and 98 keep 0xffffffff
    with two channels. *)
Lemma memcpy_pcm_playback_steps_over_a_word :
  let out :=
    U8Ptr (memcpy_pcm_playback (U8Ptr stale_packet 0) (U8Ptr sample_frames 0)
                               2) 0 in
  load_u32 out 0 = W32 x01 x02 x03 x04 /\
  load_u32 out 1 = W32 x05 x06 x07 x08 /\
  load_u32 out 2 = W32 xff xff xff xff /\
  load_u32 out 3 = u32_zero /\
  load_u32 out 31 = u32_zero /\
  load_u32 out (32 + 2) = W32 xff xff xff xff /\
  load_u32 out (64 + 2) = W32 xff xff xff xff /\
  load_u32 out (96 + 2) = W32 xff xff xff xff.
Proof.
  vm_compute. repeat split; reflexivity.
Qed.

(** C5.  Encoding four frames of two-channel audio into a packet with
    [memcpy_pcm_playback] and decoding the packet with [memcpy_pcm_capture]
    (two channels, no skip, no limit) writes exactly the 32 bytes of the
    frames, in order, and nothing else: whatever the packet buffer and the
    destination held before, the destination starts with the original
    frames and is unchanged behind them. *)
Theorem transcode_round_trip (frames packet dest : buf) :
  length frames = 32%nat ->
  length packet = 512%nat ->
  (32 <= length dest)%nat ->
  let encoded := memcpy_pcm_playback (U8Ptr packet 0) (U8Ptr frames 0) 2 in
  memcpy_pcm_capture (U8Ptr dest 0) (U8Ptr encoded 0) 2 0 0
  = frames ++ drop 32 dest.
Proof.
  intros Hf Hp Hd encoded. subst encoded.
  tabulate_buf frames Hf. tabulate_buf packet Hp.
  rewrite <- (take_drop 32 dest) at 1.
  rewrite (tabulate x00 (take 32 dest)), length_take_le by lia.
  generalize (drop 32 dest) as rest. generalize (take 32 dest) as head.
  intros head rest.
  vm_compute. reflexivity.
Qed.

(** The round trip on [sample_frames], through a packet buffer that holds
    old data, into a destination of 40 marker bytes. *)
Lemma transcode_round_trip_witness :
  memcpy_pcm_capture (U8Ptr (replicate 40 xaa) 0)
    (U8Ptr (memcpy_pcm_playback (U8Ptr stale_packet 0) (U8Ptr sample_frames 0)
                                2) 0) 2 0 0
  = sample_frames ++ drop 32 (replicate 40 xaa).
Proof.
  apply (transcode_round_trip sample_frames stale_packet (replicate 40 xaa));
    [reflexivity | reflexivity | vm_compute; lia].
Defined.

(** ** Position advance *)

Lemma ulong_range x : 0 <= ulong x < 18446744073709551616.
Proof. unfold ulong. apply Z.mod_pos_bound. lia. Qed.

Lemma ulong_small x : 0 <= x < 18446744073709551616 -> ulong x = x.
Proof. intros H. unfold ulong. apply Z.mod_small. exact H. Qed.

Lemma uint_range x : 0 <= uint x < 4294967296.
Proof. unfold uint. apply Z.mod_pos_bound. lia. Qed.

(** The advance of the two offsets at the end of [zoom_pcm_capture] and
    [zoom_pcm_playback]. *)
Lemma advance_spec (sub : pcm_substream) (bs len ps : Z) :
  bs < 4294967296 ->
  0 <= dma_off sub < bs ->
  0 <= period_off sub < ps ->
  0 <= len <= bs ->
  exists sub' elapsed,
    advance sub bs len ps = Some (sub', elapsed) /\
    advanced sub sub' elapsed bs ps len /\
    instance sub' = instance sub /\ active sub' = active sub.
Proof.
  intros Hbs Hd Hp Hlen. unfold advance, advanced.
  rewrite (ulong_small (dma_off sub + len)) by lia.
  cbn [period_off dma_off set_dma_off set_period_off instance active].
  pose proof (ulong_range (period_off sub + len)) as Hu.
  set (p := ulong (period_off sub + len)) in *.
  assert (Hdma :
    (if bs <=? dma_off sub + len
     then ulong (dma_off sub + len - bs) else dma_off sub + len)
    = (dma_off sub + len) mod bs
    /\ 0 <= (dma_off sub + len) mod bs < bs).
  { split; [|apply Z.mod_pos_bound; lia].
    destruct (Z.leb_spec bs (dma_off sub + len)).
    - rewrite ulong_small by lia.
      apply (Z.mod_unique _ _ 1); lia.
    - symmetry. apply Z.mod_small. lia. }
  destruct Hdma as [-> Hrange].
  destruct (Z.leb_spec ps p) as [Hge|Hlt].
  - destruct (Z.eqb_spec ps 0) as [->|Hnz]; [lia|].
    eexists _, true. split; [reflexivity|]. cbn.
    pose proof (Z.mod_pos_bound p ps ltac:(lia)).
    repeat split; try lia; auto.
  - eexists _, false. split; [reflexivity|]. cbn.
    rewrite (Z.mod_small p ps) by lia.
    repeat split; try lia; auto; discriminate.
Qed.

Lemma pcm_len_exact (ch bs : Z) :
  0 <= ch -> 4 * ch * 4 <= uint bs -> uint (uint (4 * ch) * 4) = 4 * ch * 4.
Proof.
  intros Hch Hle. pose proof (uint_range bs).
  rewrite (uint_small (4 * ch)) by lia. apply uint_small. lia.
Qed.

(** The constraints the driver advertises bound the payload of a packet:
    with the channel count, the period bytes and the number of periods
    inside either descriptor, [len] is at most the buffer size and at most
    twice the period bytes. *)
Lemma advertised_constraints_bound_len (h : snd_pcm_hardware)
  (ch period_bytes periods : Z) :
  h = pcm_hw \/ h = pcm_hw_rec ->
  channels_min h <= ch <= channels_max h ->
  period_bytes_min h <= period_bytes ->
  periods_min h <= periods ->
  4 * ch * 4 <= periods * period_bytes /\ 4 * ch * 4 <= 2 * period_bytes.
Proof.
  intros [-> | ->];
    cbn [channels_min channels_max period_bytes_min periods_min
         pcm_hw pcm_hw_rec];
    unfold PCM_PACKET_SIZE; intros Hch Hpb Hn; split; nia.
Qed.

(** What the code does in general: the advanced [period_off], a byte
    count, is compared with and reduced by [ps], the field [period_size]
    of the ALSA runtime, which counts frames. *)
Lemma position_advance_in_code_units
  (sub : pcm_substream) (urb : pcm_urb) (a : snd_pcm_substream) :
  instance sub = Some a ->
  let bs := uint (snd_pcm_lib_buffer_bytes a) in
  let ps := period_size (runtime a) in
  let len := 4 * channels (runtime a) * 4 in
  0 <= channels (runtime a) ->
  0 <= dma_off sub < bs ->
  0 <= period_off sub < ps ->
  len <= bs ->
  (exists sub' elapsed,
     zoom_pcm_capture sub urb = Some (sub', elapsed) /\
     advanced sub sub' elapsed bs ps len) /\
  (exists sub' urb' elapsed,
     zoom_pcm_playback sub urb = Some (sub', urb', elapsed) /\
     advanced sub sub' elapsed bs ps len).
Proof.
  intros Hinst bs ps len Hch Hd Hp Hlen.
  pose proof (uint_range (snd_pcm_lib_buffer_bytes a)) as Hbs.
  pose proof (pcm_len_exact (channels (runtime a))
                (snd_pcm_lib_buffer_bytes a) Hch Hlen) as Hpl.
  split.
  - unfold zoom_pcm_capture. rewrite Hinst. cbv zeta. rewrite Hpl.
    match goal with
    | |- context [advance ?s _ _ _] =>
        destruct (advance_spec s bs len ps) as (sub' & e & Hadv & Hrel & _);
          [subst bs; lia | exact Hd | exact Hp | subst len; lia |]
    end.
    exists sub', e. split; [exact Hadv | exact Hrel].
  - unfold zoom_pcm_playback. rewrite Hinst. cbv zeta. rewrite Hpl.
    destruct (advance_spec sub bs len ps) as (sub' & e & Hadv & Hrel & _);
      [subst bs; lia | exact Hd | exact Hp | subst len; lia |].
    fold bs ps len. rewrite Hadv. eauto.
Qed.

(** C8 (code departs from the claim).  Two channels, a ring of 1024 bytes
    in four periods of 256 bytes (32 frames), inside the limits of both
    descriptors; a packet advances the position by 32 bytes.  Right after
    [zoom_pcm_prepare] (both offsets 0) the first packet is reported as a
    period and leaves [period_off] 0, in both directions, and so is the
    second packet.  From [period_off] 100 the advance is reported as a
    period and leaves 4.  The claim has no period reported in any of these
    and leaves [period_off] 32, 64 and 132.  From 240 the code and the
    claim agree on a period and on 16, and [dma_off] is as claimed
    throughout. *)
Theorem period_elapsed_compares_bytes_with_frames :
  let play := paced_at SNDRV_PCM_STREAM_PLAYBACK marker_area in
  let rec := paced_at SNDRV_PCM_STREAM_CAPTURE marker_area in
  let claimed := fun d p => advance_as_claimed d p 1024 256 32 in
  (within_limits (paced_runtime SNDRV_PCM_STREAM_PLAYBACK marker_area) = true /\
   within_limits (paced_runtime SNDRV_PCM_STREAM_CAPTURE marker_area) = true /\
   snd_pcm_lib_buffer_bytes (paced SNDRV_PCM_STREAM_PLAYBACK marker_area)
   = 1024 /\
   snd_pcm_lib_period_bytes (paced SNDRV_PCM_STREAM_PLAYBACK marker_area)
   = 256 /\
   snd_pcm_lib_buffer_bytes (paced SNDRV_PCM_STREAM_CAPTURE marker_area)
   = 1024 /\
   snd_pcm_lib_period_bytes (paced SNDRV_PCM_STREAM_CAPTURE marker_area)
   = 256) /\
  (playback_offsets (play 0 0) fresh_urb = Some (32, 0, true) /\
   capture_offsets (rec 0 0) full_urb = Some (32, 0, true) /\
   claimed 0 0 = (32, 32, false)) /\
  (playback_offsets (play 32 0) fresh_urb = Some (64, 0, true) /\
   capture_offsets (rec 32 0) full_urb = Some (64, 0, true) /\
   claimed 32 32 = (64, 64, false)) /\
  (playback_offsets (play 0 100) fresh_urb = Some (32, 4, true) /\
   capture_offsets (rec 0 100) full_urb = Some (32, 4, true) /\
   claimed 0 100 = (32, 132, false)) /\
  (playback_offsets (play 0 240) fresh_urb = Some (32, 16, true) /\
   capture_offsets (rec 0 240) full_urb = Some (32, 16, true) /\
   claimed 0 240 = (32, 16, true)) /\
  (playback_offsets (play 0 0) fresh_urb <> Some (claimed 0 0) /\
   capture_offsets (rec 0 0) full_urb <> Some (claimed 0 0)).
Proof.
  vm_compute. repeat split; first [reflexivity | discriminate].
Qed.

(** In its wrap branch [zoom_pcm_playback] copies nothing: whatever the
    ring buffer holds, the URB goes out with the packet it held before. *)
Lemma zoom_pcm_playback_wrap_keeps_packet
  (sub sub' : pcm_substream) (urb urb' : pcm_urb) (a : snd_pcm_substream)
  (elapsed : bool) :
  instance sub = Some a ->
  uint (snd_pcm_lib_buffer_bytes a)
  < ulong (dma_off sub + uint (uint (4 * channels (runtime a)) * 4)) ->
  zoom_pcm_playback sub urb = Some (sub', urb', elapsed) ->
  urb' = urb.
Proof.
  intros Hinst Hwrap. unfold zoom_pcm_playback. rewrite Hinst. cbv zeta.
  destruct (Z.leb_spec
              (ulong (dma_off sub + uint (uint (4 * channels (runtime a)) * 4)))
              (uint (snd_pcm_lib_buffer_bytes a))) as [Hle|_]; [lia|].
  destruct (advance _ _ _ _) as [[s e]|]; [|discriminate].
  intros [= _ <- _]. reflexivity.
Qed.

(** C1 (code departs from the claim).  Buffer size 1024, [dma_off] 1008,
    two channels, hence [len] 32.  Capture: 16 bytes (frames 0 and 1) go to
    offset 1008, but the second call of the transcoder writes 24 bytes at
    offset 0 (frames 1, 2 and 3), not the 16 bytes of frames 2 and 3.
    Playback: nothing is copied, the URB keeps the packet it held. In both
    directions [dma_off] becomes 16. *)
Theorem wrap_around_copy_departs_from_split :
  (exists sub',
     zoom_pcm_capture (sub_at 1 marker_area 1008 0) full_urb
     = Some (sub', false) /\
     dma_off sub' = 16 /\
     area_of sub'
     = drop 8 sample_frames ++ replicate 984 xaa ++ take 16 sample_frames /\
     area_of sub' <> ring_write marker_area sample_frames 1008) /\
  ring_write marker_area sample_frames 1008
  = drop 16 sample_frames ++ replicate 992 xaa ++ take 16 sample_frames /\
  (exists sub',
     zoom_pcm_playback (sub_at 0 wrapped_area 1008 0) stale_urb
     = Some (sub', stale_urb, false) /\
     dma_off sub' = 16) /\
  ring_read wrapped_area 1008 32 = sample_frames /\
  buffer stale_urb
  <> memcpy_pcm_playback (U8Ptr (buffer stale_urb) 0)
                         (U8Ptr (ring_read wrapped_area 1008 32) 0) 2.
Proof.
  split; [|split; [|split; [|split]]].
  - eexists. split; [vm_compute; reflexivity|].
    split; [reflexivity|]. split; vm_compute; [reflexivity|discriminate].
  - vm_compute. reflexivity.
  - eexists. split; [vm_compute; reflexivity|]. reflexivity.
  - vm_compute. reflexivity.
  - vm_compute. discriminate.
Qed.

(** Where the payload fits before the end of the ring the code and the
    design document agree: here at offset 992 of the same ring. *)
Lemma contiguous_copy_agrees :
  (exists sub',
     zoom_pcm_capture (sub_at 1 marker_area 992 0) full_urb
     = Some (sub', false) /\
     dma_off sub' = 0 /\
     area_of sub' = ring_write marker_area sample_frames 992) /\
  (exists sub' urb',
     zoom_pcm_playback (sub_at 0 wrapped_area 992 0) stale_urb
     = Some (sub', urb', false) /\
     dma_off sub' = 0 /\
     buffer urb'
     = memcpy_pcm_playback (U8Ptr stale_packet 0)
                           (U8Ptr (ring_read wrapped_area 992 32) 0) 2).
Proof.
  split.
  - eexists. split; [vm_compute; reflexivity|].
    split; [reflexivity|]. vm_compute. reflexivity.
  - eexists _, _. split; [vm_compute; reflexivity|].
    split; [reflexivity|]. vm_compute. reflexivity.
Qed.

(** ** The monad of operations *)

Lemma wp_done {A} (m : M A) rt Q :
  wp m rt Q <-> exists a rt' calls, m rt = Done a rt' calls /\ Q a rt' calls.
Proof.
  unfold wp. split.
  - destruct (m rt) as [|a rt' calls]; [intros []|]. eauto.
  - intros (a & rt' & calls & -> & HQ). exact HQ.
Qed.

Lemma wp_bind {A B} (m : M A) (k : A -> M B) rt Q :
  wp m rt (fun a rt1 c1 => wp (k a) rt1 (fun b rt2 c2 => Q b rt2 (c1 ++ c2)))
  -> wp (m ≫= k) rt Q.
Proof.
  unfold wp, mbind, M_bind.
  destruct (m rt) as [|a rt1 c1]; [intros []|].
  destruct (k a rt1) as [|b rt2 c2]; [intros []|]. auto.
Qed.

Lemma wp_mono {A} (m : M A) rt (Q Q' : A -> pcm_runtime -> list call -> Prop) :
  (forall a rt' calls, Q a rt' calls -> Q' a rt' calls) ->
  wp m rt Q -> wp m rt Q'.
Proof. unfold wp. intros H. destruct (m rt); auto. Qed.

Lemma quiet_nil : quiet [].
Proof. reflexivity. Qed.

Lemma quiet_app c1 c2 : quiet c1 -> quiet c2 -> quiet (c1 ++ c2).
Proof. unfold quiet. intros H1 H2. rewrite existsb_app, H1, H2. reflexivity. Qed.

Lemma teardown_app c1 c2 :
  teardown_only c1 -> teardown_only c2 -> teardown_only (c1 ++ c2).
Proof.
  unfold teardown_only. intros H1 H2. rewrite forallb_app, H1, H2. reflexivity.
Qed.

Lemma teardown_quiet calls : teardown_only calls -> quiet calls.
Proof.
  unfold teardown_only, quiet. induction calls as [|c calls IH]; [reflexivity|].
  cbn [forallb existsb]. rewrite andb_true_iff. intros [Hc Hrest].
  rewrite (IH Hrest). destruct c; (discriminate Hc || reflexivity).
Qed.

Lemma teardown_unsignalled calls : teardown_only calls -> unsignalled calls.
Proof.
  unfold teardown_only, unsignalled.
  induction calls as [|c calls IH]; [reflexivity|].
  cbn [forallb existsb]. rewrite andb_true_iff. intros [Hc Hrest].
  rewrite (IH Hrest). destruct c; (discriminate Hc || reflexivity).
Qed.

Lemma same_control_refl rt : same_control rt rt.
Proof. repeat split. Qed.

Lemma same_control_trans rt1 rt2 rt3 :
  same_control rt1 rt2 -> same_control rt2 rt3 -> same_control rt1 rt3.
Proof. unfold same_control. intuition congruence. Qed.

(** ** Completion handlers while stopping or panicked *)

Lemma in_handler_declines i status resubmit rt :
  panic rt = true \/ stream_state rt = STREAM_STOPPING ->
  zoom_pcm_in_urb_handler i status resubmit rt = Done tt rt [].
Proof.
  intros H. unfold zoom_pcm_in_urb_handler, mbind, M_bind, get.
  destruct H as [-> | ->]; [reflexivity|].
  rewrite orb_true_r. reflexivity.
Qed.

Lemma out_handler_declines i status resubmit rt :
  panic rt = true \/ stream_state rt = STREAM_STOPPING ->
  zoom_pcm_out_urb_handler i status resubmit rt = Done tt rt [].
Proof.
  intros H. unfold zoom_pcm_out_urb_handler, mbind, M_bind, get.
  destruct H as [-> | ->]; [reflexivity|].
  rewrite orb_true_r. reflexivity.
Qed.

Lemma urb_set_urb_idle d i u rt d' j :
  in_flight u = false -> idle d' j rt -> idle d' j (set_urb d i u rt).
Proof.
  unfold idle, urb, set_urb. intros Hu Hj.
  destruct d, d'; cbn; try exact Hj;
    (destruct (decide (i = j)) as [->|Hne];
     [rewrite vlookup_insert; exact Hu
     |rewrite vlookup_insert_ne by exact Hne; exact Hj]).
Qed.

Lemma urb_set_urb_same d i u rt : urb d i (set_urb d i u rt) = u.
Proof. unfold urb, set_urb. destruct d; cbn; apply vlookup_insert. Qed.

Lemma same_control_set_urb d i u rt : same_control rt (set_urb d i u rt).
Proof. destruct d; repeat split. Qed.

(** While the stream is stopping or panicked, giving a URB back only makes
    it idle. *)
Lemma giveback_declined c rt :
  panic rt = true \/ stream_state rt = STREAM_STOPPING ->
  wp (giveback c) rt (fun _ rt' calls =>
    same_control rt rt' /\ calls = [] /\
    idle (c_dir c) (c_idx c) rt' /\
    (forall d j, idle d j rt -> idle d j rt')).
Proof.
  intros H. unfold wp, giveback, mbind, M_bind, get.
  destruct (in_flight (urb (c_dir c) (c_idx c) rt)) eqn:Hf.
  - cbn [modify].
    match goal with
    | |- context [set_urb ?d ?i ?u rt] => set (rt1 := set_urb d i u rt)
    end.
    assert (Hsc : same_control rt rt1) by apply same_control_set_urb.
    assert (H1 : panic rt1 = true \/ stream_state rt1 = STREAM_STOPPING).
    { destruct Hsc as (-> & -> & _). exact H. }
    destruct (c_dir c) eqn:Hd;
      [rewrite (out_handler_declines _ _ _ _ H1)
      |rewrite (in_handler_declines _ _ _ _ H1)];
      (split; [exact Hsc|]; split; [reflexivity|]; split;
       [subst rt1; unfold idle; rewrite <- Hd, urb_set_urb_same; reflexivity
       |intros d j Hj; subst rt1; apply urb_set_urb_idle;
        [reflexivity | exact Hj]]).
  - cbn. split; [apply same_control_refl|]. split; [reflexivity|].
    split; [exact Hf | auto].
Qed.

(** ** Stopping the stream *)

Lemma wp_ret {A} (a : A) rt (Q : A -> pcm_runtime -> list call -> Prop) :
  Q a rt [] -> wp (mret a) rt Q.
Proof. exact id. Qed.

Lemma wp_emit c rt (Q : unit -> pcm_runtime -> list call -> Prop) :
  Q tt rt [c] -> wp (emit c) rt Q.
Proof. exact id. Qed.

Lemma wp_modify f rt (Q : unit -> pcm_runtime -> list call -> Prop) :
  Q tt (f rt) [] -> wp (modify f) rt Q.
Proof. exact id. Qed.

Lemma wp_get rt (Q : pcm_runtime -> pcm_runtime -> list call -> Prop) :
  Q rt rt [] -> wp get rt Q.
Proof. exact id. Qed.

Lemma all_indices (i : fin PCM_N_URBS) : i ∈ urb_indices.
Proof.
  unfold urb_indices, PCM_N_URBS in *.
  repeat (inv_fin i; [rewrite !elem_of_cons; auto 10 | intros i]). inv_fin i.
Qed.

Lemma wp_cancel d i rt :
  stream_state rt = STREAM_STOPPING ->
  wp (giveback (cancelled d i)) rt (fun _ rt' calls => settled d i rt rt' calls).
Proof.
  intros Hst. eapply wp_mono; [|apply giveback_declined; right; exact Hst].
  intros _ rt' calls (Hsc & -> & Hidle & Hmono).
  repeat split; try apply Hsc; auto.
Qed.

Lemma wp_stop_urb d answer i rt :
  stream_state rt = STREAM_STOPPING ->
  wp (stop_urb d answer i) rt (fun _ rt' calls => settled d i rt rt' calls).
Proof.
  intros Hst. unfold stop_urb, usb_wait_anchor_empty_timeout,
    usb_kill_anchored_urbs, usb_kill_urb.
  apply wp_bind, wp_bind, wp_emit, wp_ret, wp_bind.
  assert (Hkill : forall c rt0, is_teardown c = true ->
            stream_state rt0 = STREAM_STOPPING ->
            wp (emit c;; giveback (cancelled d i)) rt0
               (fun _ rt' calls => settled d i rt0 rt' calls)).
  { intros c rt0 Hc Hst0. apply wp_bind, wp_emit.
    eapply wp_mono; [|apply wp_cancel; exact Hst0].
    intros _ rt' calls (Hsc & Hq & Hidle & Hmono).
    repeat split; try apply Hsc; auto.
    unfold teardown_only. cbn [app forallb]. rewrite Hc. exact Hq. }
  assert (Hfirst :
    wp (if answer i =? 0
        then emit (usb_kill_anchored_urbs_call d i);; giveback (cancelled d i)
        else mret tt) rt
       (fun _ rt' calls =>
          same_control rt rt' /\ teardown_only calls /\
          (forall d' j, idle d' j rt -> idle d' j rt'))).
  { destruct (answer i =? 0).
    - eapply wp_mono; [|apply Hkill; [reflexivity | exact Hst]].
      intros _ rt' calls (Hsc & Hq & _ & Hmono). auto.
    - apply wp_ret. split; [apply same_control_refl|]. split; [reflexivity|].
      auto. }
  eapply wp_mono; [|exact Hfirst].
  intros _ rt1 c1 (Hsc1 & Hq1 & Hmono1).
  eapply wp_mono; [|apply Hkill; [reflexivity|]].
  - intros _ rt2 c2 (Hsc2 & Hq2 & Hidle2 & Hmono2).
    split; [eapply same_control_trans; eassumption|].
    split; [|split; [exact Hidle2 | auto]].
    change (teardown_only ([usb_wait_anchor_empty_timeout_call d i 100]
                           ++ [] ++ c1 ++ c2)).
    repeat apply teardown_app; assumption || reflexivity.
  - destruct Hsc1 as (_ & -> & _). exact Hst.
Qed.

Lemma wp_for_each_stop d answer l : forall rt,
  stream_state rt = STREAM_STOPPING ->
  wp (for_each l (stop_urb d answer)) rt (fun _ rt' calls =>
    same_control rt rt' /\ teardown_only calls /\
    (forall i, i ∈ l -> idle d i rt') /\
    (forall d' j, idle d' j rt -> idle d' j rt')).
Proof.
  induction l as [|x l IH]; intros rt Hst; cbn [for_each].
  - apply wp_ret. split; [apply same_control_refl|]. split; [reflexivity|].
    split; [intros i Hi; inversion Hi | auto].
  - apply wp_bind.
    eapply wp_mono; [|apply wp_stop_urb; exact Hst].
    intros _ rt1 c1 (Hsc1 & Hq1 & Hidle1 & Hmono1).
    eapply wp_mono; [|apply IH; destruct Hsc1 as (_ & -> & _); exact Hst].
    intros _ rt2 c2 (Hsc2 & Hq2 & Hidle2 & Hmono2).
    split; [eapply same_control_trans; eassumption|].
    split; [apply teardown_app; assumption|].
    split; [|auto].
    intros i Hi. apply elem_of_cons in Hi as [->|Hi]; auto.
Qed.

Lemma zoom_pcm_stream_stop_disabled e rt :
  stream_state rt = STREAM_DISABLED ->
  zoom_pcm_stream_stop e rt = Done tt rt [].
Proof.
  intros Hst. unfold zoom_pcm_stream_stop, mbind, M_bind, get.
  rewrite Hst. reflexivity.
Qed.

Lemma zoom_pcm_stream_stop_spec e rt :
  wp (zoom_pcm_stream_stop e) rt (fun _ rt' calls => stopped rt rt' calls).
Proof.
  destruct (state_eqb (stream_state rt) STREAM_DISABLED) eqn:Hst.
  - assert (Hd : stream_state rt = STREAM_DISABLED)
      by (destruct (stream_state rt); (reflexivity || discriminate)).
    unfold wp. rewrite (zoom_pcm_stream_stop_disabled e rt Hd).
    repeat split; auto. intros Hne. contradiction.
  - unfold zoom_pcm_stream_stop. apply wp_bind, wp_get. rewrite Hst.
    cbn [negb]. apply wp_bind, wp_modify.
    set (rt0 := set_stream_state STREAM_STOPPING rt).
    assert (H0 : stream_state rt0 = STREAM_STOPPING) by reflexivity.
    apply wp_bind.
    eapply wp_mono; [|apply wp_for_each_stop; exact H0].
    intros _ rt1 c1 (Hsc1 & Hq1 & Hidle1 & Hmono1).
    assert (H1 : stream_state rt1 = STREAM_STOPPING)
      by (destruct Hsc1 as (_ & -> & _); exact H0).
    apply wp_bind.
    eapply wp_mono; [|apply wp_for_each_stop; exact H1].
    intros _ rt2 c2 (Hsc2 & Hq2 & Hidle2 & Hmono2).
    apply wp_modify.
    destruct Hsc1 as (Hp1 & _ & Hpl1 & Hca1 & Hw1).
    destruct Hsc2 as (Hp2 & _ & Hpl2 & Hca2 & Hw2).
    subst rt0. cbn in Hp1, Hpl1, Hca1, Hw1.
    assert (Hall : forall d j, idle d j (set_stream_state STREAM_DISABLED rt2)).
    { intros [] j.
      - apply (Hmono2 DirOut j), Hidle1, all_indices.
      - apply (Hidle2 j), all_indices. }
    unfold stopped.
    cbn [stream_state panic playback capture stream_wait_cond
         set_stream_state].
    split; [reflexivity|].
    split; [congruence|]. split; [congruence|]. split; [congruence|].
    split; [congruence|].
    split; [repeat apply teardown_app; assumption || reflexivity|].
    split; [|intros _; exact Hall].
    intros d j _. exact (Hall d j).
Qed.

(** C9.  Stop is idempotent: on a DISABLED stream [zoom_pcm_stream_stop]
    changes nothing and calls nothing, and whatever the state, a stop ends
    DISABLED and a second stop right after it is such a no-op. *)
Theorem stop_is_idempotent (e e' : stop_env) (rt : pcm_runtime) :
  (stream_state rt = STREAM_DISABLED ->
   zoom_pcm_stream_stop e rt = Done tt rt []) /\
  exists rt1 calls,
    zoom_pcm_stream_stop e rt = Done tt rt1 calls /\
    stream_state rt1 = STREAM_DISABLED /\
    zoom_pcm_stream_stop e' rt1 = Done tt rt1 [].
Proof.
  split; [apply zoom_pcm_stream_stop_disabled|].
  pose proof (zoom_pcm_stream_stop_spec e rt) as H.
  apply wp_done in H as ([] & rt1 & calls & Hrun & Hst & _).
  exists rt1, calls. split; [exact Hrun|]. split; [exact Hst|].
  apply zoom_pcm_stream_stop_disabled. exact Hst.
Qed.

(** A stop of the fresh, DISABLED runtime. *)
Lemma stop_is_idempotent_witness :
  zoom_pcm_stream_stop quiet_stop_env fresh_runtime = Done tt fresh_runtime [].
Proof.
  apply (stop_is_idempotent quiet_stop_env quiet_stop_env fresh_runtime).
  reflexivity.
Defined.

(** ** ALSA callbacks *)

(** C10.  On a recognized substream of a runtime that is not panicked,
    [zoom_pcm_trigger] with START or PAUSE_RELEASE sets the [active] flag of
    that substream, with STOP or PAUSE_PUSH clears it, under the substream
    lock, and returns 0; nothing else changes: not the offsets or the
    instance of the substream, not the other substream, not the stream
    state, the panic flag, the start condition or the URBs.  Any other
    command returns [-EINVAL] and changes nothing. *)
Theorem trigger_sets_only_active
  (rt : pcm_runtime) (alsa_sub : snd_pcm_substream) (cmd : Z) (w : which_sub) :
  panic rt = false ->
  zoom_pcm_get_substream alsa_sub = Some w ->
  let flip b := set_substream w (set_active b (substream w rt)) rt in
  let other := match w with Playback => Capture | Capture => Playback end in
  (forall b,
     active (substream w (flip b)) = b /\
     instance (substream w (flip b)) = instance (substream w rt) /\
     dma_off (substream w (flip b)) = dma_off (substream w rt) /\
     period_off (substream w (flip b)) = period_off (substream w rt) /\
     substream other (flip b) = substream other rt /\
     stream_state (flip b) = stream_state rt /\
     panic (flip b) = panic rt /\
     stream_wait_cond (flip b) = stream_wait_cond rt /\
     out_urbs (flip b) = out_urbs rt /\
     in_urbs (flip b) = in_urbs rt) /\
  (cmd = SNDRV_PCM_TRIGGER_START \/ cmd = SNDRV_PCM_TRIGGER_PAUSE_RELEASE ->
   zoom_pcm_trigger alsa_sub cmd rt
   = Done 0 (flip true) [spin_lock_call w; spin_unlock_call w]) /\
  (cmd = SNDRV_PCM_TRIGGER_STOP \/ cmd = SNDRV_PCM_TRIGGER_PAUSE_PUSH ->
   zoom_pcm_trigger alsa_sub cmd rt
   = Done 0 (flip false) [spin_lock_call w; spin_unlock_call w]) /\
  (cmd <> SNDRV_PCM_TRIGGER_START ->
   cmd <> SNDRV_PCM_TRIGGER_PAUSE_RELEASE ->
   cmd <> SNDRV_PCM_TRIGGER_STOP ->
   cmd <> SNDRV_PCM_TRIGGER_PAUSE_PUSH ->
   zoom_pcm_trigger alsa_sub cmd rt = Done (- EINVAL) rt []).
Proof.
  intros Hp Hw flip other.
  split; [intros b; subst flip other; destruct w; repeat split|].
  unfold zoom_pcm_trigger, mbind, M_bind, get. rewrite Hp, Hw.
  split; [|split].
  - intros [-> | ->]; reflexivity.
  - intros [-> | ->]; reflexivity.
  - intros H1 H2 H3 H4.
    destruct (Z.eqb_spec cmd SNDRV_PCM_TRIGGER_START); [contradiction|].
    destruct (Z.eqb_spec cmd SNDRV_PCM_TRIGGER_PAUSE_RELEASE); [contradiction|].
    destruct (Z.eqb_spec cmd SNDRV_PCM_TRIGGER_STOP); [contradiction|].
    destruct (Z.eqb_spec cmd SNDRV_PCM_TRIGGER_PAUSE_PUSH); [contradiction|].
    reflexivity.
Qed.

(** START on the capture substream of the fresh runtime. *)
Lemma trigger_sets_only_active_witness :
  zoom_pcm_trigger (ring 1 marker_area) SNDRV_PCM_TRIGGER_START fresh_runtime
  = Done 0 (set_capture (set_active true (capture fresh_runtime)) fresh_runtime)
         [spin_lock_call Capture; spin_unlock_call Capture].
Proof.
  apply (trigger_sets_only_active fresh_runtime (ring 1 marker_area)
           SNDRV_PCM_TRIGGER_START Capture); [reflexivity | reflexivity |].
  left. reflexivity.
Defined.

(** C7, as stated, does not hold: on an unrecognized stream direction
    [zoom_pcm_trigger] answers [-ENODEV], not [-EINVAL]. *)
Lemma invalid_usage_counterexample : ~ invalid_usage_as_claimed.
Proof.
  intros H.
  destruct (H fresh_runtime
              (OpTrigger (ring 2 marker_area) SNDRV_PCM_TRIGGER_START)
              (ring 2 marker_area) eq_refl) as [Hinv _].
  destruct (Hinv eq_refl eq_refl) as [calls Hrun].
  vm_compute in Hrun. discriminate Hrun.
Qed.

(** C7, amended.  Invalid usage has no side effects.  On an unrecognized
    stream direction [zoom_pcm_open] returns [-EINVAL] and
    [zoom_pcm_prepare] and [zoom_pcm_trigger] return [-ENODEV]; while the
    panic flag is set the three return [-EPIPE]; in both cases
    [zoom_pcm_close] returns 0 and [zoom_pcm_pointer] the overrun sentinel.
    In every one of these cases the runtime (substreams, offsets, stream
    state, URBs) is left as it was. *)
Theorem invalid_usage_leaves_runtime_unchanged
  (rt : pcm_runtime) (o : op) (a : snd_pcm_substream) (e : stop_env) :
  callback_substream o = Some a ->
  (panic rt = false -> zoom_pcm_get_substream a = None ->
   (exists calls,
      run_op o rt = Done (RInt (invalid_direction_error o)) rt calls) /\
   (exists calls, zoom_pcm_close a e rt = Done 0 rt calls) /\
   zoom_pcm_pointer a rt = Done SNDRV_PCM_POS_XRUN rt []) /\
  (panic rt = true ->
   run_op o rt = Done (RInt (- EPIPE)) rt [] /\
   zoom_pcm_close a e rt = Done 0 rt [] /\
   zoom_pcm_pointer a rt = Done SNDRV_PCM_POS_XRUN rt []).
Proof.
  intros Ho. split.
  - intros Hp Hw.
    assert (Hs : (stream a =? SNDRV_PCM_STREAM_PLAYBACK) = false
                 /\ (stream a =? SNDRV_PCM_STREAM_CAPTURE) = false).
    { unfold zoom_pcm_get_substream in Hw.
      destruct (stream a =? SNDRV_PCM_STREAM_PLAYBACK); [discriminate|].
      destruct (stream a =? SNDRV_PCM_STREAM_CAPTURE); [discriminate|].
      split; reflexivity. }
    destruct Hs as [Hs1 Hs2].
    split; [|split].
    + destruct o; try discriminate Ho; injection Ho as ->;
        unfold run_op, zoom_pcm_open, zoom_pcm_prepare, zoom_pcm_trigger,
          mbind, M_bind, get; rewrite Hp, ?Hw, ?Hs1, ?Hs2;
        eexists; reflexivity.
    + unfold zoom_pcm_close, mbind, M_bind, get. rewrite Hp, Hw.
      eexists; reflexivity.
    + unfold zoom_pcm_pointer, mbind, M_bind, get. rewrite Hp, Hw. reflexivity.
  - intros Hp. split; [|split].
    + destruct o; try discriminate Ho;
        unfold run_op, zoom_pcm_open, zoom_pcm_prepare, zoom_pcm_trigger,
          mbind, M_bind, get; rewrite Hp; reflexivity.
    + unfold zoom_pcm_close, mbind, M_bind, get. rewrite Hp. reflexivity.
    + unfold zoom_pcm_pointer, mbind, M_bind, get. rewrite Hp. reflexivity.
Qed.

(** The callbacks on a substream of direction 2, on the fresh runtime. *)
Lemma invalid_usage_leaves_runtime_unchanged_witness :
  (exists calls,
     run_op (OpPrepare (ring 2 marker_area) quiet_stop_env (ok_start []))
            fresh_runtime
     = Done (RInt (- ENODEV)) fresh_runtime calls) /\
  (exists calls,
     zoom_pcm_close (ring 2 marker_area) quiet_stop_env fresh_runtime
     = Done 0 fresh_runtime calls) /\
  zoom_pcm_pointer (ring 2 marker_area) fresh_runtime
  = Done SNDRV_PCM_POS_XRUN fresh_runtime [].
Proof.
  apply (invalid_usage_leaves_runtime_unchanged fresh_runtime
           (OpPrepare (ring 2 marker_area) quiet_stop_env (ok_start []))
           (ring 2 marker_area) quiet_stop_env);
    reflexivity.
Defined.

(** ** The panic latch *)

Lemma state_eqb_eq a b : state_eqb a b = true <-> a = b.
Proof. destruct a, b; cbn; split; (reflexivity || discriminate). Qed.

Lemma state_eqb_neq a b : a <> b -> state_eqb a b = false.
Proof. intros H. destruct a, b; cbn; (reflexivity || contradiction). Qed.

(** A completion with a transport-fatal status that reaches the status
    test sets the flag and resubmits nothing. *)
Lemma fatal_completion_latches d i status resubmit rt :
  fatal_status status = true ->
  stream_state rt <> STREAM_STOPPING ->
  exists rt1,
    completion_handler d i status resubmit rt = Done tt rt1 [] /\
    panic rt1 = true /\ same_control (set_panic true rt) rt1.
Proof.
  intros Hf Hst.
  destruct (panic rt) eqn:Hp.
  - exists rt. split.
    + destruct d; [apply out_handler_declines | apply in_handler_declines];
        left; exact Hp.
    + split; [exact Hp|]. unfold same_control. cbn. rewrite Hp. repeat split.
  - exists (set_panic true rt).
    split; [|split; [reflexivity | apply same_control_refl]].
    destruct d; unfold completion_handler, zoom_pcm_out_urb_handler,
      zoom_pcm_in_urb_handler, mbind, M_bind, get;
      rewrite Hp, (state_eqb_neq _ _ Hst), Hf; reflexivity.
Qed.

(** Once the flag is set, every operation keeps it set, submits nothing,
    and behaves as [latched] says. *)
Lemma run_op_latched o rt :
  panic rt = true ->
  wp (run_op o) rt (fun r rt' calls =>
    panic rt' = true /\ quiet calls /\ latched (o, r, calls)).
Proof.
  intros Hp. destruct o; cbn [run_op latched].
  - unfold wp, mbind, M_bind.
    rewrite in_handler_declines by (left; exact Hp). cbn.
    repeat split; assumption || reflexivity.
  - unfold wp, mbind, M_bind.
    rewrite out_handler_declines by (left; exact Hp). cbn.
    repeat split; assumption || reflexivity.
  - apply wp_bind.
    eapply wp_mono; [|apply giveback_declined; left; exact Hp].
    intros _ rt' calls ((Hp' & _) & -> & _). apply wp_ret.
    split; [congruence|]. split; reflexivity.
  - unfold wp, zoom_pcm_open, mbind, M_bind, get. rewrite Hp. cbn.
    repeat split; assumption || reflexivity.
  - unfold wp, zoom_pcm_close, mbind, M_bind, get. rewrite Hp. cbn.
    repeat split; assumption || reflexivity.
  - unfold wp, zoom_pcm_prepare, mbind, M_bind, get. rewrite Hp. cbn.
    repeat split; assumption || reflexivity.
  - unfold wp, zoom_pcm_trigger, mbind, M_bind, get. rewrite Hp. cbn.
    repeat split; assumption || reflexivity.
  - unfold wp, zoom_pcm_pointer, mbind, M_bind, get. rewrite Hp. cbn.
    repeat split; assumption || reflexivity.
  - apply wp_bind.
    eapply wp_mono; [|apply zoom_pcm_stream_stop_spec].
    intros _ rt' calls (_ & Hp' & _ & _ & _ & Hq & _). apply wp_ret.
    split; [congruence|]. split; [|exact I].
    apply quiet_app; [apply teardown_quiet; exact Hq | reflexivity].
  - apply wp_bind. unfold zoom_pcm_abort.
    apply wp_bind, wp_modify, wp_bind, wp_emit, wp_bind.
    eapply wp_mono; [|apply zoom_pcm_stream_stop_spec].
    intros _ rt' calls (_ & Hp' & _ & _ & _ & Hq & _).
    apply wp_emit, wp_ret.
    split; [exact Hp'|]. split; [|exact I].
    apply teardown_quiet in Hq.
    repeat apply quiet_app; assumption || reflexivity.
Qed.

Lemma run_ops_latched ops : forall rt,
  panic rt = true ->
  exists rs rt' calls,
    run_ops ops rt = Done rs rt' calls /\
    panic rt' = true /\ quiet calls /\ Forall latched rs.
Proof.
  induction ops as [|o ops IH]; intros rt Hp.
  - exists [], rt, []. split; [reflexivity|]. split; [exact Hp|].
    split; [reflexivity | constructor].
  - pose proof (run_op_latched o rt Hp) as H1.
    apply wp_done in H1 as (r & rt1 & c1 & Hrun & Hp1 & Hq1 & Hl1).
    destruct (IH rt1 Hp1) as (rs & rt2 & c2 & Hrun2 & Hp2 & Hq2 & Hl2).
    exists ((o, r, c1) :: rs), rt2, (c1 ++ c2).
    cbn [run_ops]. rewrite Hrun, Hrun2.
    split; [reflexivity|]. split; [exact Hp2|].
    split; [apply quiet_app; assumption|].
    constructor; assumption.
Qed.

(** [zoom_pcm_stream_start] does nothing unless the stream is DISABLED. *)
Lemma zoom_pcm_stream_start_not_disabled e rt :
  stream_state rt <> STREAM_DISABLED ->
  zoom_pcm_stream_start e rt = Done 0 rt [].
Proof.
  intros Hst. unfold zoom_pcm_stream_start, mbind, M_bind, get.
  rewrite (state_eqb_neq _ _ Hst). reflexivity.
Qed.

(** C3, as stated, does not hold: a completion with status [-ENOENT] that
    arrives while the stream is STOPPING (as every cancelled URB does
    during a stop) leaves the panic flag clear, and the position query
    that follows takes the lock and returns a position. *)
Lemma panic_latch_counterexample : ~ panic_latch_as_claimed.
Proof.
  intros H.
  destruct (H DirIn 0%fin (- ENOENT) 0
              (set_stream_state STREAM_STOPPING fresh_runtime)
              [OpPointer (ring 0 marker_area)] eq_refl)
    as (rt1 & calls1 & Hrun1 & _ & rs & rt2 & calls & Hrun & Hp & _).
  vm_compute in Hrun1. injection Hrun1 as <- <-.
  vm_compute in Hrun. injection Hrun as <- <- <-.
  discriminate Hp.
Qed.

(** C3, amended.  The panic flag is a one-way latch.  A completion with a
    transport-fatal status that arrives while the stream is not STOPPING
    sets the flag and resubmits nothing (while the stream is STOPPING the
    handler returns without reading the status).  Once the flag is set,
    whatever operations follow (completion handlers, the [pcm_ops], a
    stop, an abort), the flag stays set, no transfer is submitted, every
    completion handler returns without resubmitting and every position
    query returns the overrun sentinel without taking the substream lock.
    [zoom_pcm_stream_start] clears the flag only when it runs from
    DISABLED: from any other state it changes nothing. *)
Theorem panic_latch_is_one_way
  (d : direction) (i : fin PCM_N_URBS) (status resubmit : Z)
  (rt : pcm_runtime) (ops : list op) :
  fatal_status status = true ->
  stream_state rt <> STREAM_STOPPING ->
  (exists rt1,
     completion_handler d i status resubmit rt = Done tt rt1 [] /\
     panic rt1 = true /\
     exists rs rt2 calls,
       run_ops ops rt1 = Done rs rt2 calls /\
       panic rt2 = true /\ quiet calls /\ Forall latched rs) /\
  (forall e rt', stream_state rt' <> STREAM_DISABLED ->
     zoom_pcm_stream_start e rt' = Done 0 rt' []).
Proof.
  intros Hf Hst. split; [|intros e rt'; apply zoom_pcm_stream_start_not_disabled].
  destruct (fatal_completion_latches d i status resubmit rt Hf Hst)
    as (rt1 & Hrun & Hp & _).
  exists rt1. split; [exact Hrun|]. split; [exact Hp|].
  apply run_ops_latched. exact Hp.
Qed.

(** An in-URB completes with [-ENODEV] on the fresh runtime; a position
    query, a completion and a prepare follow. *)
Lemma panic_latch_is_one_way_witness :
  exists rt1,
    completion_handler DirIn 0%fin (- ENODEV) 0 fresh_runtime = Done tt rt1 [] /\
    panic rt1 = true /\
    exists rs rt2 calls,
      run_ops [OpPointer (ring 0 marker_area);
               OpInHandler 1%fin 0 0;
               OpPrepare (ring 0 marker_area) quiet_stop_env (ok_start [])]
              rt1
      = Done rs rt2 calls /\
      panic rt2 = true /\ quiet calls /\ Forall latched rs.
Proof.
  apply (panic_latch_is_one_way DirIn 0%fin (- ENODEV) 0 fresh_runtime);
    [reflexivity | discriminate].
Defined.

(** ** Starting the stream *)

Lemma unsignalled_app c1 c2 :
  unsignalled c1 -> unsignalled c2 -> unsignalled (c1 ++ c2).
Proof.
  unfold unsignalled. intros H1 H2. rewrite existsb_app, H1, H2. reflexivity.
Qed.

Lemma wp_usb_submit_ok d i rt :
  wp (usb_submit_urb d i 0) rt (fun r rt' calls =>
    r = 0 /\ same_control rt rt' /\ calls = [usb_submit_urb_call d i] /\
    (forall d' j, idle d' j rt' -> idle d' j rt)).
Proof.
  unfold wp, usb_submit_urb, mbind, M_bind, get, emit, modify. cbn.
  split; [reflexivity|]. split; [apply same_control_set_urb|].
  split; [reflexivity|].
  intros d' j. unfold idle, urb, set_urb.
  destruct d, d'; cbn; try exact id;
    (destruct (decide (i = j)) as [->|Hne];
     [rewrite vlookup_insert; discriminate
     |rewrite vlookup_insert_ne by exact Hne; exact id]).
Qed.

(** With every submission accepted the loop of [zoom_pcm_stream_start]
    runs to its end, and no completion handler runs in it. *)
Lemma wp_start_submit e l :
  (forall i, submit_out e i = 0) -> (forall i, submit_in e i = 0) ->
  forall rt,
  wp (start_submit e l) rt (fun r rt' calls =>
    r = None /\ same_control rt rt' /\ unsignalled calls).
Proof.
  intros Hout Hin. induction l as [|i l IH]; intros rt; cbn [start_submit].
  - apply wp_ret. split; [reflexivity|]. split; [apply same_control_refl|].
    reflexivity.
  - apply wp_bind, wp_get, wp_bind, wp_modify, wp_bind, wp_emit, wp_bind.
    rewrite Hout.
    eapply wp_mono; [|apply wp_usb_submit_ok].
    intros r rt1 c1 (-> & Hsc1 & -> & _). cbn [Z.eqb negb].
    apply wp_bind, wp_emit, wp_bind. rewrite Hin.
    eapply wp_mono; [|apply wp_usb_submit_ok].
    intros r rt2 c2 (-> & Hsc2 & -> & _). cbn [Z.eqb negb].
    eapply wp_mono; [|apply IH].
    intros r rt3 c3 (-> & Hsc3 & Hu3).
    split; [reflexivity|]. split.
    + eapply same_control_trans; [apply same_control_set_urb|].
      eapply same_control_trans; [exact Hsc1|].
      eapply same_control_trans; [exact Hsc2 | exact Hsc3].
    + repeat apply unsignalled_app; assumption || reflexivity.
Qed.

(** A starter that finds the condition already raised does not sleep. *)
Lemma wait_event_raised window rt :
  stream_wait_cond rt = true -> wait_event window rt = Done 1 rt [].
Proof.
  intros Hc. destruct window; cbn [wait_event];
    unfold mbind, M_bind, get; rewrite Hc; reflexivity.
Qed.

(** [rt->stream_wait_cond] is never cleared.  Once a session has run, the
    next start finds the condition already raised: whatever completes or
    does not complete afterwards, it does not wait and declares the stream
    RUNNING with no completion handler having run. *)
Lemma restart_does_not_wait (e : start_env) (rt : pcm_runtime) :
  stream_state rt = STREAM_DISABLED ->
  stream_wait_cond rt = true ->
  set_interface_1 e = 0 -> set_interface_2 e = 0 ->
  (forall i, submit_out e i = 0) -> (forall i, submit_in e i = 0) ->
  exists rt' calls,
    zoom_pcm_stream_start e rt = Done 0 rt' calls /\
    stream_state rt' = STREAM_RUNNING /\
    unsignalled calls.
Proof.
  intros Hst Hc H1 H2 Hout Hin.
  assert (Hgoal : wp (zoom_pcm_stream_start e) rt (fun r rt' calls =>
            r = 0 /\ stream_state rt' = STREAM_RUNNING /\ unsignalled calls)).
  { unfold zoom_pcm_stream_start. apply wp_bind, wp_get. rewrite Hst.
    cbn [state_eqb]. apply wp_bind, wp_modify, wp_bind.
    unfold zoom_interface_init. rewrite H1, H2. cbn [Z.eqb negb].
    apply wp_bind, wp_emit, wp_bind, wp_emit, wp_ret.
    cbn [Z.eqb negb Z.opp].
    apply wp_bind, wp_modify, wp_bind.
    eapply wp_mono; [|apply (wp_start_submit e urb_indices Hout Hin)].
    intros r rt1 c1 (-> & Hsc1 & Hu1).
    apply wp_bind. unfold wait_event_timeout. apply wp_bind, wp_emit.
    assert (Hc1 : stream_wait_cond rt1 = true).
    { destruct Hsc1 as (_ & _ & _ & _ & ->). exact Hc. }
    unfold wp at 1. rewrite (wait_event_raised _ _ Hc1).
    apply wp_bind, wp_get. rewrite Hc1.
    apply wp_bind, wp_modify, wp_ret.
    split; [reflexivity|]. split; [reflexivity|].
    repeat apply unsignalled_app; assumption || reflexivity. }
  apply wp_done in Hgoal as (r & rt' & calls & Hrun & -> & Hs & Hu).
  exists rt', calls. auto.
Qed.

(** C2 (code departs from the claim).  A first session on a fresh runtime
    runs once the first out-URB has come back, and is stopped; the start
    condition is still raised.  The next start, during which nothing
    completes at all, returns 0 with the stream RUNNING: no out-direction
    completion has signalled anything since that start began.  The same
    through the [pcm_ops]: two calls of [zoom_pcm_prepare] in a row. *)
Theorem restart_runs_without_completion :
  returned (zoom_pcm_stream_start (ok_start [first_out_completion]))
           fresh_runtime = Some 0 /\
  stream_state running_runtime = STREAM_RUNNING /\
  stream_state session_over = STREAM_DISABLED /\
  stream_wait_cond session_over = true /\
  completions (ok_start []) = [] /\
  returned (zoom_pcm_stream_start (ok_start [])) session_over = Some 0 /\
  stream_state (state_after (zoom_pcm_stream_start (ok_start []))
                            session_over) = STREAM_RUNNING /\
  unsignalled (calls_of (zoom_pcm_stream_start (ok_start [])) session_over) /\
  (let session window :=
     OpPrepare (ring 0 marker_area) quiet_stop_env (ok_start window) in
   exists calls1 calls2 rt2 calls,
     run_ops [session [first_out_completion]; session []] fresh_runtime
     = Done [(session [first_out_completion], RInt 0, calls1);
             (session [], RInt 0, calls2)] rt2 calls /\
     stream_state rt2 = STREAM_RUNNING /\
     unsignalled calls2).
Proof.
  repeat split; try (vm_compute; reflexivity).
  eexists _, _, _, _. split; [vm_compute; reflexivity|].
  split; reflexivity.
Qed.

(** A start that finds an interface setting refused returns [-EIO] with
    the stream DISABLED and nothing submitted. *)
Lemma start_interface_failure (e : start_env) (rt : pcm_runtime) :
  stream_state rt = STREAM_DISABLED ->
  set_interface_1 e <> 0 \/ set_interface_2 e <> 0 ->
  exists calls,
    zoom_pcm_stream_start e rt = Done (- EIO) (set_panic false rt) calls /\
    quiet calls.
Proof.
  intros Hst Hfail.
  assert (Hstop : zoom_pcm_stream_stop (forced_stop e) (set_panic false rt)
                  = Done tt (set_panic false rt) [])
    by (apply zoom_pcm_stream_stop_disabled; exact Hst).
  unfold zoom_pcm_stream_start, zoom_interface_init, mbind, M_bind, get.
  rewrite Hst. cbn [state_eqb modify emit].
  destruct (Z.eqb_spec (set_interface_1 e) 0) as [H1|H1]; cbn [negb].
  - destruct (Z.eqb_spec (set_interface_2 e) 0) as [H2|H2]; cbn [negb];
      [destruct Hfail; contradiction|].
    rewrite Hstop. cbn. eexists. split; reflexivity.
  - rewrite Hstop. cbn. eexists. split; reflexivity.
Qed.

(** On a runtime whose start condition is clear, as the first start of a
    runtime finds it, a start during which nothing completes forces a full
    stop and returns [-EIO]: the stream is DISABLED and no transfer is left
    in flight. *)
Lemma first_start_timeout (e : start_env) (rt : pcm_runtime) :
  stream_state rt = STREAM_DISABLED ->
  stream_wait_cond rt = false ->
  set_interface_1 e = 0 -> set_interface_2 e = 0 ->
  (forall i, submit_out e i = 0) -> (forall i, submit_in e i = 0) ->
  completions e = [] ->
  exists rt' calls,
    zoom_pcm_stream_start e rt = Done (- EIO) rt' calls /\
    stream_state rt' = STREAM_DISABLED /\
    (forall d i, idle d i rt').
Proof.
  intros Hst Hc H1 H2 Hout Hin Hw.
  assert (Hgoal : wp (zoom_pcm_stream_start e) rt (fun r rt' calls =>
            r = - EIO /\ stream_state rt' = STREAM_DISABLED /\
            forall d i, idle d i rt')).
  { unfold zoom_pcm_stream_start. apply wp_bind, wp_get. rewrite Hst.
    cbn [state_eqb]. apply wp_bind, wp_modify, wp_bind.
    unfold zoom_interface_init. rewrite H1, H2. cbn [Z.eqb negb].
    apply wp_bind, wp_emit, wp_bind, wp_emit, wp_ret.
    cbn [Z.eqb negb Z.opp].
    apply wp_bind, wp_modify, wp_bind.
    eapply wp_mono; [|apply (wp_start_submit e urb_indices Hout Hin)].
    intros r rt1 c1 (-> & Hsc1 & Hu1).
    destruct Hsc1 as (_ & Hst1 & _ & _ & Hc1). cbn in Hst1, Hc1.
    apply wp_bind. unfold wait_event_timeout. apply wp_bind, wp_emit.
    rewrite Hw. cbn [wait_event]. apply wp_bind, wp_get. rewrite Hc1, Hc.
    apply wp_ret, wp_bind, wp_get. rewrite Hc1, Hc.
    apply wp_bind.
    eapply wp_mono; [|apply zoom_pcm_stream_stop_spec].
    intros _ rt2 c2 (Hst2 & _ & _ & _ & _ & _ & _ & Hidle).
    apply wp_ret. split; [reflexivity|]. split; [exact Hst2|].
    apply Hidle. rewrite Hst1. discriminate. }
  apply wp_done in Hgoal as (r & rt' & calls & Hrun & -> & Hs & Hi).
  exists rt', calls. auto.
Qed.

(** C6 (code departs from the claim).  The start of the second session,
    during which no out-direction completion (nothing at all) arrives:
    [zoom_pcm_stream_start] returns 0, not [-EIO], the stream is RUNNING,
    not DISABLED, and eight transfers are in flight, because the start
    condition of the first session is still raised and the starter does
    not wait.  On the fresh runtime the same start returns [-EIO] with the
    stream DISABLED and nothing in flight. *)
Theorem restart_timeout_is_not_reported :
  stream_state session_over = STREAM_DISABLED /\
  transfers_in_flight session_over = 0%nat /\
  completions (ok_start []) = [] /\
  returned (zoom_pcm_stream_start (ok_start [])) session_over = Some 0 /\
  0 <> - EIO /\
  stream_state (state_after (zoom_pcm_stream_start (ok_start []))
                            session_over) = STREAM_RUNNING /\
  transfers_in_flight (state_after (zoom_pcm_stream_start (ok_start []))
                                   session_over) = 8%nat /\
  returned (zoom_pcm_stream_start (ok_start [])) fresh_runtime
  = Some (- EIO) /\
  stream_state (state_after (zoom_pcm_stream_start (ok_start []))
                            fresh_runtime) = STREAM_DISABLED /\
  transfers_in_flight (state_after (zoom_pcm_stream_start (ok_start []))
                                   fresh_runtime) = 0%nat.
Proof.
  repeat split; try (vm_compute; reflexivity). discriminate.
Qed.

(** ** The first start of a runtime *)

Lemma wlp_bind {A B} (m : M A) (k : A -> M B) rt Q :
  wlp m rt (fun a rt1 c1 => wlp (k a) rt1 (fun b rt2 c2 => Q b rt2 (c1 ++ c2)))
  -> wlp (m ≫= k) rt Q.
Proof.
  unfold wlp, mbind, M_bind.
  destruct (m rt) as [|a rt1 c1]; [auto|].
  destruct (k a rt1) as [|b rt2 c2]; auto.
Qed.

Lemma wlp_mono {A} (m : M A) rt
  (Q Q' : A -> pcm_runtime -> list call -> Prop) :
  (forall a rt' calls, Q a rt' calls -> Q' a rt' calls) ->
  wlp m rt Q -> wlp m rt Q'.
Proof. unfold wlp. intros H. destruct (m rt); auto. Qed.

Lemma wp_wlp {A} (m : M A) rt Q : wp m rt Q -> wlp m rt Q.
Proof. unfold wp, wlp. destruct (m rt); [intros []|auto]. Qed.

Lemma signal_or_same_refl rt : signal_or_same rt rt [].
Proof. split; [reflexivity|]. right. split; reflexivity. Qed.

Lemma signal_or_same_trans rt1 rt2 rt3 c1 c2 :
  signal_or_same rt1 rt2 c1 -> signal_or_same rt2 rt3 c2 ->
  signal_or_same rt1 rt3 (c1 ++ c2).
Proof.
  intros [Hs1 H1] [Hs2 H2]. split; [congruence|].
  rewrite existsb_app.
  destruct H1 as [-> | [Hc1 Hu1]]; [left; reflexivity|].
  destruct H2 as [-> | [Hc2 Hu2]]; [left; apply orb_true_r|].
  right. split; [congruence | apply unsignalled_app; assumption].
Qed.

Ltac crunch :=
  repeat (cbn [mret M_ret fst snd];
          match goal with
          | |- context [if ?b then _ else _] => destruct b eqn:?
          | |- context [lift_option ?o] =>
              destruct o as [[]|] eqn:?; cbn [lift_option]
          end).

Lemma in_handler_signal i status resubmit rt :
  wlp (zoom_pcm_in_urb_handler i status resubmit) rt
      (fun _ rt' calls => signal_or_same rt rt' calls).
Proof.
  unfold wlp, zoom_pcm_in_urb_handler, usb_submit_urb, mbind, M_bind, get,
    modify, emit, fault.
  crunch; cbn; try exact I; (split; [reflexivity|]; right; split; reflexivity).
Qed.

Lemma out_handler_signal i status resubmit rt :
  wlp (zoom_pcm_out_urb_handler i status resubmit) rt
      (fun _ rt' calls => signal_or_same rt rt' calls).
Proof.
  unfold wlp, zoom_pcm_out_urb_handler, usb_submit_urb, mbind, M_bind, get,
    modify, emit, fault.
  crunch; cbn; try exact I;
    (split; [reflexivity|]);
    first [left; reflexivity | right; split; reflexivity].
Qed.

Lemma giveback_signal c rt :
  wlp (giveback c) rt (fun _ rt' calls => signal_or_same rt rt' calls).
Proof.
  unfold giveback. apply wlp_bind. unfold wlp at 1, get.
  destruct (in_flight (urb (c_dir c) (c_idx c) rt));
    [|apply signal_or_same_refl].
  apply wlp_bind. unfold wlp at 1, modify.
  match goal with
  | |- context [set_urb ?d ?i ?u rt] => set (rt1 := set_urb d i u rt)
  end.
  assert (H1 : signal_or_same rt rt1 []).
  { split; [|right; split; [|reflexivity]]; subst rt1;
      destruct (c_dir c); reflexivity. }
  destruct (c_dir c);
    (eapply wlp_mono;
     [|first [apply out_handler_signal | apply in_handler_signal]]);
    intros ? rt2 c2 H2; cbn beta in H2;
    apply (signal_or_same_trans _ _ _ [] ([] ++ c2) (signal_or_same_refl rt));
    apply (signal_or_same_trans _ _ _ [] c2 H1 H2).
Qed.

(** While the starter sleeps nothing but an out-URB handler that wakes it
    raises the start condition. *)
Lemma wait_event_signal window : forall rt,
  wlp (wait_event window) rt (fun _ rt' calls => signal_or_same rt rt' calls).
Proof.
  induction window as [|c window IH]; intros rt; cbn [wait_event].
  - apply signal_or_same_refl.
  - apply wlp_bind. unfold wlp at 1, get.
    destruct (stream_wait_cond rt); [apply signal_or_same_refl|].
    apply wlp_bind.
    eapply wlp_mono; [|apply giveback_signal].
    intros ? rt1 c1 H1. cbn beta in H1.
    eapply wlp_mono; [|apply IH].
    intros ? rt2 c2 H2. cbn beta in H2.
    apply (signal_or_same_trans _ _ _ [] (c1 ++ c2) (signal_or_same_refl rt)).
    exact (signal_or_same_trans _ _ _ _ _ H1 H2).
Qed.

Lemma wp_usb_submit d i answer rt :
  wp (usb_submit_urb d i answer) rt (fun r rt' calls =>
    r = answer /\ same_control rt rt' /\ unsignalled calls).
Proof.
  unfold wp, usb_submit_urb, mbind, M_bind, get, emit, modify.
  destruct (answer =? 0); cbn;
    (split; [reflexivity|]; split; [|reflexivity]).
  - apply same_control_set_urb.
  - apply same_control_refl.
Qed.

(** Whatever the kernel answers, the submission loop either runs to its
    end, or stops the stream and returns; it raises no start condition. *)
Lemma wp_start_submit_any e l : forall rt,
  wp (start_submit e l) rt (fun r rt' calls =>
    unsignalled calls /\
    stream_wait_cond rt' = stream_wait_cond rt /\
    match r with
    | Some _ => stream_state rt' = STREAM_DISABLED
    | None => stream_state rt' = stream_state rt
    end).
Proof.
  assert (Hstop : forall (ret : Z) rt0 rt1,
    same_control rt0 rt1 ->
    wp (zoom_pcm_stream_stop (forced_stop e);; mret (Some ret)) rt1
       (fun r rt' calls =>
          unsignalled calls /\
          stream_wait_cond rt' = stream_wait_cond rt0 /\
          match r with
          | Some _ => stream_state rt' = STREAM_DISABLED
          | None => stream_state rt' = stream_state rt0
          end)).
  { intros ret rt0 rt1 (_ & _ & _ & _ & Hc). apply wp_bind.
    eapply wp_mono; [|apply zoom_pcm_stream_stop_spec].
    intros _ rt2 c2 (Hst2 & _ & _ & _ & Hc2 & Ht & _). apply wp_ret.
    split; [apply unsignalled_app;
            [apply teardown_unsignalled; exact Ht | reflexivity]|].
    split; [congruence | exact Hst2]. }
  induction l as [|i l IH]; intros rt; cbn [start_submit].
  - apply wp_ret. repeat split.
  - apply wp_bind, wp_get, wp_bind, wp_modify, wp_bind, wp_emit, wp_bind.
    eapply wp_mono; [|apply wp_usb_submit].
    intros r rt1 c1 (-> & Hsc1 & Hu1).
    assert (Hsc01 : same_control rt rt1).
    { eapply same_control_trans; [apply same_control_set_urb | exact Hsc1]. }
    destruct (negb (submit_out e i =? 0)).
    + eapply wp_mono; [|apply (Hstop _ rt rt1 Hsc01)].
      intros r rt' calls (Hu & Hc & Hr).
      split; [|split; assumption].
      repeat apply unsignalled_app; assumption || reflexivity.
    + apply wp_bind, wp_emit, wp_bind.
      eapply wp_mono; [|apply wp_usb_submit].
      intros r rt2 c2 (-> & Hsc2 & Hu2).
      assert (Hsc02 : same_control rt rt2)
        by (eapply same_control_trans; eassumption).
      destruct (negb (submit_in e i =? 0)).
      * eapply wp_mono; [|apply (Hstop _ rt rt2 Hsc02)].
        intros r rt' calls (Hu & Hc & Hr).
        split; [|split; assumption].
        repeat apply unsignalled_app; assumption || reflexivity.
      * eapply wp_mono; [|apply IH].
        intros r rt' calls (Hu & Hc & Hr).
        destruct Hsc02 as (_ & Hst02 & _ & _ & Hc02).
        split; [repeat apply unsignalled_app; assumption || reflexivity|].
        split; [congruence|].
        destruct r; [exact Hr | congruence].
Qed.

Lemma wp_interface_init_any answer1 answer2 e rt :
  wp (zoom_interface_init answer1 answer2 e) rt (fun r rt' calls =>
    unsignalled calls /\
    stream_wait_cond rt' = stream_wait_cond rt /\
    (r = 0 /\ stream_state rt' = stream_state rt \/
     r <> 0 /\ stream_state rt' = STREAM_DISABLED)).
Proof.
  assert (Hfail :
    wp (zoom_pcm_stream_stop e;; mret (- EIO)) rt (fun r rt' calls =>
      unsignalled calls /\
      stream_wait_cond rt' = stream_wait_cond rt /\
      (r = 0 /\ stream_state rt' = stream_state rt \/
       r <> 0 /\ stream_state rt' = STREAM_DISABLED))).
  { apply wp_bind.
    eapply wp_mono; [|apply zoom_pcm_stream_stop_spec].
    intros _ rt2 c2 (Hst2 & _ & _ & _ & Hc2 & Ht & _). apply wp_ret.
    split; [apply unsignalled_app;
            [apply teardown_unsignalled; exact Ht | reflexivity]|].
    split; [exact Hc2|]. right. split; [discriminate | exact Hst2]. }
  unfold zoom_interface_init. apply wp_bind, wp_emit.
  destruct (negb (answer1 =? 0)).
  - eapply wp_mono; [|exact Hfail].
    intros r rt' calls (Hu & Hc & Hr). split; [|split; assumption].
    apply unsignalled_app; [reflexivity | exact Hu].
  - apply wp_bind, wp_emit.
    destruct (negb (answer2 =? 0)).
    + eapply wp_mono; [|exact Hfail].
      intros r rt' calls (Hu & Hc & Hr). split; [|split; assumption].
      repeat apply unsignalled_app; assumption || reflexivity.
    + apply wp_ret. split; [reflexivity|]. split; [reflexivity|].
      left. split; reflexivity.
Qed.

(** On a runtime whose start condition is clear, as the first start of a
    runtime finds it, the claim of C2 holds: if [zoom_pcm_stream_start]
    leaves the stream RUNNING, an out-URB handler has woken the starter
    during that start. *)
Lemma first_start_running_was_signalled
  (e : start_env) (rt rt' : pcm_runtime) (r : Z) (calls : list call) :
  stream_state rt = STREAM_DISABLED ->
  stream_wait_cond rt = false ->
  zoom_pcm_stream_start e rt = Done r rt' calls ->
  stream_state rt' = STREAM_RUNNING ->
  existsb is_wake_up calls = true.
Proof.
  intros Hst Hc Hrun.
  assert (Hgoal : wlp (zoom_pcm_stream_start e) rt (fun _ rt' calls =>
            stream_state rt' = STREAM_RUNNING ->
            existsb is_wake_up calls = true)).
  { unfold zoom_pcm_stream_start. apply wlp_bind. unfold wlp at 1, get.
    rewrite Hst. cbn [state_eqb].
    apply wlp_bind. unfold wlp at 1, modify.
    apply wlp_bind, wp_wlp.
    eapply wp_mono; [|apply wp_interface_init_any].
    intros r1 rt1 c1 (Hu1 & Hc1 & [[-> Hs1] | [Hne Hs1]]).
    - cbn [Z.eqb negb]. apply wlp_bind. unfold wlp at 1, modify.
      apply wlp_bind, wp_wlp.
      eapply wp_mono; [|apply wp_start_submit_any].
      intros r2 rt2 c2 (Hu2 & Hc2 & Hr2). destruct r2 as [ret|].
      + unfold wlp. cbn. intros H. congruence.
      + apply wlp_bind. unfold wait_event_timeout.
        apply wlp_bind. unfold wlp at 1, emit.
        eapply wlp_mono; [|apply wait_event_signal].
        intros ? rt3 c3 [Hs3 H3].
        apply wlp_bind. unfold wlp at 1, get.
        destruct H3 as [Hw | [Hc3 Hu3]].
        * destruct (stream_wait_cond rt3).
          -- unfold wlp. cbn. intros _.
             repeat first [rewrite existsb_app
                          | progress cbn [existsb is_wake_up orb]].
             rewrite Hw, ?orb_true_r, ?orb_true_r. reflexivity.
          -- apply wlp_bind, wp_wlp.
             eapply wp_mono; [|apply zoom_pcm_stream_stop_spec].
             intros _ rt4 c4 _. unfold wlp. cbn. intros _.
             repeat first [rewrite existsb_app
                          | progress cbn [existsb is_wake_up orb]].
             rewrite Hw, ?orb_true_r, ?orb_true_r. reflexivity.
        * assert (Hc3' : stream_wait_cond rt3 = false).
          { rewrite Hc3, Hc2. cbn. rewrite Hc1. cbn. exact Hc. }
          rewrite Hc3'.
          apply wlp_bind, wp_wlp.
          eapply wp_mono; [|apply zoom_pcm_stream_stop_spec].
          intros _ rt4 c4 (Hs4 & _). unfold wlp. cbn. intros H. congruence.
    - destruct (Z.eqb_spec r1 0) as [|_]; [contradiction|]. cbn [negb].
      unfold wlp. cbn. intros H. congruence. }
  unfold wlp in Hgoal. rewrite Hrun in Hgoal. exact Hgoal.
Qed.

(* ===================================================================== *)
(** * Further properties of the code *)
(* ===================================================================== *)

(** ** The transcoder on a pointer into a larger block *)

Lemma rd8_shift (pre b : buf) (k : Z) :
  0 <= k -> rd8 (pre ++ b) (Z.of_nat (length pre) + k) = rd8 b k.
Proof.
  intros Hk. unfold rd8, buf in *.
  destruct (Z.ltb_spec (Z.of_nat (length pre) + k) 0); [lia|].
  destruct (Z.ltb_spec k 0); [lia|].
  rewrite lookup_app_r by lia. do 2 f_equal. lia.
Qed.

Lemma wr8_shift (pre b : buf) (k : Z) (v : byte) :
  0 <= k -> wr8 (pre ++ b) (Z.of_nat (length pre) + k) v = pre ++ wr8 b k v.
Proof.
  intros Hk. unfold wr8, buf in *.
  destruct (Z.ltb_spec (Z.of_nat (length pre) + k) 0); [lia|].
  destruct (Z.ltb_spec k 0); [lia|].
  rewrite insert_app_r_alt by lia. do 2 f_equal. lia.
Qed.

Lemma load_u32_shift (pre : buf) (p : u8ptr) (i : Z) :
  0 <= ofs p + 4 * i -> load_u32 (shift pre p) i = load_u32 p i.
Proof.
  intros H. unfold load_u32, shift. cbn [blk ofs].
  replace (Z.of_nat (length pre) + ofs p + 4 * i)
    with (Z.of_nat (length pre) + (ofs p + 4 * i)) by lia.
  rewrite <- !Z.add_assoc, !rd8_shift by lia. reflexivity.
Qed.

Lemma store_u32_shift (pre : buf) (p : u8ptr) (i : Z) (w : u32) :
  0 <= ofs p + 4 * i -> store_u32 (shift pre p) i w = shift pre (store_u32 p i w).
Proof.
  intros H. unfold store_u32, shift. destruct w as [b0 b1 b2 b3].
  cbn [blk ofs]. f_equal.
  replace (Z.of_nat (length pre) + ofs p + 4 * i)
    with (Z.of_nat (length pre) + (ofs p + 4 * i)) by lia.
  rewrite <- !Z.add_assoc, !wr8_shift by lia. reflexivity.
Qed.

Lemma uint_nonneg x : 0 <= uint x.
Proof. apply uint_range. Qed.

Lemma capture_frame_keeps n : forall dest src skip l i o,
  0 <= o ->
  ofs (capture_frame n dest src skip l i o).1.1.1 = ofs dest /\
  0 <= (capture_frame n dest src skip l i o).1.2.
Proof.
  induction n as [|n IH]; intros dest src skip l i o Ho; cbn [capture_frame].
  - cbn. auto.
  - destruct (negb (skip =? 0) && (i <? skip / 4)); [apply IH; exact Ho|].
    destruct (negb (l =? 0) && (l / 4 <=? o)); [cbn; auto|].
    destruct (IH (store_u32 dest o (load_u32 src i)) src skip l
                 (uint (i + 1)) (uint (o + 1)) (uint_nonneg _)) as [H1 H2].
    split; [|exact H2]. rewrite H1. destruct (load_u32 src i); reflexivity.
Qed.

Lemma capture_frame_shift pre n : forall dest src skip l i o,
  0 <= ofs dest -> 0 <= o ->
  capture_frame n (shift pre dest) src skip l i o
  = let r := capture_frame n dest src skip l i o in
    (shift pre r.1.1.1, r.1.1.2, r.1.2, r.2).
Proof.
  induction n as [|n IH]; intros dest src skip l i o Hd Ho;
    cbn [capture_frame].
  - reflexivity.
  - destruct (negb (skip =? 0) && (i <? skip / 4)); [apply IH; assumption|].
    destruct (negb (l =? 0) && (l / 4 <=? o)); [reflexivity|].
    rewrite store_u32_shift by lia. apply IH; [|apply uint_nonneg].
    destruct (load_u32 src i); exact Hd.
Qed.

Lemma capture_loop_shift pre fuel : forall dest src ch skip l i o,
  0 <= ofs dest -> 0 <= o ->
  capture_loop fuel (shift pre dest) src ch skip l i o
  = shift pre (capture_loop fuel dest src ch skip l i o).
Proof.
  induction fuel as [|fuel IH]; intros dest src ch skip l i o Hd Ho;
    cbn [capture_loop]; [reflexivity|].
  destruct (i <? PCM_URB_SIZE / 4); [|reflexivity].
  destruct (negb (i mod 32 =? 0)); [apply IH; assumption|].
  rewrite capture_frame_shift by assumption.
  pose proof (capture_frame_keeps (Z.to_nat ch) dest src skip l i o Ho)
    as [Hofs Ho'].
  destruct (capture_frame (Z.to_nat ch) dest src skip l i o)
    as [[[d' i'] o'] returned].
  cbn [fst snd] in *. destruct returned; [reflexivity|].
  apply IH; [rewrite Hofs; exact Hd | exact Ho'].
Qed.

(** [memcpy_pcm_capture] called on a pointer [off] bytes into a block
    leaves the bytes in front of the pointer alone and works behind it as
    on a block of its own. *)
Lemma memcpy_pcm_capture_at (area : buf) (off : nat) (src : u8ptr)
  (ch skip l : Z) :
  (off <= length area)%nat ->
  memcpy_pcm_capture (U8Ptr area (Z.of_nat off)) src ch skip l
  = take off area
    ++ memcpy_pcm_capture (U8Ptr (drop off area) 0) src ch skip l.
Proof.
  intros Hoff. unfold memcpy_pcm_capture.
  assert (Hptr : U8Ptr area (Z.of_nat off)
                 = shift (take off area) (U8Ptr (drop off area) 0)).
  { unfold shift. cbn [blk ofs]. unfold buf in *.
    rewrite take_drop, length_take_le by exact Hoff. f_equal. lia. }
  rewrite Hptr, capture_loop_shift by (cbn; lia). reflexivity.
Qed.

Lemma playback_frame_src_shift pre n : forall dest src i o,
  0 <= ofs src -> 0 <= o ->
  playback_frame n dest (shift pre src) i o = playback_frame n dest src i o
  /\ 0 <= (playback_frame n dest src i o).2.
Proof.
  induction n as [|n IH]; intros dest src i o Hs Ho; cbn [playback_frame].
  - split; [reflexivity | exact Ho].
  - rewrite load_u32_shift by lia. apply IH; [exact Hs | apply uint_nonneg].
Qed.

Lemma playback_loop_src_shift pre fuel : forall dest src ch i o,
  0 <= ofs src -> 0 <= o ->
  playback_loop fuel dest (shift pre src) ch i o
  = playback_loop fuel dest src ch i o.
Proof.
  induction fuel as [|fuel IH]; intros dest src ch i o Hs Ho;
    cbn [playback_loop]; [reflexivity|].
  destruct (i <? PCM_URB_SIZE / 4); [|reflexivity].
  destruct (negb (i mod 32 =? 0)); [apply IH; assumption|].
  destruct (playback_frame_src_shift pre (Z.to_nat ch) dest src i o Hs Ho)
    as [-> Ho'].
  destruct (playback_frame (Z.to_nat ch) dest src i o) as [[d' i'] o'].
  apply IH; [exact Hs | exact Ho'].
Qed.

(** [memcpy_pcm_playback] reading from a pointer [off] bytes into a block
    reads what lies behind the pointer. *)
Lemma memcpy_pcm_playback_from (dest : u8ptr) (area : buf) (off : nat)
  (ch : Z) :
  (off <= length area)%nat ->
  memcpy_pcm_playback dest (U8Ptr area (Z.of_nat off)) ch
  = memcpy_pcm_playback dest (U8Ptr (drop off area) 0) ch.
Proof.
  intros Hoff. unfold memcpy_pcm_playback.
  assert (Hptr : U8Ptr area (Z.of_nat off)
                 = shift (take off area) (U8Ptr (drop off area) 0)).
  { unfold shift. cbn [blk ofs]. unfold buf in *.
    rewrite take_drop, length_take_le by exact Hoff. f_equal. lia. }
  rewrite Hptr, playback_loop_src_shift by (cbn; lia). reflexivity.
Qed.

(** ** The transcoder in closed form *)

Lemma memcpy_pcm_capture_table (ch : Z) (packet head rest : buf) :
  1 <= ch <= 12 ->
  length packet = 512%nat ->
  length head = Z.to_nat (16 * ch) ->
  memcpy_pcm_capture (U8Ptr (head ++ rest) 0) (U8Ptr packet 0) ch 0 0
  = packet_payload ch packet ++ rest.
Proof.
  intros Hch Hp Hd. unfold buf in *.
  each_Z ch 1; tabulate_buf packet Hp; tabulate_buf head Hd;
    vm_compute; reflexivity.
Qed.

Lemma memcpy_pcm_capture_onto (ch : Z) (packet dest : buf) :
  1 <= ch <= 12 ->
  length packet = 512%nat ->
  (Z.to_nat (16 * ch) <= length dest)%nat ->
  memcpy_pcm_capture (U8Ptr dest 0) (U8Ptr packet 0) ch 0 0
  = packet_payload ch packet ++ drop (Z.to_nat (16 * ch)) dest.
Proof.
  intros Hch Hp Hd. unfold buf in *.
  rewrite <- (take_drop (Z.to_nat (16 * ch)) dest) at 1.
  apply memcpy_pcm_capture_table; [exact Hch | exact Hp |].
  apply length_take_le. exact Hd.
Qed.

(** X1.  For every capture channel count (1 to 12), every 512-byte packet
    and every destination that has room for four frames,
    [memcpy_pcm_capture] without skip and limit writes the payload of the
    packet (the first [ch] words of each of the four slots, in order) to
    the head of the destination and leaves the bytes behind it as they
    were. *)
Theorem memcpy_pcm_capture_extracts_payload (ch : Z) (packet dest : buf) :
  1 <= ch <= 12 ->
  length packet = 512%nat ->
  (Z.to_nat (16 * ch) <= length dest)%nat ->
  memcpy_pcm_capture (U8Ptr dest 0) (U8Ptr packet 0) ch 0 0
  = packet_payload ch packet ++ drop (Z.to_nat (16 * ch)) dest.
Proof. apply memcpy_pcm_capture_onto. Qed.

(** Decoding a packet of twelve channels into a destination of 200
    bytes. *)
Lemma memcpy_pcm_capture_extracts_payload_witness :
  memcpy_pcm_capture (U8Ptr (replicate 200 xaa) 0) (U8Ptr stale_packet 0)
                     12 0 0
  = packet_payload 12 stale_packet ++ drop (Z.to_nat (16 * 12))
                                           (replicate 200 xaa).
Proof.
  apply (memcpy_pcm_capture_extracts_payload 12 stale_packet
           (replicate 200 xaa));
    [lia | reflexivity | vm_compute; lia].
Defined.

Lemma memcpy_pcm_playback_table (ch : Z) (packet head rest : buf) :
  2 <= ch <= 4 ->
  length packet = 512%nat ->
  length head = Z.to_nat (16 * ch) ->
  memcpy_pcm_playback (U8Ptr packet 0) (U8Ptr (head ++ rest) 0) ch
  = playback_slot ch packet head 0 ++ playback_slot ch packet head 1
    ++ playback_slot ch packet head 2 ++ playback_slot ch packet head 3.
Proof.
  intros Hch Hp Hs. unfold buf in *.
  each_Z ch 2; tabulate_buf packet Hp; tabulate_buf head Hs;
    vm_compute; reflexivity.
Qed.

(** ** Copies between the ring buffer and a packet *)

Lemma memcpy_pcm_capture_at_offset (area : buf) (off : Z) (src : u8ptr)
  (ch skip l : Z) :
  0 <= off <= Z.of_nat (length area) ->
  memcpy_pcm_capture (U8Ptr area off) src ch skip l
  = take (Z.to_nat off) area
    ++ memcpy_pcm_capture (U8Ptr (drop (Z.to_nat off) area) 0) src ch skip l.
Proof.
  intros Hoff.
  replace (U8Ptr area off) with (U8Ptr area (Z.of_nat (Z.to_nat off)))
    by (f_equal; lia).
  apply memcpy_pcm_capture_at. lia.
Qed.

Lemma memcpy_pcm_playback_from_offset (dest : u8ptr) (area : buf) (off : Z)
  (ch : Z) :
  0 <= off <= Z.of_nat (length area) ->
  memcpy_pcm_playback dest (U8Ptr area off) ch
  = memcpy_pcm_playback dest (U8Ptr (drop (Z.to_nat off) area) 0) ch.
Proof.
  intros Hoff.
  replace (U8Ptr area off) with (U8Ptr area (Z.of_nat (Z.to_nat off)))
    by (f_equal; lia).
  apply memcpy_pcm_playback_from. lia.
Qed.

Lemma u8_small x : 0 <= x < 256 -> u8 x = x.
Proof. intros H. unfold u8. apply Z.mod_small. exact H. Qed.

(** ** Stopping, closing and aborting *)

(** X2.  [zoom_pcm_stream_stop] returns from every state with the stream
    DISABLED.  If the stream was not DISABLED no URB of either direction
    is in flight afterwards; a URB that was idle stays idle.  The panic
    flag, both substreams and the start condition are what they were, and
    the function calls nothing but the anchor wait and the two kill
    services: no completion handler resubmits during a stop. *)
Theorem zoom_pcm_stream_stop_leaves_nothing_in_flight
  (e : stop_env) (rt : pcm_runtime) :
  exists rt' calls,
    zoom_pcm_stream_stop e rt = Done tt rt' calls /\
    stream_state rt' = STREAM_DISABLED /\
    (stream_state rt <> STREAM_DISABLED ->
     forall d i, in_flight (urb d i rt') = false) /\
    (forall d i, in_flight (urb d i rt) = false ->
                 in_flight (urb d i rt') = false) /\
    panic rt' = panic rt /\
    playback rt' = playback rt /\
    capture rt' = capture rt /\
    stream_wait_cond rt' = stream_wait_cond rt /\
    forallb is_teardown calls = true.
Proof.
  pose proof (zoom_pcm_stream_stop_spec e rt) as H.
  apply wp_done in H
    as ([] & rt' & calls & Hrun & Hst & Hp & Hpl & Hc & Hw & Ht & Hk & Hi).
  exists rt', calls. repeat split; auto.
Qed.

(** X3.  [zoom_pcm_close] on a runtime that is not panicked, for either
    direction: it returns 0 and stops the whole stream, so that the
    transfers of both directions are cancelled; the substream of its own
    direction is unbound and inactive with its offsets kept, the substream
    of the other direction is untouched. *)
Theorem zoom_pcm_close_stops_both_directions
  (a : snd_pcm_substream) (w : which_sub) (e : stop_env) (rt : pcm_runtime) :
  panic rt = false ->
  zoom_pcm_get_substream a = Some w ->
  exists rt' calls,
    zoom_pcm_close a e rt = Done 0 rt' calls /\
    stream_state rt' = STREAM_DISABLED /\
    (stream_state rt <> STREAM_DISABLED ->
     forall d i, in_flight (urb d i rt') = false) /\
    substream w rt'
    = set_active false (set_instance None (substream w rt)) /\
    substream (other w) rt' = substream (other w) rt /\
    panic rt' = false /\
    stream_wait_cond rt' = stream_wait_cond rt.
Proof.
  intros Hp Hw.
  assert (Hgoal : wp (zoom_pcm_close a e) rt (fun r rt' calls =>
    r = 0 /\ stream_state rt' = STREAM_DISABLED /\
    (stream_state rt <> STREAM_DISABLED ->
     forall d i, in_flight (urb d i rt') = false) /\
    substream w rt'
    = set_active false (set_instance None (substream w rt)) /\
    substream (other w) rt' = substream (other w) rt /\
    panic rt' = false /\
    stream_wait_cond rt' = stream_wait_cond rt)).
  { unfold zoom_pcm_close. apply wp_bind, wp_get. rewrite Hp, Hw.
    apply wp_bind, wp_emit, wp_bind, wp_bind.
    eapply wp_mono; [|apply zoom_pcm_stream_stop_spec].
    intros _ rt1 c1 (Hst & Hp1 & Hpl & Hc & Hwc & Ht & Hk & Hi).
    apply wp_bind, wp_emit, wp_bind, wp_modify, wp_emit, wp_bind, wp_emit,
      wp_ret.
    split; [reflexivity|].
    destruct w; cbn; rewrite ?Hpl, ?Hc;
      (split; [exact Hst|]); (split; [exact Hi|]);
      (split; [reflexivity|]); (split; [reflexivity|]);
      (split; [congruence | exact Hwc]). }
  apply wp_done in Hgoal as (r & rt' & calls & Hrun & -> & H).
  exists rt', calls. split; [exact Hrun | exact H].
Qed.

Lemma zoom_pcm_close_stops_both_directions_witness :
  exists rt' calls,
    zoom_pcm_close (ring 1 marker_area) quiet_stop_env running_runtime
    = Done 0 rt' calls /\
    stream_state rt' = STREAM_DISABLED /\
    (stream_state running_runtime <> STREAM_DISABLED ->
     forall d i, in_flight (urb d i rt') = false) /\
    substream Capture rt'
    = set_active false
        (set_instance None (substream Capture running_runtime)) /\
    substream (other Capture) rt' = substream (other Capture) running_runtime /\
    panic rt' = false /\
    stream_wait_cond rt' = stream_wait_cond running_runtime.
Proof.
  apply (zoom_pcm_close_stops_both_directions (ring 1 marker_area) Capture
           quiet_stop_env running_runtime); reflexivity.
Defined.

(** X4.  [zoom_pcm_abort] returns from every state with the panic flag
    set, the stream DISABLED and, if the stream was not DISABLED, no URB
    in flight; both substreams are untouched.  Between taking and
    releasing the stream mutex it calls nothing but the anchor wait and
    the kill services. *)
Theorem zoom_pcm_abort_shuts_down (e : stop_env) (rt : pcm_runtime) :
  exists rt' calls,
    zoom_pcm_abort e rt
    = Done tt rt' (mutex_lock_call :: calls ++ [mutex_unlock_call]) /\
    forallb is_teardown calls = true /\
    panic rt' = true /\
    stream_state rt' = STREAM_DISABLED /\
    (stream_state rt <> STREAM_DISABLED ->
     forall d i, in_flight (urb d i rt') = false) /\
    playback rt' = playback rt /\
    capture rt' = capture rt.
Proof.
  pose proof (zoom_pcm_stream_stop_spec e (set_panic true rt)) as H.
  apply wp_done in H
    as ([] & rt' & calls & Hrun & Hst & Hp & Hpl & Hc & Hw & Ht & Hk & Hi).
  exists rt', calls.
  unfold zoom_pcm_abort, mbind, M_bind, modify, emit. rewrite Hrun.
  cbn [app]. split; [reflexivity|].
  repeat split; auto.
Qed.

(** X5.  Opening a direction and closing it again: on a runtime that is
    not panicked, with the stream DISABLED and the substream of the
    direction unbound and inactive, [zoom_pcm_open] returns 0 and binds
    the ALSA substream with the hardware description of the direction,
    and [zoom_pcm_close] right after it returns 0 and leaves the runtime
    exactly as it was before the open. *)
Theorem open_then_close_restores_runtime
  (a : snd_pcm_substream) (w : which_sub) (e : stop_env) (rt : pcm_runtime) :
  panic rt = false ->
  zoom_pcm_get_substream a = Some w ->
  stream_state rt = STREAM_DISABLED ->
  instance (substream w rt) = None ->
  active (substream w rt) = false ->
  exists rt1,
    zoom_pcm_open a rt = Done 0 rt1 [mutex_lock_call; mutex_unlock_call] /\
    instance (substream w rt1)
    = Some (set_runtime (set_hw (hw_of w) (runtime a)) a) /\
    active (substream w rt1) = false /\
    substream (other w) rt1 = substream (other w) rt /\
    zoom_pcm_close a e rt1
    = Done 0 rt [mutex_lock_call; spin_lock_call w; spin_unlock_call w;
                 mutex_unlock_call].
Proof.
  intros Hp Hw Hst Hi Ha.
  unfold zoom_pcm_get_substream in Hw.
  unfold zoom_pcm_open, zoom_pcm_close, zoom_pcm_get_substream,
    zoom_pcm_stream_stop, mbind, M_bind, get, modify, emit.
  rewrite Hp.
  destruct rt as [pl ca pa ou iu st wc]; cbn in *. subst pa st.
  destruct (stream a =? SNDRV_PCM_STREAM_PLAYBACK) eqn:E0.
  - apply Z.eqb_eq in E0. rewrite E0 in *. cbn in Hw |- *.
    injection Hw as <-. cbn in *.
    destruct pl as [ins ac d p]; cbn in *; subst ins ac.
    eexists. repeat split.
  - destruct (stream a =? SNDRV_PCM_STREAM_CAPTURE) eqn:E1; [|discriminate].
    injection Hw as <-. cbn in *.
    destruct ca as [ins ac d p]; cbn in *; subst ins ac.
    eexists. repeat split.
Qed.

Lemma open_then_close_restores_runtime_witness :
  exists rt1,
    zoom_pcm_open (ring 0 marker_area) fresh_runtime
    = Done 0 rt1 [mutex_lock_call; mutex_unlock_call] /\
    instance (substream Playback rt1)
    = Some (set_runtime (set_hw (hw_of Playback)
                                (runtime (ring 0 marker_area)))
                        (ring 0 marker_area)) /\
    active (substream Playback rt1) = false /\
    substream (other Playback) rt1 = substream (other Playback) fresh_runtime /\
    zoom_pcm_close (ring 0 marker_area) quiet_stop_env rt1
    = Done 0 fresh_runtime
        [mutex_lock_call; spin_lock_call Playback; spin_unlock_call Playback;
         mutex_unlock_call].
Proof.
  apply (open_then_close_restores_runtime (ring 0 marker_area) Playback
           quiet_stop_env fresh_runtime); reflexivity.
Defined.

(** ** The position query *)

(** X6.  [zoom_pcm_pointer] on a runtime that is not panicked: with a
    non-zero frame size and the byte offset of the substream inside a ring
    of at most the advertised 1 MiB, it returns the offset in frames,
    which is a valid position of the ring (less than [buffer_size]); it
    takes and releases the lock of the substream and changes nothing. *)
Theorem zoom_pcm_pointer_within_buffer
  (a : snd_pcm_substream) (w : which_sub) (rt : pcm_runtime) :
  panic rt = false ->
  zoom_pcm_get_substream a = Some w ->
  0 < frame_bits (runtime a) ->
  snd_pcm_lib_buffer_bytes a <= buffer_bytes_max (hw_of w) ->
  0 <= dma_off (substream w rt) < snd_pcm_lib_buffer_bytes a ->
  exists pos,
    zoom_pcm_pointer a rt
    = Done pos rt [spin_lock_call w; spin_unlock_call w] /\
    pos = dma_off (substream w rt) * 8 / frame_bits (runtime a) /\
    0 <= pos < buffer_size (runtime a).
Proof.
  intros Hp Hw Hfb Hmax Hd.
  set (d := dma_off (substream w rt)) in *.
  set (fb := frame_bits (runtime a)) in *.
  assert (Hmax' : snd_pcm_lib_buffer_bytes a <= 1048576)
    by (destruct w; exact Hmax).
  unfold snd_pcm_lib_buffer_bytes in *. fold fb in Hd, Hmax'.
  set (bs := buffer_size (runtime a)) in *.
  assert (H8 : 8 * (bs * fb / 8) <= bs * fb)
    by (apply Z.mul_div_le; lia).
  assert (Hlt : d * 8 / fb < bs)
    by (apply Z.div_lt_upper_bound; lia).
  assert (Hge : 0 <= d * 8 / fb) by (apply Z.div_pos; lia).
  assert (Hle : d * 8 / fb <= d * 8)
    by (apply Z.div_le_upper_bound; nia).
  exists (d * 8 / fb).
  unfold zoom_pcm_pointer, bytes_to_frames, mbind, M_bind, get, emit.
  rewrite Hp, Hw. fold d fb.
  destruct (Z.eqb_spec fb 0) as [|_]; [lia|].
  cbn. rewrite ulong_small by lia.
  repeat split; lia.
Qed.

Lemma zoom_pcm_pointer_within_buffer_witness :
  exists pos,
    zoom_pcm_pointer (ring 1 marker_area)
                     (set_capture (sub_at 1 marker_area 992 0) fresh_runtime)
    = Done pos (set_capture (sub_at 1 marker_area 992 0) fresh_runtime)
           [spin_lock_call Capture; spin_unlock_call Capture] /\
    pos = dma_off (substream Capture
                     (set_capture (sub_at 1 marker_area 992 0) fresh_runtime))
          * 8 / frame_bits (runtime (ring 1 marker_area)) /\
    0 <= pos < buffer_size (runtime (ring 1 marker_area)).
Proof.
  apply (zoom_pcm_pointer_within_buffer (ring 1 marker_area) Capture
           (set_capture (sub_at 1 marker_area 992 0) fresh_runtime));
    [ reflexivity | reflexivity | reflexivity
    | vm_compute; discriminate
    | vm_compute; split; [discriminate | reflexivity] ].
Defined.

(** ** Several packets in a row *)




(** ** Completion handlers *)

Lemma memset_zero_whole (b : buf) :
  length b = 512%nat -> memset_zero b PCM_URB_SIZE = replicate 512 x00.
Proof.
  intros H. unfold memset_zero, PCM_URB_SIZE, buf in *.
  rewrite H, drop_ge by (rewrite H; vm_compute; lia).
  rewrite app_nil_r. reflexivity.
Qed.

Lemma urb_set_urb_other d i u rt d' j :
  (d, i) <> (d', j) -> urb d' j (set_urb d i u rt) = urb d' j rt.
Proof.
  intros Hne. unfold urb, set_urb.
  destruct d, d'; cbn; try reflexivity;
    (destruct (decide (i = j)) as [->|Hij];
     [contradiction | rewrite vlookup_insert_ne by exact Hij; reflexivity]).
Qed.

(** Looking up a URB through updates of the other fields. *)
Ltac strip_urb :=
  repeat match goal with
         | |- context [urb ?d ?j (set_panic ?b ?r)] =>
             change (urb d j (set_panic b r)) with (urb d j r)
         | |- context [urb ?d ?j (set_stream_wait_cond ?b ?r)] =>
             change (urb d j (set_stream_wait_cond b r)) with (urb d j r)
         | |- context [urb ?d ?j (set_stream_state ?b ?r)] =>
             change (urb d j (set_stream_state b r)) with (urb d j r)
         | |- context [urb ?d ?j (set_playback ?b ?r)] =>
             change (urb d j (set_playback b r)) with (urb d j r)
         | |- context [urb ?d ?j (set_capture ?b ?r)] =>
             change (urb d j (set_capture b r)) with (urb d j r)
         end.

(** The out-URB handler while the playback substream is inactive. *)
Lemma out_handler_inactive
  (i : fin PCM_N_URBS) (status resubmit : Z) (rt : pcm_runtime) :
  panic rt = false ->
  stream_state rt <> STREAM_STOPPING ->
  fatal_status status = false ->
  active (playback rt) = false ->
  exists rt' calls,
    zoom_pcm_out_urb_handler i status resubmit rt = Done tt rt' calls /\
    buffer (urb DirOut i rt')
    = memset_zero (buffer (urb DirOut i rt)) PCM_URB_SIZE /\
    in_flight (urb DirOut i rt')
    = (resubmit =? 0) || in_flight (urb DirOut i rt) /\
    panic rt' = (resubmit <? 0) /\
    In (usb_submit_urb_call DirOut i) calls /\
    ~ In (snd_pcm_period_elapsed_call Playback) calls /\
    playback rt' = playback rt /\
    capture rt' = capture rt /\
    stream_state rt' = stream_state rt /\
    (forall d j, (DirOut, i) <> (d, j) -> urb d j rt' = urb d j rt) /\
    stream_wait_cond rt'
    = state_eqb (stream_state rt) STREAM_STARTING || stream_wait_cond rt /\
    existsb is_wake_up calls = state_eqb (stream_state rt) STREAM_STARTING.
Proof.
  intros Hp Hs Hf Ha.
  unfold zoom_pcm_out_urb_handler, usb_submit_urb, mbind, M_bind, get,
    modify, emit.
  rewrite Hp, Hf, Ha, (state_eqb_neq _ _ Hs). cbn [orb].
  destruct (state_eqb (stream_state rt) STREAM_STARTING);
    destruct (resubmit =? 0) eqn:E0; cbv beta iota delta [mret M_ret];
    destruct (resubmit <? 0) eqn:E1;
    cbv beta iota fix delta [mret M_ret app];
    (eexists _, _; split; [reflexivity|]).
  all: strip_urb; rewrite ?urb_set_urb_same; strip_urb.
  all: cbn [set_panic set_stream_wait_cond panic playback capture
            stream_state stream_wait_cond buffer in_flight set_buffer
            set_in_flight orb].
  all: split; [reflexivity|].
  all: split; [reflexivity|].
  all: split; [first [reflexivity | exact Hp]|].
  all: split; [cbn; auto 10|].
  all: split; [cbn; intros H;
               repeat (destruct H as [H|H]; [discriminate H|]); exact H|].
  all: split; [reflexivity|].
  all: split; [reflexivity|].
  all: split; [reflexivity|].
  all: split;
    [ intros d j Hne;
      repeat first [ rewrite urb_set_urb_other by exact Hne
                   | progress strip_urb ];
      reflexivity |].
  all: split; reflexivity.
Qed.

(** X8.  An out-URB completes while the playback substream is inactive
    (runtime not panicked, stream not STOPPING, status not fatal): the
    handler returns, the whole packet of the URB is zeroed (silence) and
    the URB is handed to [usb_submit_urb] again; the URB is in flight iff
    the submission was accepted, the panic flag is set iff it answered a
    negative code; no period is reported, both substreams, the stream
    state and every other URB are untouched. *)
Theorem out_handler_sends_silence_when_inactive
  (i : fin PCM_N_URBS) (status resubmit : Z) (rt : pcm_runtime) :
  panic rt = false ->
  stream_state rt <> STREAM_STOPPING ->
  fatal_status status = false ->
  active (playback rt) = false ->
  length (buffer (urb DirOut i rt)) = 512%nat ->
  in_flight (urb DirOut i rt) = false ->
  exists rt' calls,
    zoom_pcm_out_urb_handler i status resubmit rt = Done tt rt' calls /\
    buffer (urb DirOut i rt') = replicate 512 x00 /\
    in_flight (urb DirOut i rt') = (resubmit =? 0) /\
    panic rt' = (resubmit <? 0) /\
    In (usb_submit_urb_call DirOut i) calls /\
    ~ In (snd_pcm_period_elapsed_call Playback) calls /\
    playback rt' = playback rt /\
    capture rt' = capture rt /\
    stream_state rt' = stream_state rt /\
    (forall d j, (DirOut, i) <> (d, j) -> urb d j rt' = urb d j rt).
Proof.
  intros Hp Hs Hf Ha Hl Hfl.
  destruct (out_handler_inactive i status resubmit rt Hp Hs Hf Ha)
    as (rt' & calls & Hrun & Hb & Hi & Hpa & Hsub & Hper & Hpl & Hca & Hst
        & Hoth & _).
  exists rt', calls. rewrite Hfl, orb_false_r in Hi.
  rewrite (memset_zero_whole _ Hl) in Hb.
  repeat (split; [assumption|]). assumption.
Qed.

Lemma out_handler_sends_silence_when_inactive_witness :
  exists rt' calls,
    zoom_pcm_out_urb_handler 2%fin 0 0 streaming_runtime
    = Done tt rt' calls /\
    buffer (urb DirOut 2%fin rt') = replicate 512 x00 /\
    in_flight (urb DirOut 2%fin rt') = (0 =? 0) /\
    panic rt' = (0 <? 0) /\
    In (usb_submit_urb_call DirOut 2%fin) calls /\
    ~ In (snd_pcm_period_elapsed_call Playback) calls /\
    playback rt' = playback streaming_runtime /\
    capture rt' = capture streaming_runtime /\
    stream_state rt' = stream_state streaming_runtime /\
    (forall d j, (DirOut, 2%fin) <> (d, j) ->
                 urb d j rt' = urb d j streaming_runtime).
Proof.
  apply (out_handler_sends_silence_when_inactive 2%fin 0 0 streaming_runtime);
    first [reflexivity | discriminate].
Defined.

Lemma buffer_urb_resubmitted d i f rt d' j :
  buffer (urb d' j (set_urb d i (set_in_flight f (urb d i rt)) rt))
  = buffer (urb d' j rt).
Proof.
  unfold urb, set_urb.
  destruct d, d'; cbn; try reflexivity;
    (destruct (decide (i = j)) as [->|Hij];
     [ rewrite vlookup_insert; reflexivity
     | rewrite vlookup_insert_ne by exact Hij; reflexivity ]).
Qed.

(** X9.  An in-URB completes while the capture substream is inactive
    (runtime not panicked, stream not STOPPING, status not fatal): the
    handler returns and the packet is dropped: both substreams (and with
    them the ring buffer), the stream state, the start condition and the
    buffer of every URB are untouched; the URB is handed to
    [usb_submit_urb] again and the panic flag is set iff that answered a
    negative code. *)
Theorem in_handler_drops_packet_when_inactive
  (i : fin PCM_N_URBS) (status resubmit : Z) (rt : pcm_runtime) :
  panic rt = false ->
  stream_state rt <> STREAM_STOPPING ->
  fatal_status status = false ->
  active (capture rt) = false ->
  exists rt',
    zoom_pcm_in_urb_handler i status resubmit rt
    = Done tt rt' [spin_lock_call Capture; spin_unlock_call Capture;
                   usb_submit_urb_call DirIn i] /\
    panic rt' = (resubmit <? 0) /\
    playback rt' = playback rt /\
    capture rt' = capture rt /\
    stream_state rt' = stream_state rt /\
    stream_wait_cond rt' = stream_wait_cond rt /\
    (forall d j, buffer (urb d j rt') = buffer (urb d j rt)) /\
    (forall d j, (DirIn, i) <> (d, j) -> urb d j rt' = urb d j rt).
Proof.
  intros Hp Hs Hf Ha.
  unfold zoom_pcm_in_urb_handler, usb_submit_urb, mbind, M_bind, get,
    modify, emit.
  rewrite Hp, Hf, Ha, (state_eqb_neq _ _ Hs). cbn [orb].
  destruct (resubmit =? 0) eqn:E0; cbv beta iota delta [mret M_ret];
    destruct (resubmit <? 0) eqn:E1;
    cbv beta iota fix delta [mret M_ret app];
    (eexists; split; [reflexivity|]);
    (split; [first [reflexivity | exact Hp]|]);
    (split; [reflexivity|]); (split; [reflexivity|]);
    (split; [reflexivity|]); (split; [reflexivity|]);
    (split;
     [ intros d j;
       repeat match goal with
              | |- context [urb d j (set_panic ?b ?r)] =>
                  change (urb d j (set_panic b r)) with (urb d j r)
              end;
       first [reflexivity | apply buffer_urb_resubmitted]
     | intros d j Hne;
       repeat match goal with
              | |- context [urb d j (set_panic ?b ?r)] =>
                  change (urb d j (set_panic b r)) with (urb d j r)
              end;
       first [reflexivity | apply urb_set_urb_other; exact Hne] ]).
Qed.

Lemma in_handler_drops_packet_when_inactive_witness :
  exists rt',
    zoom_pcm_in_urb_handler 1%fin 0 (- ENOMEM) streaming_runtime
    = Done tt rt' [spin_lock_call Capture; spin_unlock_call Capture;
                   usb_submit_urb_call DirIn 1%fin] /\
    panic rt' = (- ENOMEM <? 0) /\
    playback rt' = playback streaming_runtime /\
    capture rt' = capture streaming_runtime /\
    stream_state rt' = stream_state streaming_runtime /\
    stream_wait_cond rt' = stream_wait_cond streaming_runtime /\
    (forall d j, buffer (urb d j rt') = buffer (urb d j streaming_runtime)) /\
    (forall d j, (DirIn, 1%fin) <> (d, j) ->
                 urb d j rt' = urb d j streaming_runtime).
Proof.
  apply (in_handler_drops_packet_when_inactive 1%fin 0 (- ENOMEM)
           streaming_runtime);
    first [reflexivity | discriminate].
Defined.

(** X10.  Whatever a completion handler that runs to its end does with the
    audio data (runtime not panicked, stream not STOPPING, status not
    fatal), the last thing it calls is [usb_submit_urb] on its own URB,
    and that is its only submission; it sets the panic flag iff the
    submission answered a negative code, and a URB whose submission was
    accepted is in flight again. *)
Theorem handler_resubmits_and_latches_refusal
  (d : direction) (i : fin PCM_N_URBS) (status resubmit : Z)
  (rt rt' : pcm_runtime) (calls : list call) :
  panic rt = false ->
  stream_state rt <> STREAM_STOPPING ->
  fatal_status status = false ->
  completion_handler d i status resubmit rt = Done tt rt' calls ->
  panic rt' = (resubmit <? 0) /\
  (resubmit = 0 -> in_flight (urb d i rt') = true) /\
  stream_state rt' = stream_state rt /\
  exists before,
    calls = before ++ [usb_submit_urb_call d i] /\
    existsb is_submit before = false.
Proof.
  intros Hp Hs Hf Hrun.
  destruct d; cbn [completion_handler] in Hrun;
    unfold zoom_pcm_out_urb_handler, zoom_pcm_in_urb_handler, usb_submit_urb,
      mbind, M_bind, get, modify, emit, fault in Hrun;
    rewrite Hp, Hf, (state_eqb_neq _ _ Hs) in Hrun; cbn [orb] in Hrun;
    revert Hrun; crunch; intros Hrun; try discriminate Hrun.
  all: cbv beta iota fix delta [app] in Hrun.
  all: injection Hrun as <- <-.
  all: (split; [first [reflexivity | exact Hp]|]).
  all: (split;
     [ intros Hz;
       first [ subst resubmit; discriminate
             | unfold urb, set_urb;
               cbn [urbs set_urbs set_out_urbs set_in_urbs set_panic
                    out_urbs in_urbs];
               rewrite vlookup_insert; reflexivity ]|]).
  all: (split; [reflexivity|]).
  all: match goal with
    | |- exists before, ?l = _ /\ _ =>
        exists (removelast l); split; reflexivity
    end.
Qed.

Lemma handler_resubmits_and_latches_refusal_witness :
  panic (state_after (completion_handler DirIn 3%fin 0 (- ENODEV))
                     streaming_runtime) = (- ENODEV <? 0) /\
  (- ENODEV = 0 ->
   in_flight (urb DirIn 3%fin
                  (state_after (completion_handler DirIn 3%fin 0 (- ENODEV))
                               streaming_runtime)) = true) /\
  stream_state (state_after (completion_handler DirIn 3%fin 0 (- ENODEV))
                            streaming_runtime)
  = stream_state streaming_runtime /\
  exists before,
    calls_of (completion_handler DirIn 3%fin 0 (- ENODEV)) streaming_runtime
    = before ++ [usb_submit_urb_call DirIn 3%fin] /\
    existsb is_submit before = false.
Proof.
  apply (handler_resubmits_and_latches_refusal DirIn 3%fin 0 (- ENODEV)
           streaming_runtime);
    first [reflexivity | discriminate].
Defined.

(** ** What the completion handlers leave alone *)

Lemma advance_keeps (sub sub' : pcm_substream) (bs len ps : Z) (e : bool) :
  advance sub bs len ps = Some (sub', e) ->
  active sub' = active sub /\ instance sub' = instance sub.
Proof.
  unfold advance.
  repeat match goal with
         | |- context [if ?b then _ else _] => destruct b
         end;
    intros H; try discriminate H; injection H as <- <-; split; reflexivity.
Qed.

Lemma zoom_pcm_capture_keeps_active sub urb sub' e :
  zoom_pcm_capture sub urb = Some (sub', e) -> active sub' = active sub.
Proof.
  unfold zoom_pcm_capture. destruct (instance sub); [|discriminate].
  cbv zeta. intros H. apply advance_keeps in H as [H _]. exact H.
Qed.

Lemma zoom_pcm_playback_keeps_active sub urb r :
  zoom_pcm_playback sub urb = Some r -> active r.1.1 = active sub.
Proof.
  unfold zoom_pcm_playback. destruct (instance sub); [|discriminate].
  cbv zeta.
  match goal with
  | |- context [advance ?s ?b ?l ?p] =>
      destruct (advance s b l p) as [[s1 e1]|] eqn:Hadv; [|discriminate]
  end.
  intros H. injection H as <-.
  apply advance_keeps in Hadv as [H _]. exact H.
Qed.

Lemma handler_frame_refl rt : handler_frame rt rt.
Proof. repeat split; auto. Qed.

Lemma handler_frame_trans rt1 rt2 rt3 :
  handler_frame rt1 rt2 -> handler_frame rt2 rt3 -> handler_frame rt1 rt3.
Proof.
  intros (Hs1 & Ha1 & Hi1 & Hp1 & Hc1) (Hs2 & Ha2 & Hi2 & Hp2 & Hc2).
  split; [congruence|]. split; [intros w; rewrite Ha2; apply Ha1|].
  split; [|split; auto].
  intros w Hw. rewrite Hi2, Hi1; auto. rewrite Hi1; auto.
Qed.

Lemma handler_frame_set_urb d i u rt : handler_frame rt (set_urb d i u rt).
Proof. destruct d; repeat split; auto. Qed.

Lemma in_handler_frame i status resubmit rt :
  wlp (zoom_pcm_in_urb_handler i status resubmit) rt
      (fun _ rt' _ => handler_frame rt rt').
Proof.
  unfold wlp, zoom_pcm_in_urb_handler, usb_submit_urb, mbind, M_bind, get,
    modify, emit, fault.
  crunch; try exact I.
  all: try match goal with
           | H : zoom_pcm_capture _ _ = Some _ |- _ =>
               apply zoom_pcm_capture_keeps_active in H
           end.
  all: unfold handler_frame.
  all: split; [reflexivity|].
  all: split; [intros []; cbn; congruence|].
  all: split; [intros []; cbn; congruence|].
  all: split; cbn; congruence.
Qed.

Lemma out_handler_frame i status resubmit rt :
  wlp (zoom_pcm_out_urb_handler i status resubmit) rt
      (fun _ rt' _ => handler_frame rt rt').
Proof.
  unfold wlp, zoom_pcm_out_urb_handler, usb_submit_urb, mbind, M_bind, get,
    modify, emit, fault.
  crunch; try exact I.
  all: try match goal with
           | H : zoom_pcm_playback _ _ = Some _ |- _ =>
               apply zoom_pcm_playback_keeps_active in H; cbn [fst] in H
           end.
  all: unfold handler_frame.
  all: split; [reflexivity|].
  all: split; [intros []; cbn; congruence|].
  all: split; [intros []; cbn; congruence|].
  all: split; cbn; congruence.
Qed.

Lemma giveback_frame c rt :
  wlp (giveback c) rt (fun _ rt' _ => handler_frame rt rt').
Proof.
  unfold giveback. apply wlp_bind. unfold wlp at 1, get.
  destruct (in_flight (urb (c_dir c) (c_idx c) rt));
    [|apply handler_frame_refl].
  apply wlp_bind. unfold wlp at 1, modify.
  match goal with
  | |- context [set_urb ?d ?i ?u rt] => set (rt1 := set_urb d i u rt)
  end.
  assert (H1 : handler_frame rt rt1) by apply handler_frame_set_urb.
  destruct (c_dir c);
    (eapply wlp_mono;
     [|first [apply out_handler_frame | apply in_handler_frame]]);
    intros ? rt2 c2 H2; cbn beta in H2;
    exact (handler_frame_trans _ _ _ H1 H2).
Qed.

Lemma wait_event_frame window : forall rt,
  wlp (wait_event window) rt (fun _ rt' _ => handler_frame rt rt').
Proof.
  induction window as [|c window IH]; intros rt; cbn [wait_event].
  - apply handler_frame_refl.
  - apply wlp_bind. unfold wlp at 1, get.
    destruct (stream_wait_cond rt); [apply handler_frame_refl|].
    apply wlp_bind.
    eapply wlp_mono; [|apply giveback_frame].
    intros ? rt1 c1 H1. cbn beta in H1.
    eapply wlp_mono; [|apply IH].
    intros ? rt2 c2 H2. cbn beta in H2.
    exact (handler_frame_trans _ _ _ H1 H2).
Qed.

(** X11.  When the USB core gives a URB back, whatever the completion and
    the state of the runtime, the handler that runs changes neither the
    stream state nor the flag [active] of a substream; a substream that is
    inactive is left exactly as it was (its binding, its offsets, its ring
    buffer); a panic flag or start condition that was set stays set. *)
Theorem giveback_leaves_inactive_substreams
  (c : completion) (rt rt' : pcm_runtime) (calls : list call) :
  giveback c rt = Done tt rt' calls ->
  stream_state rt' = stream_state rt /\
  (forall w, active (substream w rt') = active (substream w rt)) /\
  (forall w, active (substream w rt) = false ->
             substream w rt' = substream w rt) /\
  (panic rt = true -> panic rt' = true) /\
  (stream_wait_cond rt = true -> stream_wait_cond rt' = true).
Proof.
  intros Hrun. pose proof (giveback_frame c rt) as H.
  unfold wlp in H. rewrite Hrun in H. exact H.
Qed.

Lemma giveback_leaves_inactive_substreams_witness :
  stream_state (state_after (giveback first_out_completion) running_runtime)
  = stream_state running_runtime /\
  (forall w,
     active (substream w (state_after (giveback first_out_completion)
                                      running_runtime))
     = active (substream w running_runtime)) /\
  (forall w, active (substream w running_runtime) = false ->
             substream w (state_after (giveback first_out_completion)
                                      running_runtime)
             = substream w running_runtime) /\
  (panic running_runtime = true ->
   panic (state_after (giveback first_out_completion) running_runtime)
   = true) /\
  (stream_wait_cond running_runtime = true ->
   stream_wait_cond (state_after (giveback first_out_completion)
                                 running_runtime) = true).
Proof.
  apply (giveback_leaves_inactive_substreams first_out_completion
           running_runtime
           (state_after (giveback first_out_completion) running_runtime)
           (calls_of (giveback first_out_completion) running_runtime)).
  vm_compute. reflexivity.
Defined.

(** ** Outcomes of a start *)

Lemma teardown_no_wait calls :
  teardown_only calls -> existsb is_wait_event calls = false.
Proof.
  unfold teardown_only. induction calls as [|c calls IH]; [reflexivity|].
  cbn [forallb existsb]. rewrite andb_true_iff. intros [Hc Hrest].
  rewrite (IH Hrest). destruct c; (discriminate Hc || reflexivity).
Qed.

Lemma no_wait_app c1 c2 :
  existsb is_wait_event c1 = false -> existsb is_wait_event c2 = false ->
  existsb is_wait_event (c1 ++ c2) = false.
Proof. intros H1 H2. rewrite existsb_app, H1, H2. reflexivity. Qed.

(** The forced stop of a start that has left DISABLED. *)
Lemma wp_forced_stop (e : stop_env) (ret : Z) (rt0 rt1 : pcm_runtime) :
  same_control rt0 rt1 ->
  stream_state rt0 <> STREAM_DISABLED ->
  wp (zoom_pcm_stream_stop e;; mret (Some ret)) rt1 (fun r rt' calls =>
    r = Some ret /\
    stream_state rt' = STREAM_DISABLED /\
    (forall d j, idle d j rt') /\
    panic rt' = panic rt0 /\
    playback rt' = playback rt0 /\ capture rt' = capture rt0 /\
    stream_wait_cond rt' = stream_wait_cond rt0 /\
    existsb is_wait_event calls = false).
Proof.
  intros (Hp & Hs & Hpl & Hca & Hc) Hne. apply wp_bind.
  eapply wp_mono; [|apply zoom_pcm_stream_stop_spec].
  intros _ rt2 c2 (Hst2 & Hp2 & Hpl2 & Hca2 & Hc2 & Ht & _ & Hidle).
  apply wp_ret. split; [reflexivity|]. split; [exact Hst2|].
  split; [apply Hidle; congruence|].
  repeat (split; [congruence|]).
  apply no_wait_app; [apply teardown_no_wait; exact Ht | reflexivity].
Qed.

Lemma wp_usb_submit_exact d i answer rt :
  wp (usb_submit_urb d i answer) rt (fun r rt' calls =>
    r = answer /\ calls = [usb_submit_urb_call d i] /\
    rt' = if answer =? 0
          then set_urb d i (set_in_flight true (urb d i rt)) rt else rt).
Proof.
  unfold wp, usb_submit_urb, mbind, M_bind, get, emit, modify.
  destruct (answer =? 0); cbn; repeat split.
Qed.

Lemma same_control_submitted d i (b : bool) rt :
  same_control rt
    (if b then set_urb d i (set_in_flight true (urb d i rt)) rt else rt).
Proof.
  destruct b; [apply same_control_set_urb | apply same_control_refl].
Qed.

(** The submission loop, whatever the kernel answers: it runs to its end
    with the control part of the runtime as it was, or it has been refused
    a submission, has stopped the stream and returns the code of the
    refusal. *)
Lemma wp_start_submit_outcome e l : forall rt,
  stream_state rt <> STREAM_DISABLED ->
  wp (start_submit e l) rt (fun r rt' calls =>
    existsb is_wait_event calls = false /\
    panic rt' = panic rt /\
    playback rt' = playback rt /\ capture rt' = capture rt /\
    stream_wait_cond rt' = stream_wait_cond rt /\
    match r with
    | Some ret =>
        ret <> 0 /\
        (exists i, i ∈ l /\ (ret = submit_out e i \/ ret = submit_in e i)) /\
        stream_state rt' = STREAM_DISABLED /\
        (forall d j, idle d j rt')
    | None =>
        stream_state rt' = stream_state rt /\
        (forall i, i ∈ l -> submit_out e i = 0 /\ submit_in e i = 0)
    end).
Proof.
  induction l as [|i l IH]; intros rt Hne; cbn [start_submit].
  - apply wp_ret. repeat split; auto;
      match goal with H : _ ∈ [] |- _ => inversion H end.
  - apply wp_bind, wp_get, wp_bind, wp_modify, wp_bind, wp_emit, wp_bind.
    eapply wp_mono; [|apply wp_usb_submit_exact].
    intros r rt1 c1 (-> & -> & Hrt1).
    assert (Hsc01 : same_control rt rt1).
    { eapply same_control_trans; [apply same_control_set_urb|].
      rewrite Hrt1. apply same_control_submitted. }
    destruct (Z.eqb_spec (submit_out e i) 0) as [Ho|Ho]; cbn [negb].
    + apply wp_bind, wp_emit, wp_bind.
      eapply wp_mono; [|apply wp_usb_submit_exact].
      intros r rt2 c2 (-> & -> & Hrt2).
      assert (Hsc02 : same_control rt rt2).
      { eapply same_control_trans; [exact Hsc01|].
        rewrite Hrt2. apply same_control_submitted. }
      destruct (Z.eqb_spec (submit_in e i) 0) as [Hi|Hi]; cbn [negb].
      * eapply wp_mono; [|apply IH].
        -- intros r rt' calls (Hw & Hp & Hpl & Hca & Hc & Hr).
           destruct Hsc02 as (Hp2 & Hs2 & Hpl2 & Hca2 & Hc2).
           split; [cbn; exact Hw|].
           repeat (split; [congruence|]).
           destruct r as [ret|].
           ++ destruct Hr as (Hret & (j & Hj & Hor) & Hst & Hidle).
              split; [exact Hret|]. split; [|split; assumption].
              exists j. split; [apply elem_of_cons; right; exact Hj | exact Hor].
           ++ destruct Hr as (Hst & Hall). split; [congruence|].
              intros j Hj. apply elem_of_cons in Hj as [->|Hj]; auto.
        -- destruct Hsc02 as (_ & -> & _). exact Hne.
      * eapply wp_mono; [|apply (wp_forced_stop _ _ rt rt2 Hsc02 Hne)].
        intros r rt' calls (-> & Hst & Hidle & Hp & Hpl & Hca & Hc & Hw).
        split; [cbn; exact Hw|].
        repeat (split; [assumption|]).
        split; [|split; assumption].
        exists i. split; [apply elem_of_cons; left; reflexivity
                         | right; reflexivity].
    + eapply wp_mono; [|apply (wp_forced_stop _ _ rt rt1 Hsc01 Hne)].
      intros r rt' calls (-> & Hst & Hidle & Hp & Hpl & Hca & Hc & Hw).
      split; [cbn; exact Hw|].
      repeat (split; [assumption|]).
      split; [|split; assumption].
      exists i. split; [apply elem_of_cons; left; reflexivity
                       | left; reflexivity].
Qed.

(** On a DISABLED stream [zoom_interface_init] changes nothing: its stop
    on failure finds nothing to stop. *)
Lemma zoom_interface_init_disabled answer1 answer2 e rt :
  stream_state rt = STREAM_DISABLED ->
  exists calls,
    zoom_interface_init answer1 answer2 e rt
    = Done (if (answer1 =? 0) && (answer2 =? 0) then 0 else - EIO) rt calls /\
    existsb is_wait_event calls = false.
Proof.
  intros Hst.
  pose proof (zoom_pcm_stream_stop_disabled e rt Hst) as Hstop.
  unfold zoom_interface_init, mbind, M_bind, emit.
  destruct (answer1 =? 0); cbn [negb andb].
  - destruct (answer2 =? 0); cbn [negb andb].
    + eexists. split; reflexivity.
    + rewrite Hstop. eexists. split; reflexivity.
  - rewrite Hstop. eexists. split; reflexivity.
Qed.

(** Every way [zoom_pcm_stream_start] can end on a DISABLED stream. *)
Lemma wlp_stream_start (e : start_env) (rt : pcm_runtime) :
  stream_state rt = STREAM_DISABLED ->
  wlp (zoom_pcm_stream_start e) rt (fun r rt' calls =>
    (r = 0 /\ stream_state rt' = STREAM_RUNNING /\
     stream_wait_cond rt' = true
     \/
     r <> 0 /\ stream_state rt' = STREAM_DISABLED /\
     ((forall d j, idle d j rt) -> forall d j, idle d j rt')) /\
    (forall w, active (substream w rt') = active (substream w rt)) /\
    (forall w, active (substream w rt) = false ->
               substream w rt' = substream w rt)).
Proof.
  intros Hst.
  unfold zoom_pcm_stream_start. apply wlp_bind. unfold wlp at 1, get.
  rewrite Hst. cbn [state_eqb].
  apply wlp_bind. unfold wlp at 1, modify.
  set (rt0 := set_panic false rt).
  assert (Hst0 : stream_state rt0 = STREAM_DISABLED) by exact Hst.
  apply wlp_bind.
  destruct (zoom_interface_init_disabled (set_interface_1 e)
              (set_interface_2 e) (forced_stop e) rt0 Hst0)
    as (c0 & Hinit & _).
  unfold wlp at 1. rewrite Hinit.
  destruct ((set_interface_1 e =? 0) && (set_interface_2 e =? 0)).
  2: { cbn. split; [|split; auto]. right.
       split; [discriminate|]. split; [exact Hst | auto]. }
  cbn [Z.eqb negb].
  apply wlp_bind. unfold wlp at 1, modify.
  set (rt1 := set_stream_state STREAM_STARTING rt0).
  apply wlp_bind, wp_wlp.
  eapply wp_mono; [|apply wp_start_submit_outcome; discriminate].
  intros r2 rt2 c2 (_ & Hp2 & Hpl2 & Hca2 & Hc2 & Hr2).
  assert (Hsub2 : forall w, substream w rt2 = substream w rt)
    by (intros []; cbn; assumption).
  destruct r2 as [ret|].
  - destruct Hr2 as (Hret & _ & Hs2 & Hidle2).
    unfold wlp. cbn.
    split; [right; auto|].
    split; intros w; rewrite Hsub2; auto.
  - destruct Hr2 as (Hs2 & _).
    apply wlp_bind. unfold wait_event_timeout.
    apply wlp_bind. unfold wlp at 1, emit.
    eapply wlp_mono; [|apply wait_event_frame].
    intros ? rt3 c3 (Hs3 & Ha3 & Hi3 & _ & _). cbn beta in *.
    assert (Hact : forall w, active (substream w rt3) = active (substream w rt))
      by (intros w; rewrite Ha3, Hsub2; reflexivity).
    assert (Hina : forall w, active (substream w rt) = false ->
                             substream w rt3 = substream w rt).
    { intros w Hw. rewrite Hi3, Hsub2; [reflexivity|].
      rewrite Hsub2. exact Hw. }
    apply wlp_bind. unfold wlp at 1, get.
    destruct (stream_wait_cond rt3) eqn:Hc3.
    + unfold wlp. cbn.
      split; [left; auto|]. split; assumption.
    + apply wlp_bind, wp_wlp.
      eapply wp_mono; [|apply zoom_pcm_stream_stop_spec].
      intros _ rt4 c4 (Hs4 & _ & Hpl4 & Hca4 & _ & _ & _ & Hidle4).
      assert (Hsub4 : forall w, substream w rt4 = substream w rt3)
        by (intros []; cbn; assumption).
      unfold wlp. cbn.
      split.
      * right. split; [discriminate|]. split; [exact Hs4|].
        intros _. apply Hidle4. rewrite Hs3, Hs2. discriminate.
      * split; intros w; rewrite Hsub4; auto.
Qed.

(** X12.  The code [zoom_pcm_stream_start] returns tells the state it
    leaves.  Started on a DISABLED stream, whatever the kernel answers and
    whatever completes while it waits: if it returns 0 the stream is
    RUNNING and the start condition is raised; if it returns another code
    the stream is DISABLED again, and no URB is in flight if none was
    before.  Either way the flags [active] are kept and an inactive
    substream is left as it was. *)
Theorem start_result_tells_stream_state
  (e : start_env) (rt rt' : pcm_runtime) (r : Z) (calls : list call) :
  stream_state rt = STREAM_DISABLED ->
  zoom_pcm_stream_start e rt = Done r rt' calls ->
  (r = 0 /\ stream_state rt' = STREAM_RUNNING /\
   stream_wait_cond rt' = true
   \/
   r <> 0 /\ stream_state rt' = STREAM_DISABLED /\
   ((forall d j, in_flight (urb d j rt) = false) ->
    forall d j, in_flight (urb d j rt') = false)) /\
  (forall w, active (substream w rt') = active (substream w rt)) /\
  (forall w, active (substream w rt) = false ->
             substream w rt' = substream w rt).
Proof.
  intros Hst Hrun. pose proof (wlp_stream_start e rt Hst) as H.
  unfold wlp in H. rewrite Hrun in H. exact H.
Qed.

(** X13.  A start during which the kernel refuses a submission (stream
    DISABLED before, both interface settings accepted): the function
    returns the non-zero code of a refused submission without going to
    sleep on the wait queue; the stream is DISABLED again, no URB is left
    in flight, the panic flag is clear and both substreams are as they
    were. *)
Theorem start_refused_submission_stops_stream
  (e : start_env) (rt : pcm_runtime) (k : fin PCM_N_URBS) :
  stream_state rt = STREAM_DISABLED ->
  set_interface_1 e = 0 -> set_interface_2 e = 0 ->
  submit_out e k <> 0 \/ submit_in e k <> 0 ->
  exists ret rt' calls,
    zoom_pcm_stream_start e rt = Done ret rt' calls /\
    ret <> 0 /\
    (exists i, ret = submit_out e i \/ ret = submit_in e i) /\
    stream_state rt' = STREAM_DISABLED /\
    (forall d j, in_flight (urb d j rt') = false) /\
    panic rt' = false /\
    playback rt' = playback rt /\
    capture rt' = capture rt /\
    existsb is_wait_event calls = false.
Proof.
  intros Hst H1 H2 Hk.
  assert (Hgoal : wp (zoom_pcm_stream_start e) rt (fun ret rt' calls =>
    ret <> 0 /\
    (exists i, ret = submit_out e i \/ ret = submit_in e i) /\
    stream_state rt' = STREAM_DISABLED /\
    (forall d j, in_flight (urb d j rt') = false) /\
    panic rt' = false /\
    playback rt' = playback rt /\
    capture rt' = capture rt /\
    existsb is_wait_event calls = false)).
  { unfold zoom_pcm_stream_start. apply wp_bind, wp_get. rewrite Hst.
    cbn [state_eqb]. apply wp_bind, wp_modify, wp_bind.
    unfold zoom_interface_init. rewrite H1, H2. cbn [Z.eqb negb].
    apply wp_bind, wp_emit, wp_bind, wp_emit, wp_ret.
    cbn [Z.eqb negb Z.opp].
    apply wp_bind, wp_modify, wp_bind.
    eapply wp_mono; [|apply wp_start_submit_outcome; discriminate].
    intros r rt1 c1 (Hw & Hp & Hpl & Hca & _ & Hr).
    destruct r as [ret|].
    - destruct Hr as (Hret & (i & _ & Hor) & Hs1 & Hidle).
      apply wp_ret. split; [exact Hret|]. split; [exists i; exact Hor|].
      split; [exact Hs1|]. split; [exact Hidle|].
      split; [exact Hp|]. split; [exact Hpl|]. split; [exact Hca|].
      cbn. rewrite app_nil_r. exact Hw.
    - destruct Hr as (_ & Hall).
      destruct (Hall k (all_indices k)) as [Ho Hi].
      destruct Hk; contradiction. }
  apply wp_done in Hgoal as (ret & rt' & calls & Hrun & H).
  exists ret, rt', calls. split; [exact Hrun | exact H].
Qed.

Lemma start_refused_submission_stops_stream_witness :
  exists ret rt' calls,
    zoom_pcm_stream_start refusing_start fresh_runtime
    = Done ret rt' calls /\
    ret <> 0 /\
    (exists i, ret = submit_out refusing_start i
               \/ ret = submit_in refusing_start i) /\
    stream_state rt' = STREAM_DISABLED /\
    (forall d j, in_flight (urb d j rt') = false) /\
    panic rt' = false /\
    playback rt' = playback fresh_runtime /\
    capture rt' = capture fresh_runtime /\
    existsb is_wait_event calls = false.
Proof.
  apply (start_refused_submission_stops_stream refusing_start fresh_runtime
           2%fin);
    [reflexivity | reflexivity | reflexivity | right; discriminate].
Defined.

Lemma start_result_tells_stream_state_witness :
  (- ENOMEM = 0 /\
   stream_state (state_after (zoom_pcm_stream_start refusing_start)
                             fresh_runtime) = STREAM_RUNNING /\
   stream_wait_cond (state_after (zoom_pcm_stream_start refusing_start)
                                 fresh_runtime) = true
   \/
   - ENOMEM <> 0 /\
   stream_state (state_after (zoom_pcm_stream_start refusing_start)
                             fresh_runtime) = STREAM_DISABLED /\
   ((forall d j, in_flight (urb d j fresh_runtime) = false) ->
    forall d j,
      in_flight (urb d j (state_after (zoom_pcm_stream_start refusing_start)
                                      fresh_runtime)) = false)) /\
  (forall w,
     active (substream w (state_after (zoom_pcm_stream_start refusing_start)
                                      fresh_runtime))
     = active (substream w fresh_runtime)) /\
  (forall w, active (substream w fresh_runtime) = false ->
             substream w (state_after (zoom_pcm_stream_start refusing_start)
                                      fresh_runtime)
             = substream w fresh_runtime).
Proof.
  apply (start_result_tells_stream_state refusing_start fresh_runtime
           (state_after (zoom_pcm_stream_start refusing_start) fresh_runtime)
           (- ENOMEM)
           (calls_of (zoom_pcm_stream_start refusing_start) fresh_runtime));
    [reflexivity | vm_compute; reflexivity].
Defined.

(** ** A start that succeeds *)

Lemma in_flight_set_urb d i u rt d' j :
  in_flight u = true ->
  in_flight (urb d' j rt) = true ->
  in_flight (urb d' j (set_urb d i u rt)) = true.
Proof.
  unfold urb, set_urb. intros Hu Hj.
  destruct d, d'; cbn; try exact Hj;
    (destruct (decide (i = j)) as [->|Hne];
     [rewrite vlookup_insert; exact Hu
     |rewrite vlookup_insert_ne by exact Hne; exact Hj]).
Qed.

Lemma in_flight_set_buffer d i b rt d' j :
  in_flight (urb d' j (set_urb d i (set_buffer b (urb d i rt)) rt))
  = in_flight (urb d' j rt).
Proof.
  unfold urb, set_urb.
  destruct d, d'; cbn; try reflexivity;
    (destruct (decide (i = j)) as [->|Hne];
     [rewrite vlookup_insert; reflexivity
     |rewrite vlookup_insert_ne by exact Hne; reflexivity]).
Qed.

(** With every submission accepted the loop of [zoom_pcm_stream_start]
    leaves every URB it went through in flight. *)
Lemma wp_start_submit_in_flight e l :
  (forall i, submit_out e i = 0) -> (forall i, submit_in e i = 0) ->
  forall rt,
  wp (start_submit e l) rt (fun r rt' calls =>
    r = None /\ same_control rt rt' /\ unsignalled calls /\
    (forall d i, i ∈ l -> in_flight (urb d i rt') = true) /\
    (forall d j, in_flight (urb d j rt) = true ->
                 in_flight (urb d j rt') = true)).
Proof.
  intros Hout Hin. induction l as [|i l IH]; intros rt; cbn [start_submit].
  - apply wp_ret. split; [reflexivity|]. split; [apply same_control_refl|].
    split; [reflexivity|]. split; [|auto]. intros d i Hi. inversion Hi.
  - apply wp_bind, wp_get, wp_bind, wp_modify, wp_bind, wp_emit, wp_bind.
    eapply wp_mono; [|apply wp_usb_submit_exact].
    intros r rt1 c1 (-> & -> & Hrt1). rewrite Hout in *.
    cbn [Z.eqb negb] in *.
    apply wp_bind, wp_emit, wp_bind.
    eapply wp_mono; [|apply wp_usb_submit_exact].
    intros r rt2 c2 (-> & -> & Hrt2). rewrite Hin in *.
    cbn [Z.eqb negb] in *.
    eapply wp_mono; [|apply IH].
    intros r rt3 c3 (-> & Hsc3 & Hu3 & Hl3 & Hm3).
    assert (Hsc2 : same_control rt rt2).
    { subst rt2 rt1.
      eapply same_control_trans; [apply same_control_set_urb|].
      eapply same_control_trans; apply same_control_set_urb. }
    assert (Hm2 : forall d j, in_flight (urb d j rt) = true ->
                              in_flight (urb d j rt2) = true).
    { intros d j Hj. subst rt2 rt1.
      apply in_flight_set_urb; [reflexivity|].
      apply in_flight_set_urb; [reflexivity|].
      rewrite in_flight_set_buffer. exact Hj. }
    assert (Hi2 : forall d, in_flight (urb d i rt2) = true).
    { intros []; subst rt2.
      - apply in_flight_set_urb; [reflexivity|].
        subst rt1. rewrite urb_set_urb_same. reflexivity.
      - rewrite urb_set_urb_same. reflexivity. }
    split; [reflexivity|].
    split; [eapply same_control_trans; eassumption|].
    split; [cbn; exact Hu3|].
    split.
    + intros d j Hj. apply elem_of_cons in Hj as [->|Hj]; auto.
    + auto.
Qed.

(** X14.  The first start of a runtime that succeeds (stream DISABLED and
    start condition clear before, interface settings and submissions
    accepted, playback inactive): when the first thing to complete while
    the starter waits is an out-URB with a status that is not fatal, the
    handler wakes the starter and [zoom_pcm_stream_start] returns 0 with
    the stream RUNNING and the start condition raised.  That holds
    even if the resubmission of that URB was refused: the panic flag is
    then set although the start reported success.  Every other URB is in
    flight; both substreams are as they were. *)
Theorem first_start_succeeds_on_out_completion
  (e : start_env) (rt : pcm_runtime) (c : completion)
  (rest : list completion) :
  stream_state rt = STREAM_DISABLED ->
  stream_wait_cond rt = false ->
  set_interface_1 e = 0 -> set_interface_2 e = 0 ->
  (forall i, submit_out e i = 0) -> (forall i, submit_in e i = 0) ->
  active (playback rt) = false ->
  completions e = c :: rest ->
  c_dir c = DirOut ->
  fatal_status (c_status c) = false ->
  exists rt' calls,
    zoom_pcm_stream_start e rt = Done 0 rt' calls /\
    stream_state rt' = STREAM_RUNNING /\
    stream_wait_cond rt' = true /\
    existsb is_wake_up calls = true /\
    panic rt' = (c_resubmit c <? 0) /\
    in_flight (urb DirOut (c_idx c) rt') = (c_resubmit c =? 0) /\
    (forall d j, (DirOut, c_idx c) <> (d, j) ->
                 in_flight (urb d j rt') = true) /\
    playback rt' = playback rt /\
    capture rt' = capture rt.
Proof.
  intros Hst Hc H1 H2 Hout Hin Hact Hw Hdir Hfat.
  assert (Hgoal : wp (zoom_pcm_stream_start e) rt (fun r rt' calls =>
    r = 0 /\
    stream_state rt' = STREAM_RUNNING /\
    stream_wait_cond rt' = true /\
    existsb is_wake_up calls = true /\
    panic rt' = (c_resubmit c <? 0) /\
    in_flight (urb DirOut (c_idx c) rt') = (c_resubmit c =? 0) /\
    (forall d j, (DirOut, c_idx c) <> (d, j) ->
                 in_flight (urb d j rt') = true) /\
    playback rt' = playback rt /\
    capture rt' = capture rt)).
  { unfold zoom_pcm_stream_start. apply wp_bind, wp_get. rewrite Hst.
    cbn [state_eqb]. apply wp_bind, wp_modify, wp_bind.
    unfold zoom_interface_init. rewrite H1, H2. cbn [Z.eqb negb].
    apply wp_bind, wp_emit, wp_bind, wp_emit, wp_ret.
    cbn [Z.eqb negb Z.opp].
    apply wp_bind, wp_modify, wp_bind.
    eapply wp_mono; [|apply (wp_start_submit_in_flight e urb_indices Hout Hin)].
    intros r rt1 c1 (-> & Hsc1 & Hu1 & Hall1 & _).
    destruct Hsc1 as (Hp1 & Hst1 & Hpl1 & Hca1 & Hc1).
    cbn in Hp1, Hst1, Hpl1, Hca1, Hc1.
    apply wp_bind. unfold wait_event_timeout. apply wp_bind, wp_emit.
    rewrite Hw. cbn [wait_event]. apply wp_bind, wp_get.
    rewrite Hc1, Hc. apply wp_bind.
    (* the completion is given back *)
    unfold giveback. apply wp_bind, wp_get. rewrite Hdir.
    rewrite (Hall1 DirOut (c_idx c) (all_indices _)).
    apply wp_bind, wp_modify.
    match goal with
    | |- context [set_urb DirOut ?i ?u rt1] =>
        set (rt2 := set_urb DirOut i u rt1)
    end.
    assert (Hp2 : panic rt2 = false) by exact Hp1.
    assert (Hst2 : stream_state rt2 = STREAM_STARTING) by exact Hst1.
    assert (Hact2 : active (playback rt2) = false)
      by (change (playback rt2) with (playback rt1); congruence).
    destruct (out_handler_inactive (c_idx c) (c_status c) (c_resubmit c) rt2
                Hp2 ltac:(rewrite Hst2; discriminate) Hfat Hact2)
      as (rt3 & c3 & Hrun & _ & Hfl3 & Hp3 & _ & _ & Hpl3 & Hca3 & Hst3
          & Hoth3 & Hc3 & Hwake3).
    unfold wp at 1. rewrite Hrun.
    rewrite Hst2 in Hc3, Hwake3, Hst3. cbn in Hc3, Hwake3.
    unfold wp at 1. rewrite (wait_event_raised _ _ Hc3).
    apply wp_bind, wp_get. rewrite Hc3.
    apply wp_bind, wp_modify, wp_ret.
    split; [reflexivity|]. split; [reflexivity|]. split; [exact Hc3|].
    split.
    { repeat first [rewrite existsb_app
                   | progress cbn [existsb is_wake_up orb]].
      rewrite Hwake3, ?orb_true_r, ?orb_true_r. reflexivity. }
    split; [exact Hp3|].
    split.
    { change (urb DirOut (c_idx c) (set_stream_state STREAM_RUNNING rt3))
        with (urb DirOut (c_idx c) rt3).
      rewrite Hfl3. subst rt2. rewrite urb_set_urb_same. cbn.
      apply orb_false_r. }
    split.
    { intros d j Hne.
      change (urb d j (set_stream_state STREAM_RUNNING rt3))
        with (urb d j rt3).
      rewrite (Hoth3 d j Hne). subst rt2.
      rewrite urb_set_urb_other by exact Hne.
      apply Hall1, all_indices. }
    change (playback rt2) with (playback rt1) in Hpl3.
    change (capture rt2) with (capture rt1) in Hca3.
    split; cbn; congruence. }
  apply wp_done in Hgoal as (r & rt' & calls & Hrun & -> & H).
  exists rt', calls. split; [exact Hrun | exact H].
Qed.

Lemma first_start_succeeds_on_out_completion_witness :
  exists rt' calls,
    zoom_pcm_stream_start (ok_start [first_out_completion]) fresh_runtime
    = Done 0 rt' calls /\
    stream_state rt' = STREAM_RUNNING /\
    stream_wait_cond rt' = true /\
    existsb is_wake_up calls = true /\
    panic rt' = (c_resubmit first_out_completion <? 0) /\
    in_flight (urb DirOut (c_idx first_out_completion) rt')
    = (c_resubmit first_out_completion =? 0) /\
    (forall d j, (DirOut, c_idx first_out_completion) <> (d, j) ->
                 in_flight (urb d j rt') = true) /\
    playback rt' = playback fresh_runtime /\
    capture rt' = capture fresh_runtime.
Proof.
  apply (first_start_succeeds_on_out_completion
           (ok_start [first_out_completion]) fresh_runtime
           first_out_completion []); reflexivity.
Defined.

(** ** Prepare *)

Lemma wlp_prepare (a : snd_pcm_substream) (w : which_sub) (e : stop_env)
  (es : start_env) (rt : pcm_runtime) :
  panic rt = false ->
  zoom_pcm_get_substream a = Some w ->
  wlp (zoom_pcm_prepare a e es) rt (fun r rt' calls =>
    (r = 0 /\ stream_state rt' = STREAM_RUNNING
     \/ r <> 0 /\ stream_state rt' = STREAM_DISABLED) /\
    (active (substream w rt) = false ->
     substream w rt'
     = set_period_off 0 (set_dma_off 0 (substream w rt))) /\
    (active (substream (other w) rt) = false ->
     substream (other w) rt' = substream (other w) rt) /\
    (forall w', active (substream w' rt') = active (substream w' rt)) /\
    exists mid, calls = mutex_lock_call :: mid ++ [mutex_unlock_call]).
Proof.
  intros Hp Hw. unfold zoom_pcm_prepare.
  apply wlp_bind. unfold wlp at 1, get. rewrite Hp, Hw.
  apply wlp_bind. unfold wlp at 1, emit.
  apply wlp_bind, wp_wlp.
  eapply wp_mono; [|apply zoom_pcm_stream_stop_spec].
  intros _ rt1 c1 (Hst1 & _ & Hpl1 & Hca1 & _).
  apply wlp_bind. unfold wlp at 1, modify.
  match goal with
  | |- context [set_substream w ?s rt1] => set (rt2 := set_substream w s rt1)
  end.
  assert (Hst2 : stream_state rt2 = STREAM_DISABLED)
    by (subst rt2; destruct w; exact Hst1).
  apply wlp_bind. unfold wlp at 1, get. rewrite Hst2. cbn [state_eqb].
  apply wlp_bind.
  eapply wlp_mono; [|apply (wlp_stream_start es rt2 Hst2)].
  intros ret rt3 c3 (Hres & Hact3 & Hina3).
  assert (Hsub1 : forall w', substream w' rt1 = substream w' rt)
    by (intros []; cbn; assumption).
  assert (Hw2 : substream w rt2
                = set_period_off 0 (set_dma_off 0 (substream w rt)))
    by (subst rt2; rewrite <- Hsub1; destruct w; reflexivity).
  assert (Ho2 : substream (other w) rt2 = substream (other w) rt)
    by (subst rt2; rewrite <- Hsub1; destruct w; reflexivity).
  assert (Hfinal :
    (active (substream w rt) = false ->
     substream w rt3
     = set_period_off 0 (set_dma_off 0 (substream w rt))) /\
    (active (substream (other w) rt) = false ->
     substream (other w) rt3 = substream (other w) rt) /\
    (forall w', active (substream w' rt3) = active (substream w' rt))).
  { split; [|split].
    - intros Ha. rewrite Hina3; [exact Hw2|]. rewrite Hw2. exact Ha.
    - intros Ha. rewrite Hina3; [exact Ho2|]. rewrite Ho2. exact Ha.
    - intros w'. rewrite Hact3.
      destruct w, w'; cbn [other] in Ho2;
        first [rewrite Hw2 | rewrite Ho2]; reflexivity. }
  assert (Htrace : forall tail : list call,
    exists mid,
      [mutex_lock_call] ++ c1 ++ [] ++ [] ++ c3 ++ [mutex_unlock_call] ++ tail
      = mutex_lock_call :: mid ++ [mutex_unlock_call] ++ tail).
  { intros tail. exists (c1 ++ c3). cbn [app]. f_equal.
    rewrite <- app_assoc. reflexivity. }
  destruct (Z.eqb_spec ret 0) as [->|Hne]; cbn [negb].
  - unfold wlp, mbind, M_bind, emit. cbn [mret M_ret].
    split.
    { left. split; [reflexivity|].
      destruct Hres as [(_ & Hs & _)|(Hn & _)]; [exact Hs | contradiction]. }
    split; [apply Hfinal|]. split; [apply Hfinal|]. split; [apply Hfinal|].
    destruct (Htrace []) as (mid & Hmid). exists mid. exact Hmid.
  - unfold wlp, mbind, M_bind, emit. cbn [mret M_ret].
    split.
    { right. split; [exact Hne|].
      destruct Hres as [(Hz & _)|(_ & Hs & _)]; [contradiction | exact Hs]. }
    split; [apply Hfinal|]. split; [apply Hfinal|]. split; [apply Hfinal|].
    destruct (Htrace []) as (mid & Hmid). exists mid. exact Hmid.
Qed.

(** X15.  [zoom_pcm_prepare] of one direction on a runtime that is not
    panicked restarts the whole stream: whatever state it finds, it stops
    the stream and starts it again, so that the code it returns tells the
    state it leaves (0: RUNNING, otherwise DISABLED).  The offsets of its
    own substream are reset to 0 and stay there while the substream is
    inactive; an inactive substream of the other direction is left as it
    was; no flag [active] changes; the stream mutex taken on entry is
    released on every path. *)
Theorem prepare_restarts_the_stream
  (a : snd_pcm_substream) (w : which_sub) (e : stop_env) (es : start_env)
  (rt rt' : pcm_runtime) (r : Z) (calls : list call) :
  panic rt = false ->
  zoom_pcm_get_substream a = Some w ->
  zoom_pcm_prepare a e es rt = Done r rt' calls ->
  (r = 0 /\ stream_state rt' = STREAM_RUNNING
   \/ r <> 0 /\ stream_state rt' = STREAM_DISABLED) /\
  (active (substream w rt) = false ->
   substream w rt' = set_period_off 0 (set_dma_off 0 (substream w rt))) /\
  (active (substream (other w) rt) = false ->
   substream (other w) rt' = substream (other w) rt) /\
  (forall w', active (substream w' rt') = active (substream w' rt)) /\
  exists mid, calls = mutex_lock_call :: mid ++ [mutex_unlock_call].
Proof.
  intros Hp Hw Hrun. pose proof (wlp_prepare a w e es rt Hp Hw) as H.
  unfold wlp in H. rewrite Hrun in H. exact H.
Qed.

Lemma prepare_restarts_the_stream_witness :
  (0 = 0 /\
   stream_state (state_after (zoom_pcm_prepare (ring 1 marker_area)
                                quiet_stop_env (ok_start []))
                             paused_capture) = STREAM_RUNNING
   \/ 0 <> 0 /\
   stream_state (state_after (zoom_pcm_prepare (ring 1 marker_area)
                                quiet_stop_env (ok_start []))
                             paused_capture) = STREAM_DISABLED) /\
  (active (substream Capture paused_capture) = false ->
   substream Capture
     (state_after (zoom_pcm_prepare (ring 1 marker_area) quiet_stop_env
                                    (ok_start []))
                  paused_capture)
   = set_period_off 0 (set_dma_off 0 (substream Capture paused_capture))) /\
  (active (substream (other Capture) paused_capture) = false ->
   substream (other Capture)
     (state_after (zoom_pcm_prepare (ring 1 marker_area) quiet_stop_env
                                    (ok_start []))
                  paused_capture)
   = substream (other Capture) paused_capture) /\
  (forall w',
     active (substream w'
               (state_after (zoom_pcm_prepare (ring 1 marker_area)
                               quiet_stop_env (ok_start []))
                            paused_capture))
     = active (substream w' paused_capture)) /\
  exists mid,
    calls_of (zoom_pcm_prepare (ring 1 marker_area) quiet_stop_env
                               (ok_start []))
             paused_capture
    = mutex_lock_call :: mid ++ [mutex_unlock_call].
Proof.
  apply (prepare_restarts_the_stream (ring 1 marker_area) Capture
           quiet_stop_env (ok_start []) paused_capture);
    [reflexivity | reflexivity | vm_compute; reflexivity].
Defined.

(** ** Copies between the ring buffer and a packet, with the advance *)

Lemma zoom_pcm_capture_contiguous
  (sub : pcm_substream) (urb : pcm_urb) (a : snd_pcm_substream) :
  instance sub = Some a ->
  let ch := channels (runtime a) in
  let area := dma_area (runtime a) in
  let bs := uint (snd_pcm_lib_buffer_bytes a) in
  let off := Z.to_nat (dma_off sub) in
  1 <= ch <= 12 ->
  length (buffer urb) = 512%nat ->
  Z.of_nat (length area) = bs ->
  0 <= dma_off sub ->
  dma_off sub + 16 * ch <= bs ->
  0 <= period_off sub < period_size (runtime a) ->
  exists sub' elapsed,
    zoom_pcm_capture sub urb = Some (sub', elapsed) /\
    area_of sub'
    = take off area ++ packet_payload ch (buffer urb)
      ++ drop (off + Z.to_nat (16 * ch)) area /\
    active sub' = active sub /\
    dma_off sub' = (dma_off sub + 16 * ch) mod bs /\
    (elapsed = true
     <-> period_size (runtime a) <= ulong (period_off sub + 16 * ch)).
Proof.
  intros Hinst ch area bs off Hch Hlen Harea Hd Hfit Hp.
  pose proof (uint_range (snd_pcm_lib_buffer_bytes a)) as Hbs.
  assert (Hpl : uint (uint (4 * ch) * 4) = 16 * ch).
  { rewrite (pcm_len_exact ch (snd_pcm_lib_buffer_bytes a)); fold bs; lia. }
  unfold zoom_pcm_capture. rewrite Hinst. cbv zeta.
  fold ch area bs. rewrite Hpl, (u8_small ch) by lia.
  rewrite (ulong_small (dma_off sub + 16 * ch)) by lia.
  destruct (Z.leb_spec (dma_off sub + 16 * ch) bs) as [_|]; [|lia].
  rewrite memcpy_pcm_capture_at_offset by lia. fold off.
  rewrite memcpy_pcm_capture_onto;
    [|exact Hch | exact Hlen
     |unfold buf in *; rewrite length_drop; subst off; lia].
  unfold buf in *. rewrite drop_drop.
  match goal with
  | |- context [advance ?s _ _ _] =>
      destruct (advance_spec s bs (16 * ch) (period_size (runtime a)))
        as (sub' & e & Hadv & Hrel & Hi & Ha);
        [lia | cbn; lia | exact Hp | lia |]
  end.
  exists sub', e. split; [exact Hadv|].
  split; [unfold area_of; rewrite Hi; reflexivity|].
  split; [exact Ha|]. split; [apply Hrel|].
  destruct Hrel as (_ & _ & _ & He & _). exact He.
Qed.

Lemma zoom_pcm_playback_contiguous
  (sub : pcm_substream) (urb : pcm_urb) (a : snd_pcm_substream) :
  instance sub = Some a ->
  let ch := channels (runtime a) in
  let area := dma_area (runtime a) in
  let bs := uint (snd_pcm_lib_buffer_bytes a) in
  let frames := take (Z.to_nat (16 * ch)) (drop (Z.to_nat (dma_off sub)) area) in
  2 <= ch <= 4 ->
  length (buffer urb) = 512%nat ->
  Z.of_nat (length area) = bs ->
  0 <= dma_off sub ->
  dma_off sub + 16 * ch <= bs ->
  0 <= period_off sub < period_size (runtime a) ->
  exists sub' urb' elapsed,
    zoom_pcm_playback sub urb = Some (sub', urb', elapsed) /\
    buffer urb'
    = playback_slot ch (buffer urb) frames 0
      ++ playback_slot ch (buffer urb) frames 1
      ++ playback_slot ch (buffer urb) frames 2
      ++ playback_slot ch (buffer urb) frames 3 /\
    in_flight urb' = in_flight urb /\
    instance sub' = instance sub /\
    active sub' = active sub /\
    dma_off sub' = (dma_off sub + 16 * ch) mod bs /\
    (elapsed = true
     <-> period_size (runtime a) <= ulong (period_off sub + 16 * ch)).
Proof.
  intros Hinst ch area bs frames Hch Hlen Harea Hd Hfit Hp.
  pose proof (uint_range (snd_pcm_lib_buffer_bytes a)) as Hbs.
  assert (Hpl : uint (uint (4 * ch) * 4) = 16 * ch).
  { rewrite (pcm_len_exact ch (snd_pcm_lib_buffer_bytes a)); fold bs; lia. }
  unfold zoom_pcm_playback. rewrite Hinst. cbv zeta.
  fold ch area bs. rewrite Hpl, (u8_small ch) by lia.
  rewrite (ulong_small (dma_off sub + 16 * ch)) by lia.
  destruct (Z.leb_spec (dma_off sub + 16 * ch) bs) as [_|]; [|lia].
  rewrite memcpy_pcm_playback_from_offset by lia.
  unfold buf in *.
  assert (Hsplit : drop (Z.to_nat (dma_off sub)) area
                   = frames ++ drop (Z.to_nat (16 * ch))
                                    (drop (Z.to_nat (dma_off sub)) area)).
  { subst frames. symmetry. apply take_drop. }
  rewrite Hsplit.
  rewrite memcpy_pcm_playback_table;
    [|exact Hch | exact Hlen
     |subst frames; rewrite length_take_le;
      [reflexivity | rewrite length_drop; lia]].
  destruct (advance_spec sub bs (16 * ch) (period_size (runtime a)))
    as (sub' & e & Hadv & Hrel & Hi & Ha);
    [lia | cbn; lia | exact Hp | lia |].
  rewrite Hadv. eexists _, _, _.
  split; [reflexivity|]. split; [reflexivity|]. split; [reflexivity|].
  split; [rewrite Hi; exact Hinst|]. split; [exact Ha|].
  split; [apply Hrel|].
  destruct Hrel as (_ & _ & _ & He & _). exact He.
Qed.

(** X16.  Capture, where the payload fits before the end of the ring (every
    capture channel count, every ring and packet): [zoom_pcm_capture]
    returns; the ring buffer holds the payload of the packet at [dma_off]
    and is unchanged before and behind it; the flag [active] is kept and
    [dma_off] has advanced by the payload length modulo the buffer size. *)
Theorem zoom_pcm_capture_copies_payload
  (sub : pcm_substream) (urb : pcm_urb) (a : snd_pcm_substream) :
  instance sub = Some a ->
  let ch := channels (runtime a) in
  let area := dma_area (runtime a) in
  let bs := uint (snd_pcm_lib_buffer_bytes a) in
  let off := Z.to_nat (dma_off sub) in
  1 <= ch <= 12 ->
  length (buffer urb) = 512%nat ->
  Z.of_nat (length area) = bs ->
  0 <= dma_off sub ->
  dma_off sub + 16 * ch <= bs ->
  0 <= period_off sub < period_size (runtime a) ->
  exists sub' elapsed,
    zoom_pcm_capture sub urb = Some (sub', elapsed) /\
    area_of sub'
    = take off area ++ packet_payload ch (buffer urb)
      ++ drop (off + Z.to_nat (16 * ch)) area /\
    active sub' = active sub /\
    dma_off sub' = (dma_off sub + 16 * ch) mod bs.
Proof.
  intros Hinst ch area bs off Hch Hlen Harea Hd Hfit Hp.
  destruct (zoom_pcm_capture_contiguous sub urb a Hinst Hch Hlen Harea Hd
              Hfit Hp) as (sub' & e & H1 & H2 & H3 & H4 & _).
  exists sub', e. auto.
Qed.

(** The contiguous capture of [sample_packet] at offset 992 of the marker
    ring. *)
Lemma zoom_pcm_capture_copies_payload_witness :
  exists sub' elapsed,
    zoom_pcm_capture (sub_at 1 marker_area 992 0) full_urb
    = Some (sub', elapsed) /\
    area_of sub'
    = take 992 marker_area ++ packet_payload 2 sample_packet
      ++ drop (992 + 32) marker_area /\
    active sub' = true /\
    dma_off sub' = (992 + 16 * 2) mod 1024.
Proof.
  apply (zoom_pcm_capture_copies_payload (sub_at 1 marker_area 992 0)
           full_urb (ring 1 marker_area));
    [ reflexivity | cbn; lia | reflexivity | reflexivity | cbn; lia
    | vm_compute; discriminate
    | vm_compute; split; [discriminate | reflexivity] ].
Defined.

(** X17.  Playback, where the payload fits before the end of the ring (two
    to four channels, every ring and packet buffer): [zoom_pcm_playback]
    returns; every slot of the packet starts with the frame read from the
    ring at [dma_off]; the ring buffer, the binding and the flag [active]
    of the substream and the in-flight mark of the URB are untouched;
    [dma_off] has advanced by the payload length modulo the buffer size. *)
Theorem zoom_pcm_playback_reads_ring
  (sub : pcm_substream) (urb : pcm_urb) (a : snd_pcm_substream) :
  instance sub = Some a ->
  let ch := channels (runtime a) in
  let area := dma_area (runtime a) in
  let bs := uint (snd_pcm_lib_buffer_bytes a) in
  let frames := take (Z.to_nat (16 * ch)) (drop (Z.to_nat (dma_off sub)) area) in
  2 <= ch <= 4 ->
  length (buffer urb) = 512%nat ->
  Z.of_nat (length area) = bs ->
  0 <= dma_off sub ->
  dma_off sub + 16 * ch <= bs ->
  0 <= period_off sub < period_size (runtime a) ->
  exists sub' urb' elapsed,
    zoom_pcm_playback sub urb = Some (sub', urb', elapsed) /\
    buffer urb'
    = playback_slot ch (buffer urb) frames 0
      ++ playback_slot ch (buffer urb) frames 1
      ++ playback_slot ch (buffer urb) frames 2
      ++ playback_slot ch (buffer urb) frames 3 /\
    in_flight urb' = in_flight urb /\
    instance sub' = instance sub /\
    active sub' = active sub /\
    dma_off sub' = (dma_off sub + 16 * ch) mod bs.
Proof.
  intros Hinst ch area bs frames Hch Hlen Harea Hd Hfit Hp.
  destruct (zoom_pcm_playback_contiguous sub urb a Hinst Hch Hlen Harea Hd
              Hfit Hp)
    as (sub' & urb' & e & H1 & H2 & H3 & H4 & H5 & H6 & _).
  exists sub', urb', e. repeat (split; [assumption|]). assumption.
Qed.

(** The contiguous playback from offset 992 of the ring that holds
    [sample_frames] across the wrap. *)
Lemma zoom_pcm_playback_reads_ring_witness :
  exists sub' urb' elapsed,
    zoom_pcm_playback (sub_at 0 wrapped_area 992 0) stale_urb
    = Some (sub', urb', elapsed) /\
    buffer urb'
    = playback_slot 2 stale_packet (take 32 (drop 992 wrapped_area)) 0
      ++ playback_slot 2 stale_packet (take 32 (drop 992 wrapped_area)) 1
      ++ playback_slot 2 stale_packet (take 32 (drop 992 wrapped_area)) 2
      ++ playback_slot 2 stale_packet (take 32 (drop 992 wrapped_area)) 3 /\
    in_flight urb' = false /\
    instance sub' = Some (ring 0 wrapped_area) /\
    active sub' = true /\
    dma_off sub' = (992 + 16 * 2) mod 1024.
Proof.
  apply (zoom_pcm_playback_reads_ring (sub_at 0 wrapped_area 992 0)
           stale_urb (ring 0 wrapped_area));
    [ reflexivity | cbn; lia | reflexivity | reflexivity | cbn; lia
    | vm_compute; discriminate
    | vm_compute; split; [discriminate | reflexivity] ].
Defined.


(** ** A packet on its way through a handler *)





(** ** Locking *)

Lemma lock_run_app s c1 c2 :
  lock_run s (c1 ++ c2)
  = match lock_run s c1 with
    | Some s' => lock_run s' c2
    | None => None
    end.
Proof.
  revert s. induction c1 as [|c c1 IH]; intros s; cbn [app lock_run];
    [reflexivity|].
  destruct (lock_step s c); [apply IH | reflexivity].
Qed.

Lemma neutral_nil : neutral [].
Proof. intros m. reflexivity. Qed.

Lemma neutral_app c1 c2 : neutral c1 -> neutral c2 -> neutral (c1 ++ c2).
Proof. intros H1 H2 m. rewrite lock_run_app, H1. apply H2. Qed.

Lemma neutral_teardown calls : teardown_only calls -> neutral calls.
Proof.
  unfold teardown_only. induction calls as [|c calls IH]; [intros _ m; reflexivity|].
  cbn [forallb]. rewrite andb_true_iff. intros [Hc Hrest] m.
  cbn [lock_run]. destruct c; try discriminate Hc; cbn; apply (IH Hrest).
Qed.

(** Closing a goal about a trace assembled by the binds of the monad. *)
Ltac neutral_trace :=
  repeat first
    [ assumption
    | apply neutral_nil
    | apply neutral_app
    | match goal with
      | |- neutral (_ :: _) => intros []; reflexivity
      end ].

Lemma in_handler_neutral i status resubmit rt :
  wlp (zoom_pcm_in_urb_handler i status resubmit) rt
      (fun _ _ calls => neutral calls).
Proof.
  unfold wlp, zoom_pcm_in_urb_handler, usb_submit_urb, mbind, M_bind, get,
    modify, emit, fault.
  crunch; try exact I; intros []; reflexivity.
Qed.

Lemma out_handler_neutral i status resubmit rt :
  wlp (zoom_pcm_out_urb_handler i status resubmit) rt
      (fun _ _ calls => neutral calls).
Proof.
  unfold wlp, zoom_pcm_out_urb_handler, usb_submit_urb, mbind, M_bind, get,
    modify, emit, fault.
  crunch; try exact I; intros []; reflexivity.
Qed.

Lemma giveback_neutral c rt :
  wlp (giveback c) rt (fun _ _ calls => neutral calls).
Proof.
  unfold giveback. apply wlp_bind. unfold wlp at 1, get.
  destruct (in_flight (urb (c_dir c) (c_idx c) rt)); [|apply neutral_nil].
  apply wlp_bind. unfold wlp at 1, modify.
  destruct (c_dir c);
    (eapply wlp_mono;
     [|first [apply out_handler_neutral | apply in_handler_neutral]]);
    intros ? rt2 c2 H2; cbn beta in H2; neutral_trace.
Qed.

Lemma wait_event_neutral window : forall rt,
  wlp (wait_event window) rt (fun _ _ calls => neutral calls).
Proof.
  induction window as [|c window IH]; intros rt; cbn [wait_event].
  - apply neutral_nil.
  - apply wlp_bind. unfold wlp at 1, get.
    destruct (stream_wait_cond rt); [apply neutral_nil|].
    apply wlp_bind.
    eapply wlp_mono; [|apply giveback_neutral].
    intros ? rt1 c1 H1. cbn beta in H1.
    eapply wlp_mono; [|apply IH].
    intros ? rt2 c2 H2. cbn beta in H2. neutral_trace.
Qed.

Lemma stop_neutral e rt :
  wp (zoom_pcm_stream_stop e) rt (fun _ _ calls => neutral calls).
Proof.
  eapply wp_mono; [|apply zoom_pcm_stream_stop_spec].
  intros _ rt' calls (_ & _ & _ & _ & _ & Ht & _).
  apply neutral_teardown. exact Ht.
Qed.

Lemma interface_init_neutral answer1 answer2 e rt :
  wp (zoom_interface_init answer1 answer2 e) rt
     (fun _ _ calls => neutral calls).
Proof.
  unfold zoom_interface_init. apply wp_bind, wp_emit.
  destruct (negb (answer1 =? 0)).
  - apply wp_bind. eapply wp_mono; [|apply stop_neutral].
    intros ? rt1 c1 H1. cbn beta in H1. apply wp_ret. neutral_trace.
  - apply wp_bind, wp_emit. destruct (negb (answer2 =? 0)).
    + apply wp_bind. eapply wp_mono; [|apply stop_neutral].
      intros ? rt1 c1 H1. cbn beta in H1. apply wp_ret. neutral_trace.
    + apply wp_ret. neutral_trace.
Qed.

Lemma start_submit_neutral e l : forall rt,
  wp (start_submit e l) rt (fun _ _ calls => neutral calls).
Proof.
  induction l as [|i l IH]; intros rt; cbn [start_submit].
  - apply wp_ret. apply neutral_nil.
  - apply wp_bind, wp_get, wp_bind, wp_modify, wp_bind, wp_emit, wp_bind.
    eapply wp_mono; [|apply wp_usb_submit_exact].
    intros r rt1 c1 (-> & -> & _).
    destruct (negb (submit_out e i =? 0)).
    + apply wp_bind. eapply wp_mono; [|apply stop_neutral].
      intros ? rt2 c2 H2. cbn beta in H2. apply wp_ret. neutral_trace.
    + apply wp_bind, wp_emit, wp_bind.
      eapply wp_mono; [|apply wp_usb_submit_exact].
      intros r rt2 c2 (-> & -> & _).
      destruct (negb (submit_in e i =? 0)).
      * apply wp_bind. eapply wp_mono; [|apply stop_neutral].
        intros ? rt3 c3 H3. cbn beta in H3. apply wp_ret. neutral_trace.
      * eapply wp_mono; [|apply IH].
        intros r rt3 c3 H3. neutral_trace.
Qed.

Lemma stream_start_neutral e rt :
  wlp (zoom_pcm_stream_start e) rt (fun _ _ calls => neutral calls).
Proof.
  unfold zoom_pcm_stream_start. apply wlp_bind. unfold wlp at 1, get.
  destruct (state_eqb (stream_state rt) STREAM_DISABLED);
    [|apply neutral_nil].
  apply wlp_bind. unfold wlp at 1, modify.
  apply wlp_bind, wp_wlp.
  eapply wp_mono; [|apply interface_init_neutral].
  intros ret rt1 c1 H1.
  destruct (negb (ret =? 0)); [unfold wlp; cbn; neutral_trace|].
  apply wlp_bind. unfold wlp at 1, modify.
  apply wlp_bind, wp_wlp.
  eapply wp_mono; [|apply start_submit_neutral].
  intros early rt2 c2 H2.
  destruct early as [ret'|]; [unfold wlp; cbn; neutral_trace|].
  apply wlp_bind. unfold wait_event_timeout.
  apply wlp_bind. unfold wlp at 1, emit.
  eapply wlp_mono; [|apply wait_event_neutral].
  intros ? rt3 c3 H3. cbn beta in H3.
  apply wlp_bind. unfold wlp at 1, get.
  destruct (stream_wait_cond rt3).
  - unfold wlp. cbn. neutral_trace.
  - apply wlp_bind, wp_wlp.
    eapply wp_mono; [|apply stop_neutral].
    intros ? rt4 c4 H4. cbn beta in H4. unfold wlp. cbn. neutral_trace.
Qed.

(** Running a trace assembled by the binds of the monad through the
    locking rules. *)
Ltac balance :=
  repeat first
    [ rewrite lock_run_app
    | match goal with
      | H : neutral ?c |- context [lock_run (Locks ?m None) ?c] =>
          rewrite (H m)
      end
    | progress cbn [lock_run lock_step spin_held mutex_held which_sub_eqb
                    app] ];
  try reflexivity.

Lemma run_op_locking (o : op) (rt : pcm_runtime) :
  wlp (run_op o) rt (fun _ _ calls =>
    lock_run (Locks false None) calls = Some (Locks false None)).
Proof.
  destruct o as [i status resubmit | i status resubmit | c | a | a e
                | a e es | a cmd | a | e | e]; cbn [run_op].
  - apply wlp_bind. eapply wlp_mono; [|apply in_handler_neutral].
    intros ? rt1 c1 H1. cbn beta in H1. unfold wlp. cbn. balance.
  - apply wlp_bind. eapply wlp_mono; [|apply out_handler_neutral].
    intros ? rt1 c1 H1. cbn beta in H1. unfold wlp. cbn. balance.
  - apply wlp_bind. eapply wlp_mono; [|apply giveback_neutral].
    intros ? rt1 c1 H1. cbn beta in H1. unfold wlp. cbn. balance.
  - (* open *)
    unfold wlp, zoom_pcm_open, mbind, M_bind, get, modify, emit.
    crunch; reflexivity.
  - (* close *)
    apply wlp_bind. unfold zoom_pcm_close.
    apply wlp_bind. unfold wlp at 1, get.
    destruct (panic rt); [unfold wlp; cbn; reflexivity|].
    apply wlp_bind. unfold wlp at 1, emit.
    apply wlp_bind.
    destruct (zoom_pcm_get_substream a) as [w|].
    + apply wlp_bind, wp_wlp. eapply wp_mono; [|apply stop_neutral].
      intros ? rt1 c1 H1. cbn beta in H1.
      unfold wlp, mbind, M_bind, modify, emit. cbn [mret M_ret].
      destruct w; balance.
    + unfold wlp, mbind, M_bind, emit. cbn [mret M_ret]. reflexivity.
  - (* prepare *)
    apply wlp_bind. unfold zoom_pcm_prepare.
    apply wlp_bind. unfold wlp at 1, get.
    destruct (panic rt); [unfold wlp; cbn; reflexivity|].
    destruct (zoom_pcm_get_substream a) as [w|];
      [|unfold wlp; cbn; reflexivity].
    apply wlp_bind. unfold wlp at 1, emit.
    apply wlp_bind, wp_wlp. eapply wp_mono; [|apply stop_neutral].
    intros ? rt1 c1 H1. cbn beta in H1.
    apply wlp_bind. unfold wlp at 1, modify.
    apply wlp_bind. unfold wlp at 1, get.
    match goal with
    | |- context [state_eqb ?s STREAM_DISABLED] =>
        destruct (state_eqb s STREAM_DISABLED)
    end.
    + apply wlp_bind. eapply wlp_mono; [|apply stream_start_neutral].
      intros ret rt3 c3 H3. cbn beta in H3.
      destruct (negb (ret =? 0));
        unfold wlp, mbind, M_bind, emit; cbn [mret M_ret]; balance.
    + unfold wlp, mbind, M_bind, emit. cbn [mret M_ret]. balance.
  - (* trigger *)
    unfold wlp, zoom_pcm_trigger, mbind, M_bind, get, modify, emit.
    destruct (panic rt); [reflexivity|].
    destruct (zoom_pcm_get_substream a) as [[]|]; crunch; reflexivity.
  - (* pointer *)
    unfold wlp, zoom_pcm_pointer, bytes_to_frames, mbind, M_bind, get, emit,
      fault.
    destruct (panic rt); [reflexivity|].
    destruct (zoom_pcm_get_substream a) as [[]|]; crunch;
      try exact I; reflexivity.
  - (* stop *)
    apply wlp_bind, wp_wlp. eapply wp_mono; [|apply stop_neutral].
    intros ? rt1 c1 H1. cbn beta in H1. unfold wlp. cbn. balance.
  - (* abort *)
    apply wlp_bind. unfold zoom_pcm_abort.
    apply wlp_bind. unfold wlp at 1, modify.
    apply wlp_bind. unfold wlp at 1, emit.
    apply wlp_bind, wp_wlp. eapply wp_mono; [|apply stop_neutral].
    intros ? rt1 c1 H1. cbn beta in H1.
    unfold wlp, mbind, M_bind, emit. cbn [mret M_ret]. balance.
Qed.

(** X20.  Locking.  Whatever operation of the driver runs to its end (a
    completion handler, a URB given back, one of the five ALSA callbacks,
    a stop, an abort), from whatever runtime and with whatever the kernel
    answers, the calls it makes keep the locking rules: the stream mutex
    and the substream spinlocks are never taken twice, every lock taken is
    released before the operation returns (also on the error paths), and
    while a substream spinlock is held nothing is called: the period
    notification, the submission of a URB, the cancellation of URBs and
    the sleep on the wait queue all happen with no spinlock held. *)
Theorem operations_keep_locking_rules
  (o : op) (rt rt' : pcm_runtime) (r : result) (calls : list call) :
  run_op o rt = Done r rt' calls ->
  lock_run (Locks false None) calls = Some (Locks false None).
Proof.
  intros Hrun. pose proof (run_op_locking o rt) as H.
  unfold wlp in H. rewrite Hrun in H. exact H.
Qed.

(** The first prepare of a fresh runtime, during which the first out-URB
    comes back. *)
Lemma operations_keep_locking_rules_witness :
  lock_run (Locks false None)
    (calls_of (run_op (OpPrepare (ring 0 marker_area) quiet_stop_env
                                 (ok_start [first_out_completion])))
              fresh_runtime)
  = Some (Locks false None).
Proof.
  apply (operations_keep_locking_rules
           (OpPrepare (ring 0 marker_area) quiet_stop_env
                      (ok_start [first_out_completion]))
           fresh_runtime
           (state_after (run_op (OpPrepare (ring 0 marker_area)
                                   quiet_stop_env
                                   (ok_start [first_out_completion])))
                        fresh_runtime)
           (RInt 0)).
  vm_compute. reflexivity.
Defined.

(** ** Creation and destruction of the runtime *)

(** The label [error] and [zoom_pcm_destroy] free whatever the runtime
    owns. *)
Lemma free_runtime_nil heap0 : free_runtime heap0 = [].
Proof.
  unfold free_runtime, urb_indices. cbn [foldr].
  induction heap0 as [|b heap0 IH]; [reflexivity|].
  unfold kfree in *. cbn [List.filter].
  destruct b as [|[] i].
  - cbn [block_eqb negb]. cbn [List.filter]. cbn [block_eqb negb]. exact IH.
  - unfold PCM_N_URBS in i.
    repeat (inv_fin i; [cbn; exact IH | intros i]). inv_fin i.
  - unfold PCM_N_URBS in i.
    repeat (inv_fin i; [cbn; exact IH | intros i]). inv_fin i.
Qed.

Ltac init_failed :=
  eexists _, _; split; [reflexivity|]; right;
  split;
  [ intros (Hk & Hi1 & Hi2 & Hc & Hs);
    repeat match goal with
           | H : kzalloc_ok _ _ = false |- _ => rewrite Hk in H; discriminate H
           | H : usb_urb_ep_type_check _ _ _ <> 0 |- _ => apply H, Hc
           | H : (snd_pcm_new _ <? 0) = true |- _ =>
               apply Z.ltb_lt in H; lia
           | |- _ => contradiction
           end
  | split;
    [ first [ reflexivity
            | match goal with
              | H : (snd_pcm_new _ <? 0) = true |- _ =>
                  apply Z.ltb_lt in H; exact H
              end ]
    | split; [reflexivity|] ] ].

(** Every way [zoom_pcm_init] can end. *)
Lemma zoom_pcm_init_cases (env : init_env) :
  exists ret c,
    zoom_pcm_init env = Some (ret, c) /\
    (init_succeeds env /\ ret = 0 /\
     chip_pcm c = Some fresh_runtime /\ heap c = runtime_blocks
     \/
     ~ init_succeeds env /\ ret < 0 /\ chip_pcm c = None /\
     (heap c = [BlockRt] /\ ret = - EIO /\
      kzalloc_ok env BlockRt = true /\
      (init_interface_1 env <> 0 \/ init_interface_2 env <> 0)
      \/
      heap c = [] /\
      (kzalloc_ok env BlockRt = false
       \/ init_interface_1 env = 0 /\ init_interface_2 env = 0))).
Proof.
  unfold zoom_pcm_init.
  destruct (kzalloc_ok env BlockRt) eqn:Hrt; cbn [negb].
  2: { init_failed. right. split; [reflexivity | left; reflexivity]. }
  destruct (zoom_interface_init_disabled (init_interface_1 env)
              (init_interface_2 env) quiet_stop_env
              (set_stream_state STREAM_DISABLED zeroed_runtime) eq_refl)
    as (calls & -> & _).
  destruct (Z.eqb_spec (init_interface_1 env) 0) as [H1|H1]; cbn [andb].
  2: { cbn [Z.eqb EIO Z.opp negb]. init_failed.
       left. repeat split; auto. }
  destruct (Z.eqb_spec (init_interface_2 env) 0) as [H2|H2]; cbn [andb].
  2: { cbn [Z.eqb EIO Z.opp negb]. init_failed.
       left. repeat split; auto. }
  cbn [Z.eqb negb].
  unfold urb_indices. cbn [init_urbs].
  repeat
    (unfold zoom_pcm_init_urb at 1;
     match goal with
     | |- context [kzalloc_ok env ?b] =>
         destruct (kzalloc_ok env b) eqn:?; cbn [negb];
         [ match goal with
           | |- context [usb_urb_ep_type_check env ?d ?i =? 0] =>
               destruct (Z.eqb_spec (usb_urb_ep_type_check env d i) 0);
               cbn [negb];
               [ cbn [Z.ltb Z.compare init_urbs]
               | cbn [Z.ltb Z.compare Z.opp EINVAL];
                 rewrite ?free_runtime_nil; init_failed;
                 right; split; [reflexivity | right; split; assumption] ]
           end
         | cbn [Z.ltb Z.compare Z.opp ENOMEM];
           rewrite ?free_runtime_nil; init_failed;
           right; split; [reflexivity | right; split; assumption] ]
     end).
  destruct (snd_pcm_new env <? 0) eqn:Hnew.
  { rewrite ?free_runtime_nil. init_failed.
    right. split; [reflexivity | right; split; assumption]. }
  eexists _, _. split; [reflexivity|]. left.
  split.
  { split.
    { intros [|[] i]; [exact Hrt | |];
        unfold PCM_N_URBS in i;
        repeat (inv_fin i; [assumption | intros i]); inv_fin i. }
    split; [exact H1|]. split; [exact H2|].
    split; [|apply Z.ltb_ge; exact Hnew].
    intros [] i; unfold PCM_N_URBS in i;
      repeat (inv_fin i; [assumption | intros i]); inv_fin i. }
  split; [reflexivity|]. split; [|reflexivity].
  cbn [chip_pcm]. vm_compute. reflexivity.
Qed.

(** X21.  [zoom_pcm_init] returns, whatever the kernel answers, and
    returns 0 exactly when every allocation, both interface settings,
    every endpoint check and [snd_pcm_new] succeeded.  Then [chip->pcm] is
    the runtime every start begins from: stream DISABLED, panic flag and
    start condition clear, both substreams unbound and inactive, and in
    every URB a zeroed packet of 512 bytes that is not in flight.  On a
    failure the code returned is negative and [chip->pcm] stays NULL. *)
Theorem zoom_pcm_init_publishes_fresh_runtime (env : init_env) :
  exists ret c,
    zoom_pcm_init env = Some (ret, c) /\
    (ret = 0 <-> init_succeeds env) /\
    (ret = 0 -> chip_pcm c = Some fresh_runtime) /\
    (ret <> 0 -> ret < 0 /\ chip_pcm c = None).
Proof.
  destruct (zoom_pcm_init_cases env) as (ret & c & Hrun & Hcases).
  exists ret, c. split; [exact Hrun|].
  destruct Hcases as [(Hok & -> & Hpcm & _)|(Hno & Hneg & Hpcm & _)].
  - split; [tauto|]. split; [auto | intros H; contradiction].
  - split; [split; [intros ->; lia | contradiction]|].
    split; [intros ->; lia | auto].
Qed.

(** X22.  The memory of [zoom_pcm_init].  On success the runtime and the
    eight packet buffers are allocated, nothing else.  On a failure of an
    allocation, of an endpoint check or of [snd_pcm_new] everything
    allocated so far has been freed again.  When an interface setting is
    refused the function returns [-EIO] without passing through its error
    label: the runtime allocated at its entry is still allocated, and
    [chip->pcm] does not point to it. *)
Theorem zoom_pcm_init_memory (env : init_env) :
  exists ret c,
    zoom_pcm_init env = Some (ret, c) /\
    (ret = 0 -> heap c = runtime_blocks) /\
    (ret <> 0 ->
     chip_pcm c = None /\
     (heap c = [BlockRt] /\ ret = - EIO /\
      kzalloc_ok env BlockRt = true /\
      (init_interface_1 env <> 0 \/ init_interface_2 env <> 0)
      \/
      heap c = [] /\
      (kzalloc_ok env BlockRt = false
       \/ init_interface_1 env = 0 /\ init_interface_2 env = 0))).
Proof.
  destruct (zoom_pcm_init_cases env) as (ret & c & Hrun & Hcases).
  exists ret, c. split; [exact Hrun|].
  destruct Hcases as [(Hok & -> & _ & Hheap)|(Hno & Hneg & Hpcm & Hheap)].
  - split; [auto | intros H; contradiction].
  - split; [intros ->; lia | auto].
Qed.

(** X23.  Destroying what was created.  After a [zoom_pcm_init] in which
    every call of the kernel succeeded, [zoom_pcm_destroy] frees the eight
    packet buffers and the runtime, so that nothing stays allocated, and
    clears [chip->pcm]; a second [zoom_pcm_destroy] would dereference that
    NULL pointer. *)
Theorem zoom_pcm_destroy_frees_what_init_allocated (env : init_env) :
  init_succeeds env ->
  exists c,
    zoom_pcm_init env = Some (0, c) /\
    heap c = runtime_blocks /\
    zoom_pcm_destroy c = Some {| chip_pcm := None; heap := [] |} /\
    zoom_pcm_destroy {| chip_pcm := None; heap := [] |} = None.
Proof.
  intros Hok.
  destruct (zoom_pcm_init_cases env)
    as (ret & c & Hrun & [(_ & -> & Hpcm & Hheap)|(Hno & _)]);
    [|contradiction].
  exists c. split; [exact Hrun|]. split; [exact Hheap|].
  split; [|reflexivity].
  unfold zoom_pcm_destroy. rewrite Hpcm, free_runtime_nil. reflexivity.
Qed.

Lemma zoom_pcm_destroy_frees_what_init_allocated_witness :
  exists c,
    zoom_pcm_init granting_env = Some (0, c) /\
    heap c = runtime_blocks /\
    zoom_pcm_destroy c = Some {| chip_pcm := None; heap := [] |} /\
    zoom_pcm_destroy {| chip_pcm := None; heap := [] |} = None.
Proof.
  apply (zoom_pcm_destroy_frees_what_init_allocated granting_env).
  repeat split; intros; reflexivity || discriminate.
Defined.

(** ** The transcoder stays inside its buffers *)

Lemma outside_refl lo hi b : outside lo hi b b.
Proof. repeat split. Qed.

Lemma outside_trans lo hi b1 b2 b3 :
  outside lo hi b1 b2 -> outside lo hi b2 b3 -> outside lo hi b1 b3.
Proof. unfold outside. intuition congruence. Qed.

Lemma wr8_outside lo hi b k v :
  lo <= k < hi -> outside lo hi b (wr8 b k v).
Proof.
  intros Hk. unfold outside, wr8, buf in *.
  destruct (Z.ltb_spec k 0) as [Hneg|Hpos]; [repeat split|].
  split; [apply length_insert|]. split.
  - apply take_insert_ge. lia.
  - apply drop_insert_lt. lia.
Qed.

Lemma store_u32_outside lo hi p o w :
  lo <= ofs p + 4 * o -> ofs p + 4 * o + 4 <= hi ->
  outside lo hi (blk p) (blk (store_u32 p o w)) /\
  ofs (store_u32 p o w) = ofs p.
Proof.
  intros Hlo Hhi. unfold store_u32. destruct w as [b0 b1 b2 b3].
  cbn [blk ofs]. split; [|reflexivity].
  repeat (eapply outside_trans; [|apply wr8_outside; lia]).
  apply outside_refl.
Qed.

Lemma capture_frame_outside n : forall dest src skip l i o lo hi,
  0 <= o -> o + Z.of_nat n < 4294967296 ->
  lo <= ofs dest + 4 * o ->
  (ofs dest + 4 * (o + Z.of_nat n) <= hi
   \/ l <> 0 /\ ofs dest + 4 * (l / 4) <= hi) ->
  let '(dest', i', o', r) := capture_frame n dest src skip l i o in
  outside lo hi (blk dest) (blk dest') /\ ofs dest' = ofs dest /\
  o <= o' <= o + Z.of_nat n.
Proof.
  induction n as [|n IH]; intros dest src skip l i o lo hi Ho Hn Hlo Hhi;
    cbn [capture_frame].
  - split; [apply outside_refl|]. split; [reflexivity | lia].
  - destruct (negb (skip =? 0) && (i <? skip / 4)).
    + specialize (IH dest src skip l (uint (i + 1)) o lo hi).
      destruct (capture_frame n dest src skip l (uint (i + 1)) o)
        as [[[d' i'] o'] r].
      destruct IH as (H1 & H2 & H3); [lia | lia | lia | |].
      { destruct Hhi as [Hhi|Hhi]; [left; lia | right; exact Hhi]. }
      split; [exact H1|]. split; [exact H2 | lia].
    + destruct (negb (l =? 0) && (l / 4 <=? o)) eqn:Hlim.
      * split; [apply outside_refl|]. split; [reflexivity | lia].
      * assert (Hw : ofs dest + 4 * o + 4 <= hi).
        { destruct Hhi as [Hhi|[Hl Hhi]]; [lia|].
          apply andb_false_iff in Hlim as [Hlim|Hlim].
          - apply negb_false_iff, Z.eqb_eq in Hlim. contradiction.
          - apply Z.leb_gt in Hlim. lia. }
        destruct (store_u32_outside lo hi dest o (load_u32 src i) Hlo Hw)
          as [Hout Hofs].
        rewrite (uint_small (o + 1)) by lia.
        specialize (IH (store_u32 dest o (load_u32 src i)) src skip l
                       (uint (i + 1)) (o + 1) lo hi).
        destruct (capture_frame n (store_u32 dest o (load_u32 src i)) src
                                skip l (uint (i + 1)) (o + 1))
          as [[[d' i'] o'] r].
        destruct IH as (H1 & H2 & H3); [lia | lia | lia | |].
        { rewrite Hofs.
          destruct Hhi as [Hhi|Hhi]; [left; lia | right; exact Hhi]. }
        split; [eapply outside_trans; eassumption|].
        split; [congruence | lia].
Qed.

Lemma slots_left_step i i' :
  0 <= i < 128 -> i mod 32 = 0 -> i < i' ->
  slots_left i' + 1 <= slots_left i.
Proof.
  intros Hi Hmod Hlt. pose proof (Z.div_mod i 32 ltac:(lia)) as Hq.
  unfold slots_left.
  repeat match goal with
         | |- context [?a <=? ?b] => destruct (Z.leb_spec a b)
         end; lia.
Qed.

Lemma slots_left_mono i i' : i <= i' -> slots_left i' <= slots_left i.
Proof.
  intros Hle. unfold slots_left.
  repeat match goal with
         | |- context [?a <=? ?b] => destruct (Z.leb_spec a b)
         end; lia.
Qed.

Lemma slots_left_range i : 0 <= slots_left i <= 4.
Proof.
  unfold slots_left.
  repeat match goal with
         | |- context [?a <=? ?b] => destruct (Z.leb_spec a b)
         end; lia.
Qed.

Lemma capture_loop_outside fuel : forall dest src ch skip l i o lo hi,
  0 <= ch <= 255 -> 0 <= i -> 0 <= o ->
  lo <= ofs dest + 4 * o ->
  o + ch * slots_left i <= 4 * ch ->
  (ofs dest + 4 * (o + ch * slots_left i) <= hi
   \/ l <> 0 /\ ofs dest + 4 * (l / 4) <= hi) ->
  outside lo hi (blk dest)
          (blk (capture_loop fuel dest src ch skip l i o)).
Proof.
  induction fuel as [|fuel IH];
    intros dest src ch skip l i o lo hi Hch Hi Ho Hlo Hroom Hhi;
    cbn [capture_loop]; [apply outside_refl|].
  destruct (Z.ltb_spec i (PCM_URB_SIZE / 4)) as [Hlt|_];
    [|apply outside_refl].
  change (PCM_URB_SIZE / 4) with 128 in Hlt.
  destruct (Z.eqb_spec (i mod 32) 0) as [Hmod|Hmod]; cbn [negb].
  - pose proof (capture_frame_outside (Z.to_nat ch) dest src skip l i o lo hi)
      as Hframe.
    pose proof (slots_left_range i) as Hr.
    assert (H1 : 1 <= slots_left i).
    { pose proof (slots_left_step i (i + 1) ltac:(lia) Hmod ltac:(lia)).
      pose proof (slots_left_range (i + 1)). lia. }
    pose proof (capture_frame_index (Z.to_nat ch) dest src skip l i o
                  ltac:(lia) ltac:(lia)) as Hidx.
    destruct (capture_frame (Z.to_nat ch) dest src skip l i o)
      as [[[d' i'] o'] r].
    cbn in Hidx.
    destruct Hframe as (Hout & Hofs & Ho'); [lia | nia | lia | |].
    { destruct Hhi as [Hhi|Hhi]; [left; nia | right; exact Hhi]. }
    destruct r; [exact Hout|].
    eapply outside_trans; [exact Hout|].
    rewrite uint_small by lia.
    pose proof (slots_left_step i (i' + 1) ltac:(lia) Hmod ltac:(lia))
      as Hstep.
    pose proof (slots_left_range (i' + 1)) as Hr'.
    apply IH; try lia; rewrite ?Hofs.
    + nia.
    + destruct Hhi as [Hhi|Hhi]; [left; nia | right; exact Hhi].
  - rewrite uint_small by lia.
    pose proof (slots_left_mono i (i + 1) ltac:(lia)) as Hmono.
    pose proof (slots_left_range (i + 1)) as Hr'.
    apply IH; try lia.
    + nia.
    + destruct Hhi as [Hhi|Hhi]; [left; nia | right; exact Hhi].
Qed.

(** X24.  [memcpy_pcm_capture] stays inside its destination.  Whatever the
    packet, the channel count (a [u8]), [skip] and the limit [l], and
    wherever [dest] points into a block, the call changes no byte of the
    block outside the [16 * ch] bytes at [dest] (four frames), and with a
    limit no byte outside the first [l] bytes at [dest]: in the
    wrap-around branch of [zoom_pcm_capture] the first copy, limited to the
    bytes left in the ring, does not run over the end of the ring. *)
Theorem memcpy_pcm_capture_stays_in_bounds
  (b : buf) (off : Z) (src : u8ptr) (ch skip l : Z) :
  0 <= off -> 0 <= ch <= 255 ->
  let out := memcpy_pcm_capture (U8Ptr b off) src ch skip l in
  length out = length b /\
  take (Z.to_nat off) out = take (Z.to_nat off) b /\
  drop (Z.to_nat (off + 16 * ch)) out = drop (Z.to_nat (off + 16 * ch)) b /\
  (0 < l -> drop (Z.to_nat (off + l)) out = drop (Z.to_nat (off + l)) b).
Proof.
  intros Hoff Hch out. subst out. unfold memcpy_pcm_capture.
  assert (H16 : outside off (off + 16 * ch) b
            (blk (capture_loop (Z.to_nat (PCM_URB_SIZE / 4)) (U8Ptr b off)
                               src ch skip l 0 0))).
  { apply (capture_loop_outside _ (U8Ptr b off)); cbn [ofs blk];
      try lia; [cbn; lia|]. left. cbn. lia. }
  destruct H16 as (Hlen & Htake & Hdrop).
  split; [exact Hlen|]. split; [exact Htake|]. split; [exact Hdrop|].
  intros Hl.
  assert (Hlim : outside off (off + l) b
            (blk (capture_loop (Z.to_nat (PCM_URB_SIZE / 4)) (U8Ptr b off)
                               src ch skip l 0 0))).
  { apply (capture_loop_outside _ (U8Ptr b off)); cbn [ofs blk];
      try lia; [cbn; lia|]. right. split; [lia|].
    pose proof (Z.mul_div_le l 4 ltac:(lia)). lia. }
  apply Hlim.
Qed.

(** The first copy of a wrap-around capture: 16 bytes are left in the
    ring of 1024 bytes. *)
Lemma memcpy_pcm_capture_stays_in_bounds_witness :
  length (memcpy_pcm_capture (U8Ptr marker_area 1008)
                             (U8Ptr sample_packet 0) 2 0 16)
  = length marker_area /\
  take (Z.to_nat 1008)
       (memcpy_pcm_capture (U8Ptr marker_area 1008)
                           (U8Ptr sample_packet 0) 2 0 16)
  = take (Z.to_nat 1008) marker_area /\
  drop (Z.to_nat (1008 + 16 * 2))
       (memcpy_pcm_capture (U8Ptr marker_area 1008)
                           (U8Ptr sample_packet 0) 2 0 16)
  = drop (Z.to_nat (1008 + 16 * 2)) marker_area /\
  (0 < 16 ->
   drop (Z.to_nat (1008 + 16))
        (memcpy_pcm_capture (U8Ptr marker_area 1008)
                            (U8Ptr sample_packet 0) 2 0 16)
   = drop (Z.to_nat (1008 + 16)) marker_area).
Proof.
  apply (memcpy_pcm_capture_stays_in_bounds marker_area 1008
           (U8Ptr sample_packet 0) 2 0 16); lia.
Defined.

Lemma playback_frame_outside n : forall dest src i o lo hi,
  0 <= i -> i + Z.of_nat n < 4294967296 ->
  lo <= ofs dest + 4 * i ->
  ofs dest + 4 * (i + Z.of_nat n) <= hi ->
  outside lo hi (blk dest) (blk (playback_frame n dest src i o).1.1) /\
  ofs (playback_frame n dest src i o).1.1 = ofs dest.
Proof.
  induction n as [|n IH]; intros dest src i o lo hi Hi Hn Hlo Hhi;
    cbn [playback_frame].
  - split; [apply outside_refl | reflexivity].
  - destruct (store_u32_outside lo hi dest i (load_u32 src o) Hlo
                ltac:(lia)) as [Hout Hofs].
    rewrite (uint_small (i + 1)) by lia.
    destruct (IH (store_u32 dest i (load_u32 src o)) src (i + 1)
                 (uint (o + 1)) lo hi) as [H1 H2]; try lia;
      try (rewrite Hofs; lia).
    split; [eapply outside_trans; eassumption | congruence].
Qed.

Lemma playback_loop_outside fuel : forall dest src ch i o,
  0 <= ch <= 32 -> 0 <= i ->
  outside (ofs dest) (ofs dest + PCM_URB_SIZE) (blk dest)
          (blk (playback_loop fuel dest src ch i o)).
Proof.
  induction fuel as [|fuel IH]; intros dest src ch i o Hch Hi;
    cbn [playback_loop]; [apply outside_refl|].
  destruct (Z.ltb_spec i (PCM_URB_SIZE / 4)) as [Hlt|_];
    [|apply outside_refl].
  change (PCM_URB_SIZE / 4) with 128 in Hlt.
  unfold PCM_URB_SIZE in *.
  destruct (Z.eqb_spec (i mod 32) 0) as [Hmod|Hmod]; cbn [negb].
  - pose proof (Z.div_mod i 32 ltac:(lia)) as Hq.
    pose proof (playback_frame_outside (Z.to_nat ch) dest src i o
                  (ofs dest) (ofs dest + 512)
                  ltac:(lia) ltac:(lia) ltac:(lia) ltac:(lia))
      as [Hout Hofs].
    pose proof (playback_frame_index (Z.to_nat ch) dest src i o
                  ltac:(lia) ltac:(lia)) as Hidx.
    destruct (playback_frame (Z.to_nat ch) dest src i o) as [[d' i'] o'].
    cbn [fst snd] in *.
    eapply outside_trans; [exact Hout|].
    rewrite <- Hofs. apply IH; [lia|].
    rewrite uint_small by lia. lia.
  - destruct (store_u32_outside (ofs dest) (ofs dest + 512) dest i u32_zero
                ltac:(lia) ltac:(lia)) as [Hout Hofs].
    eapply outside_trans; [exact Hout|].
    rewrite <- Hofs. apply IH; [lia|].
    rewrite uint_small by lia. lia.
Qed.

(** X25.  [memcpy_pcm_playback] stays inside the packet.  For up to 32
    channels, whatever the source and wherever [dest] points into a block,
    the call changes no byte of the block outside the 512 bytes at [dest]:
    the packet buffer of a URB is not overrun. *)
Theorem memcpy_pcm_playback_stays_in_packet
  (b : buf) (off : Z) (src : u8ptr) (ch : Z) :
  0 <= off -> 0 <= ch <= 32 ->
  let out := memcpy_pcm_playback (U8Ptr b off) src ch in
  length out = length b /\
  take (Z.to_nat off) out = take (Z.to_nat off) b /\
  drop (Z.to_nat (off + 512)) out = drop (Z.to_nat (off + 512)) b.
Proof.
  intros Hoff Hch out. subst out. unfold memcpy_pcm_playback.
  apply (playback_loop_outside _ (U8Ptr b off)); lia.
Qed.

Lemma memcpy_pcm_playback_stays_in_packet_witness :
  length (memcpy_pcm_playback (U8Ptr guarded_packet 0)
                              (U8Ptr sample_frames 0) 4)
  = length guarded_packet /\
  take (Z.to_nat 0)
       (memcpy_pcm_playback (U8Ptr guarded_packet 0)
                            (U8Ptr sample_frames 0) 4)
  = take (Z.to_nat 0) guarded_packet /\
  drop (Z.to_nat (0 + 512))
       (memcpy_pcm_playback (U8Ptr guarded_packet 0)
                            (U8Ptr sample_frames 0) 4)
  = drop (Z.to_nat (0 + 512)) guarded_packet.
Proof.
  apply (memcpy_pcm_playback_stays_in_packet guarded_packet 0
           (U8Ptr sample_frames 0) 4); lia.
Defined.

(** ** Probe *)

Lemma first_enabled_spec (enable : list bool) : forall i,
  (i <= first_enabled enable i <= i + length enable)%nat /\
  ((first_enabled enable i < i + length enable)%nat
   <-> exists k, enable !! k = Some true) /\
  ((first_enabled enable i < i + length enable)%nat ->
   enable !! (first_enabled enable i - i)%nat = Some true).
Proof.
  induction enable as [|e enable IH]; intros i; cbn [first_enabled length].
  - split; [lia|]. split; [|lia].
    split; [lia | intros [k Hk]; discriminate].
  - destruct e.
    + split; [lia|]. split.
      * split; [intros _; exists 0%nat; reflexivity | lia].
      * intros _. rewrite Nat.sub_diag. reflexivity.
    + destruct (IH (S i)) as (Hr & Hex & Hat).
      split; [lia|]. split.
      * split.
        -- intros Hlt. destruct (proj1 Hex ltac:(lia)) as [k Hk].
           exists (S k). exact Hk.
        -- intros [[|k] Hk]; [discriminate|].
           cbn in Hk. pose proof (proj2 Hex (ex_intro _ k Hk)). lia.
      * intros Hlt.
        replace (first_enabled enable (S i) - i)%nat
          with (S (first_enabled enable (S i) - S i)) by lia.
        cbn. apply Hat. lia.
Qed.

(** Every way [zoom_chip_probe] can end. *)
Lemma zoom_chip_probe_cases (env : probe_env) :
  let i := first_enabled (enable env) 0 in
  exists r,
    zoom_chip_probe env = Some r /\
    ((forall k, enable env !! k <> Some true) /\
     r = {| probe_ret := - ENODEV; intfdata := None; probe_heap := [];
            probe_calls := [register_mutex_lock_call;
                            register_mutex_unlock_call] |}
     \/
     enable env !! i = Some true /\
     (snd_card_new env < 0 /\
      r = {| probe_ret := snd_card_new env; intfdata := None;
             probe_heap := [];
             probe_calls := [register_mutex_lock_call; snd_card_new_call i;
                             register_mutex_unlock_call] |}
      \/
      0 <= snd_card_new env /\
      (~ init_succeeds (pcm_env env) /\
       probe_ret r < 0 /\ intfdata r = None /\
       probe_calls r = [register_mutex_lock_call; snd_card_new_call i;
                        snd_card_free_call; register_mutex_unlock_call] /\
       (probe_heap r = [BlockRt] /\ probe_ret r = - EIO /\
        (init_interface_1 (pcm_env env) <> 0
         \/ init_interface_2 (pcm_env env) <> 0)
        \/ probe_heap r = [])
       \/
       init_succeeds (pcm_env env) /\
       (snd_card_register env < 0 /\
        r = {| probe_ret := snd_card_register env; intfdata := None;
               probe_heap := [];
               probe_calls :=
                 [register_mutex_lock_call; snd_card_new_call i;
                  snd_card_register_call; snd_card_free_call;
                  register_mutex_unlock_call] |}
        \/
        0 <= snd_card_register env /\
        r = {| probe_ret := 0;
               intfdata := Some {| chip_pcm := Some fresh_runtime;
                                   heap := runtime_blocks |};
               probe_heap := runtime_blocks;
               probe_calls :=
                 [register_mutex_lock_call; snd_card_new_call i;
                  snd_card_register_call; register_mutex_unlock_call;
                  usb_set_intfdata_call] |})))).
Proof.
  intros i. unfold zoom_chip_probe. fold i.
  destruct (first_enabled_spec (enable env) 0%nat) as (Hr & Hex & Hat).
  fold i in Hr, Hex, Hat. rewrite Nat.sub_0_r in Hat.
  destruct (Nat.leb_spec (length (enable env)) i) as [Hnone|Hsome].
  { eexists. split; [reflexivity|]. left. split; [|reflexivity].
    intros k Hk. pose proof (proj2 Hex (ex_intro _ k Hk)). lia. }
  assert (Hi : enable env !! i = Some true) by (apply Hat; lia).
  unfold zoom_chip_create.
  destruct (Z.ltb_spec (snd_card_new env) 0) as [Hnew|Hnew].
  { destruct (Z.ltb_spec (snd_card_new env) 0) as [_|]; [|lia].
    eexists. split; [reflexivity|]. right. split; [exact Hi|].
    left. split; [exact Hnew | reflexivity]. }
  cbn [Z.ltb Z.compare].
  destruct (zoom_pcm_init_cases (pcm_env env))
    as (ret & c & -> & [(Hok & -> & Hpcm & Hheap)
                       |(Hno & Hneg & Hpcm & Hheap)]).
  - cbn [Z.ltb Z.compare].
    destruct (Z.ltb_spec (snd_card_register env) 0) as [Hreg|Hreg].
    + unfold zoom_pcm_free, zoom_pcm_destroy. rewrite Hpcm.
      rewrite free_runtime_nil. cbn [heap].
      eexists. split; [reflexivity|]. right. split; [exact Hi|].
      right. split; [exact Hnew|]. right. split; [exact Hok|].
      left. split; [exact Hreg | reflexivity].
    + eexists. split; [reflexivity|]. right. split; [exact Hi|].
      right. split; [exact Hnew|]. right. split; [exact Hok|].
      right. split; [exact Hreg|].
      destruct c as [pcm h]. cbn in Hpcm, Hheap. subst pcm h. reflexivity.
  - destruct (Z.ltb_spec ret 0) as [_|]; [|lia].
    unfold zoom_pcm_free. rewrite Hpcm.
    eexists. split; [reflexivity|]. right. split; [exact Hi|].
    right. split; [exact Hnew|]. left. split; [exact Hno|].
    cbn [probe_ret intfdata probe_calls probe_heap].
    split; [exact Hneg|]. split; [reflexivity|]. split; [reflexivity|].
    destruct Hheap as [(Hh & Hr' & _ & Hif)|(Hh & _)]; auto.
Qed.

(** X26.  [zoom_chip_probe] returns 0 exactly when a card slot is enabled
    and [snd_card_new], [zoom_pcm_init] and [snd_card_register] all
    succeed.  Then the card was created for the first enabled slot, and
    the interface data is the chip with the fresh runtime, published with
    [usb_set_intfdata] after the register mutex was released.  Otherwise
    the code returned is negative and the interface data is never set. *)
Theorem zoom_chip_probe_succeeds_iff (env : probe_env) :
  exists r,
    zoom_chip_probe env = Some r /\
    (probe_ret r = 0 <-> probe_succeeds env) /\
    (probe_ret r = 0 ->
     enable env !! first_enabled (enable env) 0 = Some true /\
     intfdata r = Some {| chip_pcm := Some fresh_runtime;
                          heap := runtime_blocks |} /\
     probe_calls r
     = [register_mutex_lock_call;
        snd_card_new_call (first_enabled (enable env) 0);
        snd_card_register_call; register_mutex_unlock_call;
        usb_set_intfdata_call]) /\
    (probe_ret r <> 0 ->
     probe_ret r < 0 /\ intfdata r = None /\
     ~ In usb_set_intfdata_call (probe_calls r)).
Proof.
  destruct (zoom_chip_probe_cases env) as (r & Hrun & Hcases).
  exists r. split; [exact Hrun|].
  destruct Hcases as [(Hnone & ->)|(Hi & Hcases)].
  { cbn. split; [split; [discriminate|]|].
    - intros [[k Hk] _]. destruct (Hnone k Hk).
    - split; [discriminate|]. intros _. split; [reflexivity|].
      split; [reflexivity|]. intros [H|[H|[]]]; discriminate H. }
  destruct Hcases as [(Hnew & ->)|(Hnew & Hcases)].
  { cbn. split; [split; [lia|]|].
    - intros (_ & H & _). lia.
    - split; [lia|]. intros _. split; [exact Hnew|].
      split; [reflexivity|]. intros [H|[H|[H|[]]]]; discriminate H. }
  destruct Hcases as [(Hno & Hneg & Hdata & Hcalls & _)|(Hok & Hcases)].
  { split; [split; [lia|]|].
    - intros (_ & _ & H & _). contradiction.
    - split; [lia|]. intros _. split; [exact Hneg|].
      split; [exact Hdata|]. rewrite Hcalls.
      intros [H|[H|[H|[H|[]]]]]; discriminate H. }
  destruct Hcases as [(Hreg & ->)|(Hreg & ->)].
  { cbn. split; [split; [lia|]|].
    - intros (_ & _ & _ & H). lia.
    - split; [lia|]. intros _. split; [exact Hreg|].
      split; [reflexivity|]. intros [H|[H|[H|[H|[H|[]]]]]]; discriminate H. }
  cbn. split; [split; [intros _|reflexivity]|].
  - split; [eauto|]. split; [exact Hnew|]. split; [exact Hok | exact Hreg].
  - split; [|intros H; contradiction].
    intros _. split; [exact Hi|]. split; reflexivity.
Qed.

(** X27.  What [zoom_chip_probe] cleans up.  On every path it takes the
    register mutex first and releases it exactly once.  When it fails
    after [snd_card_new] succeeded it frees the card; when it fails
    earlier, or succeeds, it does not.  After a failure none of the memory
    of the runtime is still allocated, except when an interface setting
    was refused inside [zoom_pcm_init]: that runtime is still allocated
    after the card was freed, since no PCM device refers to it. *)
Theorem zoom_chip_probe_cleans_up (env : probe_env) :
  exists r,
    zoom_chip_probe env = Some r /\
    (exists mid tail,
       probe_calls r
       = register_mutex_lock_call :: mid
         ++ register_mutex_unlock_call :: tail /\
       ~ In register_mutex_lock_call (mid ++ tail) /\
       ~ In register_mutex_unlock_call (mid ++ tail) /\
       (tail = [] \/ tail = [usb_set_intfdata_call])) /\
    (In snd_card_free_call (probe_calls r)
     <-> probe_ret r <> 0 /\ 0 <= snd_card_new env /\
         exists k, enable env !! k = Some true) /\
    (probe_ret r <> 0 ->
     probe_heap r = []
     \/ probe_heap r = [BlockRt] /\ probe_ret r = - EIO /\
        (init_interface_1 (pcm_env env) <> 0
         \/ init_interface_2 (pcm_env env) <> 0)).
Proof.
  destruct (zoom_chip_probe_cases env) as (r & Hrun & Hcases).
  exists r. split; [exact Hrun|].
  destruct Hcases as [(Hnone & ->)|(Hi & Hcases)].
  { cbn. split.
    - exists [], []. split; [reflexivity|]. cbn. tauto.
    - split; [|auto]. split; [intros [H|[H|[]]]; discriminate H|].
      intros (_ & _ & k & Hk). destruct (Hnone k Hk). }
  destruct Hcases as [(Hnew & ->)|(Hnew & Hcases)].
  { cbn. split.
    - eexists [_], []. split; [reflexivity|]. cbn.
      split; [intros [H|[]]; discriminate H|].
      split; [intros [H|[]]; discriminate H | auto].
    - split; [|auto]. split; [intros [H|[H|[H|[]]]]; discriminate H|].
      intros (_ & H & _). lia. }
  destruct Hcases as [(Hno & Hneg & Hdata & Hcalls & Hheap)|(Hok & Hcases)].
  { rewrite Hcalls. split.
    - eexists [_; _], []. split; [reflexivity|]. cbn.
      split; [intros [H|[H|[]]]; discriminate H|].
      split; [intros [H|[H|[]]]; discriminate H | auto].
    - split.
      + split; [intros _|intros _; cbn; auto].
        split; [lia|]. split; [exact Hnew | eauto].
      + intros _. destruct Hheap as [H|H]; auto. }
  destruct Hcases as [(Hreg & ->)|(Hreg & ->)].
  { cbn. split.
    - eexists [_; _; _], []. split; [reflexivity|]. cbn.
      split; [intros [H|[H|[H|[]]]]; discriminate H|].
      split; [intros [H|[H|[H|[]]]]; discriminate H | auto].
    - split; [|auto]. split; [intros _|intros _; auto 10].
      split; [lia|]. split; [exact Hnew | eauto]. }
  cbn. split.
  - eexists [_; _], [_]. split; [reflexivity|]. cbn.
    split; [intros [H|[H|[H|[]]]]; discriminate H|].
    split; [intros [H|[H|[H|[]]]]; discriminate H | auto].
  - split; [|intros H; contradiction].
    split; [intros [H|[H|[H|[H|[H|[]]]]]]; discriminate H|].
    intros (H & _). contradiction.
Qed.

(** ** The wrap-around branch of playback *)

(** X28.  Whenever the next four frames would cross the end of the ring
    (ring of at least one payload, offsets in range), [zoom_pcm_playback]
    returns with the URB exactly as it was: no byte of the ring is copied
    and the packet goes out with what it held before, while [dma_off]
    moves on past those frames to [dma_off + 16 * ch - buffer size]. *)
Theorem playback_across_the_wrap_copies_nothing
  (sub : pcm_substream) (urb : pcm_urb) (a : snd_pcm_substream) :
  instance sub = Some a ->
  let ch := channels (runtime a) in
  let bs := uint (snd_pcm_lib_buffer_bytes a) in
  0 <= ch ->
  16 * ch <= bs ->
  0 <= dma_off sub < bs ->
  bs < dma_off sub + 16 * ch ->
  0 <= period_off sub < period_size (runtime a) ->
  exists sub' elapsed,
    zoom_pcm_playback sub urb = Some (sub', urb, elapsed) /\
    dma_off sub' = dma_off sub + 16 * ch - bs /\
    instance sub' = Some a /\
    active sub' = active sub.
Proof.
  intros Hinst ch bs Hch Hfit Hd Hwrap Hp.
  pose proof (uint_range (snd_pcm_lib_buffer_bytes a)) as Hbs.
  assert (Hpl : uint (uint (4 * ch) * 4) = 16 * ch).
  { rewrite (pcm_len_exact ch (snd_pcm_lib_buffer_bytes a)); fold bs; lia. }
  unfold zoom_pcm_playback. rewrite Hinst. cbv zeta.
  fold ch bs. rewrite Hpl.
  rewrite (ulong_small (dma_off sub + 16 * ch)) by lia.
  destruct (Z.leb_spec (dma_off sub + 16 * ch) bs) as [|_]; [lia|].
  destruct (advance_spec sub bs (16 * ch) (period_size (runtime a)))
    as (sub' & e & Hadv & Hrel & Hi & Ha); [lia | lia | exact Hp | lia |].
  rewrite Hadv. exists sub', e.
  split; [reflexivity|]. split; [|split; [congruence | exact Ha]].
  destruct Hrel as (-> & _).
  symmetry. apply (Z.mod_unique _ _ 1); lia.
Qed.

Lemma playback_across_the_wrap_copies_nothing_witness :
  exists sub' elapsed,
    zoom_pcm_playback (sub_at 0 wrapped_area 1008 0) stale_urb
    = Some (sub', stale_urb, elapsed) /\
    dma_off sub' = 1008 + 16 * 2 - 1024 /\
    instance sub' = Some (ring 0 wrapped_area) /\
    active sub' = true.
Proof.
  apply (playback_across_the_wrap_copies_nothing
           (sub_at 0 wrapped_area 1008 0) stale_urb (ring 0 wrapped_area));
    first [ reflexivity | discriminate
          | vm_compute; split; [discriminate | reflexivity]
          | vm_compute; discriminate ].
Defined.

(** ** The hardware descriptions *)

(** X29.  The limits the driver advertises to ALSA leave room for a
    packet: with a channel count, a period and a number of periods inside
    the limits of [pcm_hw] (playback) or [pcm_hw_rec] (capture), the
    payload of a packet, [4 * ch * 4] bytes, is at most the size of the
    ring buffer and at most two periods. *)
Theorem advertised_limits_leave_room_for_a_packet
  (w : which_sub) (ch period_bytes periods : Z) :
  channels_min (hw_of w) <= ch <= channels_max (hw_of w) ->
  period_bytes_min (hw_of w) <= period_bytes ->
  periods_min (hw_of w) <= periods ->
  4 * ch * 4 <= periods * period_bytes /\ 4 * ch * 4 <= 2 * period_bytes.
Proof.
  destruct w; cbn [hw_of channels_min channels_max period_bytes_min
                   periods_min pcm_hw pcm_hw_rec];
    unfold PCM_PACKET_SIZE; intros Hch Hpb Hn; split; nia.
Qed.

Lemma advertised_limits_leave_room_for_a_packet_witness :
  4 * 12 * 4 <= 2 * 192 /\ 4 * 12 * 4 <= 2 * 192.
Proof.
  apply (advertised_limits_leave_room_for_a_packet Capture 12 192 2);
    vm_compute; try split; discriminate.
Defined.

(** ** The two ways a start reports [-EIO] *)

(** X30.  Started on a DISABLED stream, [zoom_pcm_stream_start] returns
    [-EIO] on two paths.  When the device refuses an interface setting,
    nothing is submitted and the runtime is left as it was, but for the
    panic flag, which the start has cleared.  When both settings and all
    eight submissions are accepted but nothing completes while the
    starter waits with the start condition clear, the start stops the
    stream again: it is DISABLED and no URB is left in flight. *)
Theorem start_reports_eio (e : start_env) (rt : pcm_runtime) :
  stream_state rt = STREAM_DISABLED ->
  (set_interface_1 e <> 0 \/ set_interface_2 e <> 0 ->
   exists calls,
     zoom_pcm_stream_start e rt = Done (- EIO) (set_panic false rt) calls /\
     existsb is_submit calls = false) /\
  (set_interface_1 e = 0 -> set_interface_2 e = 0 ->
   (forall i, submit_out e i = 0) -> (forall i, submit_in e i = 0) ->
   stream_wait_cond rt = false ->
   completions e = [] ->
   exists rt' calls,
     zoom_pcm_stream_start e rt = Done (- EIO) rt' calls /\
     stream_state rt' = STREAM_DISABLED /\
     (forall d i, in_flight (urb d i rt') = false)).
Proof.
  intros Hst. split.
  - intros Hfail. apply start_interface_failure; assumption.
  - intros H1 H2 Hout Hin Hc Hw.
    apply first_start_timeout; assumption.
Qed.

Lemma start_reports_eio_witness :
  (set_interface_1 (ok_start []) <> 0 \/ set_interface_2 (ok_start []) <> 0 ->
   exists calls,
     zoom_pcm_stream_start (ok_start []) fresh_runtime
     = Done (- EIO) (set_panic false fresh_runtime) calls /\
     existsb is_submit calls = false) /\
  (set_interface_1 (ok_start []) = 0 -> set_interface_2 (ok_start []) = 0 ->
   (forall i, submit_out (ok_start []) i = 0) ->
   (forall i, submit_in (ok_start []) i = 0) ->
   stream_wait_cond fresh_runtime = false ->
   completions (ok_start []) = [] ->
   exists rt' calls,
     zoom_pcm_stream_start (ok_start []) fresh_runtime
     = Done (- EIO) rt' calls /\
     stream_state rt' = STREAM_DISABLED /\
     (forall d i, in_flight (urb d i rt') = false)).
Proof.
  apply (start_reports_eio (ok_start []) fresh_runtime). reflexivity.
Defined.

(** ** The packets of a playback session *)

(** Whatever the source, [memcpy_pcm_playback] leaves the word at index
    [ch] of each slot as it finds it. *)
Lemma memcpy_pcm_playback_keeps_padding (ch : Z) (packet : buf)
  (src : u8ptr) :
  2 <= ch <= 4 ->
  length packet = 512%nat ->
  let out := memcpy_pcm_playback (U8Ptr packet 0) src (u8 ch) in
  length out = 512%nat /\
  (padding_clear ch packet -> padding_clear ch out).
Proof.
  intros Hch Hp.
  each_Z ch 2; tabulate_buf packet Hp; vm_compute;
    (split; [reflexivity|]);
    intros ([= ? ? ? ?] & [= ? ? ? ?] & [= ? ? ? ?] & [= ? ? ? ?]);
    repeat split; congruence.
Qed.

(** One call of [zoom_pcm_playback], whether it copies or takes the wrap
    branch. *)
Lemma zoom_pcm_playback_keeps_padding
  (sub : pcm_substream) (urb : pcm_urb) (a : snd_pcm_substream)
  (r : pcm_substream * pcm_urb * bool) :
  instance sub = Some a ->
  2 <= channels (runtime a) <= 4 ->
  length (buffer urb) = 512%nat ->
  zoom_pcm_playback sub urb = Some r ->
  length (buffer r.1.2) = 512%nat /\
  (padding_clear (channels (runtime a)) (buffer urb) ->
   padding_clear (channels (runtime a)) (buffer r.1.2)) /\
  instance r.1.1 = Some a.
Proof.
  intros Hinst Hch Hl. unfold zoom_pcm_playback. rewrite Hinst.
  cbv zeta.
  destruct (advance _ _ _ _) as [[s e]|] eqn:Hadv; [|discriminate].
  intros [= <-]. cbn [fst snd].
  apply advance_keeps in Hadv as [_ Hi].
  split; [|split; [|congruence]];
    (destruct (_ <=? _); [|tauto]);
    cbn [buffer set_buffer];
    apply (memcpy_pcm_playback_keeps_padding _ _ _ Hch Hl).
Qed.

Lemma packets_clear_set_urb_in a S i u rt :
  packets_clear a S rt -> packets_clear a S (set_urb DirIn i u rt).
Proof. intros H. exact H. Qed.

Lemma packets_clear_set_urb_out a S i u rt :
  packets_clear a S rt ->
  length (buffer u) = 512%nat ->
  (S i -> padding_clear (channels (runtime a)) (buffer u)) ->
  packets_clear a S (set_urb DirOut i u rt).
Proof.
  intros [Hi H] Hl Hc. split; [exact Hi|]. intros j.
  destruct (decide (i = j)) as [<-|Hij].
  - rewrite urb_set_urb_same. split; assumption.
  - rewrite urb_set_urb_other by congruence. apply H.
Qed.

(** The completion handler of an out-URB encodes into the packet or
    zeroes it. *)
Lemma out_handler_keeps_packets
  (i : fin PCM_N_URBS) (status resubmit : Z) (rt : pcm_runtime)
  (a : snd_pcm_substream) (S : fin PCM_N_URBS -> Prop) :
  2 <= channels (runtime a) <= 4 ->
  packets_clear a S rt ->
  wlp (zoom_pcm_out_urb_handler i status resubmit) rt
      (fun _ rt' _ => packets_clear a S rt').
Proof.
  intros Hch Hclear. pose proof Hclear as [Hinst Hall].
  unfold wlp, zoom_pcm_out_urb_handler, usb_submit_urb, mbind, M_bind, get,
    modify, emit, fault.
  crunch; try exact I; try exact Hclear.
  all: try match goal with
           | H : zoom_pcm_playback _ _ = Some ?r |- _ =>
               destruct (zoom_pcm_playback_keeps_padding _ _ a r Hinst
                           Hch (proj1 (Hall i)) H)
                 as (Hl' & Hc' & Hi'); cbn [fst snd] in Hl', Hc', Hi'
           end.
  all: (split; [first [exact Hinst | exact Hi']|]).
  all: intros j; strip_urb.
  all: destruct (decide (i = j)) as [<-|Hij];
    [ rewrite ?urb_set_urb_same; strip_urb; rewrite ?urb_set_urb_same
    | repeat first [ rewrite urb_set_urb_other by congruence
                   | progress strip_urb ];
      exact (Hall j) ].
  all: cbn [buffer set_buffer set_in_flight].
  all: first [ split; [assumption|]; intros Hs; apply Hc';
               exact (proj2 (Hall i) Hs)
             | rewrite (memset_zero_whole _ (proj1 (Hall i)));
               split; [reflexivity|]; intros _;
               apply (memset_zero_clears_padding _ (replicate 512 x00) Hch);
               reflexivity ].
Qed.

(** The completion handler of an in-URB touches neither the out-URBs nor
    the playback substream. *)
Lemma in_handler_keeps_packets
  (i : fin PCM_N_URBS) (status resubmit : Z) (rt : pcm_runtime)
  (a : snd_pcm_substream) (S : fin PCM_N_URBS -> Prop) :
  packets_clear a S rt ->
  wlp (zoom_pcm_in_urb_handler i status resubmit) rt
      (fun _ rt' _ => packets_clear a S rt').
Proof.
  intros Hclear.
  unfold wlp, zoom_pcm_in_urb_handler, usb_submit_urb, mbind, M_bind, get,
    modify, emit, fault.
  crunch; try exact I; exact Hclear.
Qed.

Lemma giveback_keeps_packets (c : completion) (rt : pcm_runtime)
  (a : snd_pcm_substream) (S : fin PCM_N_URBS -> Prop) :
  2 <= channels (runtime a) <= 4 ->
  packets_clear a S rt ->
  wlp (giveback c) rt (fun _ rt' _ => packets_clear a S rt').
Proof.
  intros Hch Hclear.
  unfold giveback. apply wlp_bind. unfold wlp at 1, get.
  destruct (in_flight (urb (c_dir c) (c_idx c) rt)); [|exact Hclear].
  apply wlp_bind. unfold wlp at 1, modify.
  destruct (c_dir c).
  - apply out_handler_keeps_packets; [exact Hch|].
    apply packets_clear_set_urb_out; [exact Hclear | |];
      destruct (c_data c); apply (proj2 Hclear).
  - apply in_handler_keeps_packets. destruct (c_data c); exact Hclear.
Qed.

Lemma usb_submit_keeps_packets d i answer rt a S :
  packets_clear a S rt ->
  wlp (usb_submit_urb d i answer) rt (fun _ rt' _ => packets_clear a S rt').
Proof.
  intros Hclear.
  unfold wlp, usb_submit_urb, mbind, M_bind, get, modify, emit.
  crunch; [|exact Hclear].
  destruct d; [|exact Hclear].
  apply packets_clear_set_urb_out; [exact Hclear | |]; apply (proj2 Hclear).
Qed.

Lemma stop_urb_keeps_packets d answer i rt a S :
  2 <= channels (runtime a) <= 4 ->
  packets_clear a S rt ->
  wlp (stop_urb d answer i) rt (fun _ rt' _ => packets_clear a S rt').
Proof.
  intros Hch Hclear. unfold stop_urb, usb_wait_anchor_empty_timeout,
    usb_kill_anchored_urbs, usb_kill_urb.
  apply wlp_bind, wlp_bind. unfold wlp at 1, emit.
  unfold wlp at 1, mret, M_ret.
  apply wlp_bind.
  assert (H1 : wlp (if answer i =? 0
                    then emit (usb_kill_anchored_urbs_call d i);;
                         giveback (cancelled d i)
                    else mret tt) rt
                   (fun _ rt' _ => packets_clear a S rt')).
  { destruct (answer i =? 0); [|exact Hclear].
    apply wlp_bind. unfold wlp at 1, emit.
    apply giveback_keeps_packets; assumption. }
  eapply wlp_mono; [|exact H1].
  intros ? rt1 c1 Hc1. cbn beta in Hc1.
  apply wlp_bind. unfold wlp at 1, emit.
  eapply wlp_mono; [|apply giveback_keeps_packets; eassumption].
  intros ? rt2 c2 Hc2. exact Hc2.
Qed.

Lemma for_each_stop_keeps_packets d answer a S l : forall rt,
  2 <= channels (runtime a) <= 4 ->
  packets_clear a S rt ->
  wlp (for_each l (stop_urb d answer)) rt
      (fun _ rt' _ => packets_clear a S rt').
Proof.
  induction l as [|i l IH]; intros rt Hch Hclear; cbn [for_each].
  - exact Hclear.
  - apply wlp_bind.
    eapply wlp_mono; [|apply stop_urb_keeps_packets; eassumption].
    intros ? rt1 c1 Hc1. cbn beta in Hc1.
    eapply wlp_mono; [|apply IH; eassumption].
    intros ? rt2 c2 Hc2. exact Hc2.
Qed.

Lemma stream_stop_keeps_packets e rt a S :
  2 <= channels (runtime a) <= 4 ->
  packets_clear a S rt ->
  wlp (zoom_pcm_stream_stop e) rt (fun _ rt' _ => packets_clear a S rt').
Proof.
  intros Hch Hclear. unfold zoom_pcm_stream_stop.
  apply wlp_bind. unfold wlp at 1, get.
  destruct (negb _); [|exact Hclear].
  apply wlp_bind. unfold wlp at 1, modify.
  apply wlp_bind.
  eapply wlp_mono;
    [|apply for_each_stop_keeps_packets; [exact Hch | exact Hclear]].
  intros ? rt1 c1 Hc1. cbn beta in Hc1.
  apply wlp_bind.
  eapply wlp_mono;
    [|apply for_each_stop_keeps_packets; [exact Hch | exact Hc1]].
  intros ? rt2 c2 Hc2. exact Hc2.
Qed.

Lemma interface_init_keeps_packets answer1 answer2 e rt a S :
  2 <= channels (runtime a) <= 4 ->
  packets_clear a S rt ->
  wlp (zoom_interface_init answer1 answer2 e) rt
      (fun _ rt' _ => packets_clear a S rt').
Proof.
  intros Hch Hclear. unfold zoom_interface_init.
  apply wlp_bind. unfold wlp at 1, emit.
  destruct (negb (answer1 =? 0)).
  - apply wlp_bind.
    eapply wlp_mono; [|apply stream_stop_keeps_packets; eassumption].
    intros ? rt1 c1 Hc1. exact Hc1.
  - apply wlp_bind. unfold wlp at 1, emit.
    destruct (negb (answer2 =? 0)); [|exact Hclear].
    apply wlp_bind.
    eapply wlp_mono; [|apply stream_stop_keeps_packets; eassumption].
    intros ? rt1 c1 Hc1. exact Hc1.
Qed.

Lemma wait_event_keeps_packets a S window : forall rt,
  2 <= channels (runtime a) <= 4 ->
  packets_clear a S rt ->
  wlp (wait_event window) rt (fun _ rt' _ => packets_clear a S rt').
Proof.
  induction window as [|c window IH]; intros rt Hch Hclear;
    cbn [wait_event].
  - exact Hclear.
  - apply wlp_bind. unfold wlp at 1, get.
    destruct (stream_wait_cond rt); [exact Hclear|].
    apply wlp_bind.
    eapply wlp_mono; [|apply giveback_keeps_packets; eassumption].
    intros ? rt1 c1 Hc1. cbn beta in Hc1.
    eapply wlp_mono; [|apply IH; eassumption].
    intros ? rt2 c2 Hc2. exact Hc2.
Qed.

Lemma packets_clear_weaken a (S S' : fin PCM_N_URBS -> Prop) rt :
  (forall j, S' j -> S j) -> packets_clear a S rt -> packets_clear a S' rt.
Proof.
  intros Hsub [Hi H]. split; [exact Hi|]. intros j.
  split; [apply H|]. intros Hj. apply H, Hsub, Hj.
Qed.

(** The submission loop of a start zeroes the packet of every out-URB it
    passes; it returns from inside the loop with an error code only. *)
Lemma start_submit_clears_packets e a l : forall S rt,
  2 <= channels (runtime a) <= 4 ->
  packets_clear a S rt ->
  wlp (start_submit e l) rt
      (fun early rt' _ =>
         packets_clear a (fun j => S j \/ early = None /\ j ∈ l) rt' /\
         early <> Some 0).
Proof.
  induction l as [|i l IH]; intros S rt Hch Hclear; cbn [start_submit].
  - split; [|discriminate].
    eapply packets_clear_weaken; [|exact Hclear].
    intros j [Hj | [_ Hj]]; [exact Hj | inversion Hj].
  - apply wlp_bind. unfold wlp at 1, get.
    apply wlp_bind. unfold wlp at 1, modify.
    apply wlp_bind. unfold wlp at 1, emit.
    assert (H1 : packets_clear a (fun j => S j \/ j = i)
                   (set_urb DirOut i
                      (set_buffer
                         (memset_zero (buffer (urb DirOut i rt)) PCM_URB_SIZE)
                         (urb DirOut i rt)) rt)).
    { destruct Hclear as [Hi Hall]. split; [exact Hi|]. intros j.
      destruct (decide (i = j)) as [<-|Hij].
      - rewrite urb_set_urb_same. cbn [buffer set_buffer].
        rewrite (memset_zero_whole _ (proj1 (Hall i))).
        split; [reflexivity|]. intros _.
        apply (memset_zero_clears_padding _ (replicate 512 x00) Hch).
        reflexivity.
      - rewrite urb_set_urb_other by congruence.
        split; [apply Hall|]. intros [Hj | ->]; [apply Hall, Hj | tauto]. }
    apply wlp_bind.
    eapply wlp_mono; [|apply usb_submit_keeps_packets; exact H1].
    intros ret rt1 c1 Hc1. cbn beta in Hc1.
    destruct (negb (ret =? 0)) eqn:Hret.
    { apply wlp_bind.
      eapply wlp_mono; [|apply stream_stop_keeps_packets; eassumption].
      intros ? rt2 c2 Hc2. cbn beta in Hc2.
      split; [|intros [= ->]; discriminate Hret].
      eapply packets_clear_weaken; [|exact Hc2].
      intros j [Hj | [[=] _]]. left. exact Hj. }
    apply wlp_bind. unfold wlp at 1, emit.
    apply wlp_bind.
    eapply wlp_mono; [|apply usb_submit_keeps_packets; exact Hc1].
    intros ret' rt2 c2 Hc2. cbn beta in Hc2.
    destruct (negb (ret' =? 0)) eqn:Hret'.
    { apply wlp_bind.
      eapply wlp_mono; [|apply stream_stop_keeps_packets; eassumption].
      intros ? rt3 c3 Hc3. cbn beta in Hc3.
      split; [|intros [= ->]; discriminate Hret'].
      eapply packets_clear_weaken; [|exact Hc3].
      intros j [Hj | [[=] _]]. left. exact Hj. }
    eapply wlp_mono; [|apply IH; [exact Hch | exact Hc2]].
    intros early rt3 c3 [Hc3 He3]. split; [|exact He3].
    eapply packets_clear_weaken; [|exact Hc3].
    intros j [Hj | [He Hj]]; [left; left; exact Hj|].
    apply elem_of_cons in Hj as [-> | Hj];
      [left; right; reflexivity | right; split; assumption].
Qed.

(** A start that succeeds leaves zero in the stepped-over word of every
    slot of every out-URB, whatever the packets held before. *)
Lemma stream_start_clears_packets e rt a :
  2 <= channels (runtime a) <= 4 ->
  stream_state rt = STREAM_DISABLED ->
  packets_clear a (fun _ => False) rt ->
  wlp (zoom_pcm_stream_start e) rt
      (fun ret rt' _ => packets_clear a (fun _ => ret = 0) rt').
Proof.
  intros Hch Hst Hclear. unfold zoom_pcm_stream_start.
  apply wlp_bind. unfold wlp at 1, get. rewrite Hst. cbn [state_eqb].
  apply wlp_bind. unfold wlp at 1, modify.
  apply wlp_bind.
  eapply wlp_mono;
    [|apply interface_init_keeps_packets; [exact Hch | exact Hclear]].
  intros ret rt1 c1 Hc1. cbn beta in Hc1.
  destruct (negb (ret =? 0)) eqn:Hret.
  { eapply packets_clear_weaken; [|exact Hc1].
    intros j ->. discriminate Hret. }
  apply wlp_bind. unfold wlp at 1, modify.
  apply wlp_bind.
  eapply wlp_mono;
    [|apply start_submit_clears_packets; [exact Hch | exact Hc1]].
  intros early rt2 c2 [Hc2 He2]. 
  destruct early as [r|].
  { eapply packets_clear_weaken; [|exact Hc2].
    intros j ->. congruence. }
  apply wlp_bind. unfold wait_event_timeout.
  apply wlp_bind. unfold wlp at 1, emit.
  eapply wlp_mono; [|apply wait_event_keeps_packets; [exact Hch | exact Hc2]].
  intros ? rt3 c3 Hc3. cbn beta in Hc3.
  apply wlp_bind. unfold wlp at 1, get.
  destruct (stream_wait_cond rt3).
  - apply wlp_bind. unfold wlp at 1, modify.
    eapply packets_clear_weaken; [|exact Hc3].
    intros j _. right. split; [reflexivity | apply all_indices].
  - apply wlp_bind.
    eapply wlp_mono; [|apply stream_stop_keeps_packets; eassumption].
    intros ? rt4 c4 Hc4. cbn beta in Hc4.
    eapply packets_clear_weaken; [|exact Hc4].
    intros j [=].
Qed.

(** [zoom_pcm_prepare], which every playback session goes through before
    it is triggered: when it succeeds, every out-URB holds a packet with
    zero in the stepped-over words, whatever an earlier session with
    another channel count left there. *)
Lemma prepare_clears_packets (alsa_sub : snd_pcm_substream) (e : stop_env)
  (es : start_env) (rt : pcm_runtime) (a : snd_pcm_substream) :
  2 <= channels (runtime a) <= 4 ->
  packets_clear a (fun _ => False) rt ->
  wlp (zoom_pcm_prepare alsa_sub e es) rt
      (fun ret rt' _ => packets_clear a (fun _ => ret = 0) rt').
Proof.
  intros Hch Hclear. unfold zoom_pcm_prepare.
  assert (Hno : forall rt' ret, ret <> 0 -> packets_clear a (fun _ => False) rt'
                -> packets_clear a (fun _ => ret = 0) rt').
  { intros rt' ret Hne H. eapply packets_clear_weaken; [|exact H].
    intros j Hj. contradiction. }
  apply wlp_bind. unfold wlp at 1, get.
  destruct (panic rt); [apply Hno; [discriminate | exact Hclear]|].
  destruct (zoom_pcm_get_substream alsa_sub) as [w|];
    [|apply Hno; [discriminate | exact Hclear]].
  apply wlp_bind. unfold wlp at 1, emit.
  apply wlp_bind.
  pose proof (wp_wlp _ _ _ (zoom_pcm_stream_stop_spec e rt)) as Hstop.
  pose proof (stream_stop_keeps_packets e rt a _ Hch Hclear) as Hkeep.
  unfold wlp in Hstop, Hkeep. unfold wlp at 1.
  destruct (zoom_pcm_stream_stop e rt) as [|[] rt1 c1]; [exact I|].
  destruct Hstop as (Hst1 & _).
  apply wlp_bind. unfold wlp at 1, modify.
  apply wlp_bind. unfold wlp at 1, get.
  match goal with
  | |- context [set_substream w ?s rt1] => set (rt2 := set_substream w s rt1)
  end.
  assert (Hst2 : stream_state rt2 = STREAM_DISABLED)
    by (subst rt2; destruct w; exact Hst1).
  assert (Hc2 : packets_clear a (fun _ => False) rt2).
  { subst rt2. destruct Hkeep as [Hi Hall].
    destruct w; (split; [exact Hi | exact Hall]). }
  rewrite Hst2. cbn [state_eqb].
  apply wlp_bind.
  eapply wlp_mono;
    [|apply stream_start_clears_packets; [exact Hch | exact Hst2 | exact Hc2]].
  intros ret rt3 c3 Hc3. cbn beta in Hc3.
  destruct (negb (ret =? 0)) eqn:Hret;
    apply wlp_bind; unfold wlp at 1, emit; unfold wlp, mret, M_ret.
  - exact Hc3.
  - eapply packets_clear_weaken; [|exact Hc3].
    intros j _. apply negb_false_iff, Z.eqb_eq in Hret. exact Hret.
Qed.

(** The packets of a session.  Once a start has succeeded, every
    completion that the USB core delivers leaves the out-URBs with zero in
    the word that [memcpy_pcm_playback] steps over: that is the packet
    [zoom_pcm_playback] hands to it. *)
Lemma giveback_keeps_packets_clear (c : completion) (rt : pcm_runtime)
  (a : snd_pcm_substream) :
  2 <= channels (runtime a) <= 4 ->
  packets_clear a (fun _ => True) rt ->
  wlp (giveback c) rt (fun _ rt' _ => packets_clear a (fun _ => True) rt').
Proof. apply giveback_keeps_packets. Qed.

Lemma wlp_done {A} (m : M A) rt Q a rt' calls :
  m rt = Done a rt' calls -> wlp m rt Q -> Q a rt' calls.
Proof. unfold wlp. intros ->. auto. Qed.

(** On [stale_session] a prepare that succeeds leaves every out-URB with a
    packet that [memcpy_pcm_playback] fills as the design document says. *)
Lemma prepare_clears_stale_session :
  let a := paced SNDRV_PCM_STREAM_PLAYBACK marker_area in
  let m := zoom_pcm_prepare a quiet_stop_env
                            (ok_start [first_out_completion]) in
  returned m stale_session = Some 0 /\
  packets_clear a (fun _ => True) (state_after m stale_session).
Proof.
  intros a m. split; [vm_compute; reflexivity|].
  assert (Hclear : packets_clear a (fun _ => False) stale_session).
  { split; [reflexivity|]. intros j. split; [|contradiction].
    inv_fin j; [reflexivity|]. intros j.
    inv_fin j; [reflexivity|]. intros j.
    inv_fin j; [reflexivity|]. intros j.
    inv_fin j; [reflexivity|]. intros j. inv_fin j. }
  assert (Hch : 2 <= channels (runtime a) <= 4)
    by (vm_compute; split; discriminate).
  assert (Hrun : m stale_session
                 = Done 0 (state_after m stale_session)
                        (calls_of m stale_session))
    by (vm_compute; reflexivity).
  pose proof (wlp_done _ _ _ _ _ _ Hrun
                (prepare_clears_packets a quiet_stop_env
                   (ok_start [first_out_completion]) stale_session a
                   Hch Hclear)) as H.
  cbv beta in H.
  eapply packets_clear_weaken; [|exact H].
  intros j _. reflexivity.
Qed.
